(** * gostore: a query builder and repository layer over a document store

    A shallow embedding of the Go packages [builder], [exec] and
    [repository], and the properties of their specification that can be
    settled on it.

    Conventions of the embedding.
    - Go's [int] is the 64-bit signed integer of the usual targets; it is a
      [Z] and every arithmetic operation of the source wraps explicitly.
    - A Go [string] is a Rocq [string] (a sequence of bytes).
    - A value of type [interface{}] / [any], and what [reflect] sees of it,
      is a [value].
    - [*Builder] is a pointer: builders live in a heap ([gmap loc Builder])
      and every method takes the receiver's address.
    - A Go map is given by the sequence of entries that [range] visits; the
      order is chosen by the runtime, so the theorems hold for every order.
    - The datastore client is an external collaborator: its operations
      ([GetAll], [PutMulti], the cursor codec) are variables of the sections
      that use them, and the state of the store is passed explicitly.
    - A call that can panic returns an [option] or an [outcome]; the one
      loop that need not terminate, in [BulkCreate], is bounded by fuel. *)

From Stdlib Require Import ZArith Lia Ascii String List Bool DecimalString.
From Stdlib Require DecimalZ.
From stdpp Require Import base option list gmap.

Set Default Proof Using "Type".
Local Open Scope Z_scope.

(** ** Go's [int] *)

Module GoInt.

Definition min_int : Z := - 2 ^ 63.
Definition max_int : Z := 2 ^ 63 - 1.

Definition in_range (z : Z) : Prop := min_int <= z <= max_int.

(** Two's-complement wrap-around of a mathematical result. *)
Definition wrap (z : Z) : Z := (z + 2 ^ 63) mod 2 ^ 64 - 2 ^ 63.

Definition add (a b : Z) : Z := wrap (a + b).
Definition sub (a b : Z) : Z := wrap (a - b).
Definition mul (a b : Z) : Z := wrap (a * b).

End GoInt.

(** ** Package [strings] (the functions the source calls) *)

Module strings.

Local Open Scope string_scope.

Fixpoint HasPrefix (s prefix : string) {struct prefix} : bool :=
  match prefix, s with
  | EmptyString, _ => true
  | String _ _, EmptyString => false
  | String a p', String b s' => if Ascii.eqb a b then HasPrefix s' p' else false
  end.

(** Byte offset of the first occurrence of [substr] in [s]. *)
Fixpoint index (s substr : string) : option nat :=
  if HasPrefix s substr then Some O
  else match s with
       | EmptyString => None
       | String _ s' => S <$> index s' substr
       end.

(** [strings.Index]: -1 when [substr] does not occur. *)
Definition Index (s substr : string) : Z :=
  match index s substr with
  | Some i => Z.of_nat i
  | None => (-1)%Z
  end.

(** [strings.Contains] is [Index(s, substr) >= 0]. *)
Definition Contains (s substr : string) : bool := (0 <=? Index s substr)%Z.

Fixpoint take (n : nat) (s : string) : string :=
  match n, s with
  | S n', String c s' => String c (take n' s')
  | _, _ => EmptyString
  end.

Fixpoint drop (n : nat) (s : string) : string :=
  match n, s with
  | S n', String _ s' => drop n' s'
  | _, _ => s
  end.

(** [strings.Split] for a non-empty separator: the pieces between the
    successive non-overlapping occurrences of [sep], scanned from the left.
    Every round consumes at least one byte, so [length s] rounds suffice. *)
Fixpoint split_rounds (rounds : nat) (s sep : string) : list string :=
  match rounds with
  | O => [s]
  | S r =>
      match index s sep with
      | None => [s]
      | Some m => take m s :: split_rounds r (drop (m + String.length sep) s) sep
      end
  end.

Definition Split (s sep : string) : list string :=
  split_rounds (String.length s) s sep.

(** White space as [unicode.IsSpace] defines it, seen on the UTF-8 bytes:
    the length of the encoding of a white-space rune at the head of [bs]. *)
Definition byte (n : nat) : ascii := ascii_of_nat n.

Definition asciiSpace (c : ascii) : bool :=
  let n := nat_of_ascii c in
  ((9 <=? n) && (n <=? 13) || (n =? 32))%nat.

Definition space_rune_width (bs : list ascii) : option nat :=
  match List.map nat_of_ascii (firstn 3 bs) with
  | b0 :: rest =>
      if ((9 <=? b0) && (b0 <=? 13) || (b0 =? 32))%nat then Some 1%nat
      else match b0, rest with
           | 194%nat, b1 :: _ =>                       (* U+0085, U+00A0 *)
               if ((b1 =? 133) || (b1 =? 160))%nat then Some 2%nat else None
           | 225%nat, b1 :: b2 :: _ =>                 (* U+1680 *)
               if ((b1 =? 154) && (b2 =? 128))%nat then Some 3%nat else None
           | 226%nat, b1 :: b2 :: _ =>
               if ((b1 =? 128) &&                      (* U+2000 .. U+200A *)
                   ((128 <=? b2) && (b2 <=? 138)
                    || (b2 =? 168) || (b2 =? 169)      (* U+2028, U+2029 *)
                    || (b2 =? 175))                    (* U+202F *)
                   || (b1 =? 129) && (b2 =? 159))%nat  (* U+205F *)
               then Some 3%nat else None
           | 227%nat, b1 :: b2 :: _ =>                 (* U+3000 *)
               if ((b1 =? 128) && (b2 =? 128))%nat then Some 3%nat else None
           | _, _ => None
           end
  | [] => None
  end.

(** The same test on the last rune: the encoding is read backwards. *)
Definition space_rune_width_last (rbs : list ascii) : option nat :=
  match rbs with
  | c :: _ =>
      if asciiSpace c then Some 1%nat
      else match space_rune_width (rev (firstn 2 rbs)) with
           | Some 2%nat => Some 2%nat
           | _ => match space_rune_width (rev (firstn 3 rbs)) with
                  | Some 3%nat => Some 3%nat
                  | _ => None
                  end
           end
  | [] => None
  end.

Fixpoint trim_with (width : list ascii -> option nat) (rounds : nat)
    (bs : list ascii) : list ascii :=
  match rounds with
  | O => bs
  | S r => match width bs with
           | Some w => trim_with width r (skipn w bs)
           | None => bs
           end
  end.

Definition TrimLeftSpace (bs : list ascii) : list ascii :=
  trim_with space_rune_width (List.length bs) bs.

Definition TrimRightSpace (bs : list ascii) : list ascii :=
  rev (trim_with space_rune_width_last (List.length bs) (rev bs)).

(** [strings.TrimSpace]: leading and trailing white space removed. *)
Definition TrimSpace (s : string) : string :=
  string_of_list_ascii (TrimRightSpace (TrimLeftSpace (list_ascii_of_string s))).

End strings.

(** ** Dynamic values: what an [interface{}] holds and [reflect] inspects *)

Module reflect.

(** [reflect.Kind]. *)
Inductive Kind : Set :=
  | Invalid | Bool
  | Int | Int8 | Int16 | Int32 | Int64
  | Uint | Uint8 | Uint16 | Uint32 | Uint64 | Uintptr
  | Float32 | Float64 | Complex64 | Complex128
  | Array | Chan | Func | Interface | Map | Ptr | Slice | String | Struct
  | UnsafePointer.

End reflect.

(** Width of an integer type: [int]/[uint] itself, or a sized variant. *)
Inductive width : Set := Wnative | W8 | W16 | W32 | W64.

(** A struct field as [reflect.StructField] describes it. [PkgPath] is empty
    exactly for exported fields; [Tag] is the parsed struct tag, one entry
    per key. *)
Record StructField : Type := {
  Name : string;
  PkgPath : string;
  Tag : list (string * string);
}.

#[warnings="-register-all"] Inductive value : Type :=
  | Nil                                          (* the nil interface *)
  | VBool (b : bool)
  | VInt (w : width) (n : Z)                     (* int, int8 .. int64 *)
  | VUint (w : width) (n : Z)                    (* uint, uint8 .. uint64 *)
  | VUintptr (n : Z)
  | VFloat32 (bits : Z)                          (* IEEE 754 bit pattern *)
  | VFloat64 (bits : Z)
  | VComplex64 (re im : Z)
  | VComplex128 (re im : Z)
  | VString (s : string)
  | VArray (elems : list value)
  | VSlice (elems : option (list value))         (* None: a nil slice *)
  | VMap (entries : option (list (value * value)))
  | VPtr (target : option value)                 (* None: a nil pointer *)
  | VIface (dyn : option value)                  (* a field of interface type *)
  | VStruct (ty : string) (fields : list (StructField * value))
  | VTime (sec nsec : Z)                         (* time.Time: seconds since
                                                    year 1, nanoseconds *)
  | VChan (isnil : bool)
  | VFunc (isnil : bool)
  | VUnsafePointer (addr : Z).

(** [StructTag.Get]: the value of [key], the empty string when absent. *)
Fixpoint Tag_Get (tag : list (string * string)) (key : string) : string :=
  match tag with
  | [] => EmptyString
  | (k, v) :: tag' => if String.eqb k key then v else Tag_Get tag' key
  end.

Definition int_kind (w : width) : reflect.Kind :=
  match w with
  | Wnative => reflect.Int | W8 => reflect.Int8 | W16 => reflect.Int16
  | W32 => reflect.Int32 | W64 => reflect.Int64
  end.

Definition uint_kind (w : width) : reflect.Kind :=
  match w with
  | Wnative => reflect.Uint | W8 => reflect.Uint8 | W16 => reflect.Uint16
  | W32 => reflect.Uint32 | W64 => reflect.Uint64
  end.

(** [reflect.Value.Kind]. [reflect.ValueOf(nil)] is the zero Value, of kind
    Invalid. *)
Definition Kind_of (v : value) : reflect.Kind :=
  match v with
  | Nil => reflect.Invalid
  | VBool _ => reflect.Bool
  | VInt w _ => int_kind w
  | VUint w _ => uint_kind w
  | VUintptr _ => reflect.Uintptr
  | VFloat32 _ => reflect.Float32
  | VFloat64 _ => reflect.Float64
  | VComplex64 _ _ => reflect.Complex64
  | VComplex128 _ _ => reflect.Complex128
  | VString _ => reflect.String
  | VArray _ => reflect.Array
  | VSlice _ => reflect.Slice
  | VMap _ => reflect.Map
  | VPtr _ => reflect.Ptr
  | VIface _ => reflect.Interface
  | VStruct _ _ | VTime _ _ => reflect.Struct
  | VChan _ => reflect.Chan
  | VFunc _ => reflect.Func
  | VUnsafePointer _ => reflect.UnsafePointer
  end.

(** [reflect.Value.Len], for the kinds on which the source calls it. *)
Definition Len (v : value) : Z :=
  match v with
  | VString s => Z.of_nat (String.length s)
  | VArray l => Z.of_nat (List.length l)
  | VSlice (Some l) => Z.of_nat (List.length l)
  | VMap (Some l) => Z.of_nat (List.length l)
  | _ => 0
  end.

(** [reflect.Value.Float() == 0]: both signed zeros compare equal to 0, a
    NaN does not. *)
Definition Float_is_zero (v : value) : bool :=
  match v with
  | VFloat32 bits => Z.land bits (2 ^ 31 - 1) =? 0
  | VFloat64 bits => Z.land bits (2 ^ 63 - 1) =? 0
  | _ => false
  end.

(** [reflect.Value.IsNil] for interfaces and pointers. *)
Definition IsNil (v : value) : bool :=
  match v with
  | VPtr None | VIface None => true
  | _ => false
  end.

(** [time.Time.IsZero]: the instant January 1, year 1, 00:00:00 UTC. *)
Definition Time_IsZero (sec nsec : Z) : bool := (sec =? 0) && (nsec =? 0).

(** The type assertions the source performs on map values and identifiers. *)
Definition as_int (v : value) : option Z :=
  match v with VInt Wnative n => Some n | _ => None end.

Definition as_string (v : value) : option string :=
  match v with VString s => Some s | _ => None end.

(** ** Package [builder]: types *)

Module Export types.

(** [type FilterOperator string] and its constants. *)
Definition FilterOperator : Type := string.

Definition Equal : FilterOperator := "="%string.
Definition LessThan : FilterOperator := "<"%string.
Definition LessThanOrEqual : FilterOperator := "<="%string.
Definition GreaterThan : FilterOperator := ">"%string.
Definition GreaterThanOrEqual : FilterOperator := ">="%string.
Definition NotEqual : FilterOperator := "!="%string.

(** [type OrderDirection string] and its constants. *)
Definition OrderDirection : Type := string.

Definition Ascending : OrderDirection := "asc"%string.
Definition Descending : OrderDirection := "desc"%string.

Record FilterParam : Type := {
  Field : string;
  Operator : FilterOperator;
  Value : value;
}.

Record OrderParam : Type := {
  OField : string;
  Direction : OrderDirection;
}.

Record AncestorParam : Type := {
  AKind : string;
  ID : value;
}.

Record QueryParams : Type := {
  Filters : list FilterParam;
  Orders : list OrderParam;
  Limit : Z;
  Offset : Z;
  Cursor : string;
  Select : list string;
  Distinct : bool;
  KeysOnly : bool;
  Ancestor : option AncestorParam;
  Transaction : bool;
}.

Record PaginationResult : Type := {
  NextCursor : string;
  HasMore : bool;
  Total : Z;
}.

End types.

(** [type Builder struct] (builder.go). *)
Record Builder : Type := {
  kind : string;
  params : QueryParams;
}.

(** Go's [error] values: [errors.New(text)], [fmt.Errorf(format, args...)]
    (the message is not formatted here), or whatever the store reports. *)
Inductive error : Type :=
  | errors_New (text : string)
  | fmt_Errorf (format : string) (args : list value).

(** ** The datastore client's vocabulary *)

(** [*datastore.Key], built by [NameKey], [IDKey] and [IncompleteKey]. *)
#[warnings="-register-all"] Inductive Key : Type :=
  | NameKey (kind name : string) (parent : option Key)
  | IDKey (kind : string) (id : Z) (parent : option Key)
  | IncompleteKey (kind : string) (parent : option Key).

(** The fields [Kind], [Name] and [ID] of a key: a name key has ID 0, an
    ID key the empty name, an incomplete key both. *)
Definition Key_Kind (k : Key) : string :=
  match k with
  | NameKey kind _ _ | IDKey kind _ _ | IncompleteKey kind _ => kind
  end.

Definition Key_Name (k : Key) : string :=
  match k with
  | NameKey _ name _ => name
  | _ => EmptyString
  end.

Definition Key_ID (k : Key) : Z :=
  match k with
  | IDKey _ id _ => id
  | _ => 0
  end.

(** [*datastore.Query]: what the derivative-query methods were given. A new
    query has no limit (-1) and offset 0. *)
Record Query (Cursor : Type) : Type := {
  q_kind : string;
  q_filter : list (string * value);
  q_order : list string;
  q_limit : Z;
  q_offset : Z;
  q_start : option Cursor;
  q_projection : list string;
  q_distinct : bool;
  q_keysOnly : bool;
  q_ancestor : option Key;
}.
Arguments q_kind {Cursor}.
Arguments q_filter {Cursor}.
Arguments q_order {Cursor}.
Arguments q_limit {Cursor}.
Arguments q_offset {Cursor}.
Arguments q_start {Cursor}.
Arguments q_projection {Cursor}.
Arguments q_distinct {Cursor}.
Arguments q_keysOnly {Cursor}.
Arguments q_ancestor {Cursor}.

Module datastore.
Section Query.
Context {Cursor : Type}.
Local Abbreviation Query := (Query Cursor).

Definition NewQuery (kind : string) : Query :=
  {| q_kind := kind; q_filter := []; q_order := []; q_limit := -1;
     q_offset := 0; q_start := None; q_projection := []; q_distinct := false;
     q_keysOnly := false; q_ancestor := None |}.

Definition Filter (q : Query) (filterStr : string) (v : value) : Query :=
  {| q_kind := q_kind q; q_filter := q_filter q ++ [(filterStr, v)];
     q_order := q_order q; q_limit := q_limit q; q_offset := q_offset q;
     q_start := q_start q; q_projection := q_projection q;
     q_distinct := q_distinct q; q_keysOnly := q_keysOnly q;
     q_ancestor := q_ancestor q |}.

Definition Order (q : Query) (fieldName : string) : Query :=
  {| q_kind := q_kind q; q_filter := q_filter q;
     q_order := q_order q ++ [fieldName]; q_limit := q_limit q;
     q_offset := q_offset q; q_start := q_start q;
     q_projection := q_projection q; q_distinct := q_distinct q;
     q_keysOnly := q_keysOnly q; q_ancestor := q_ancestor q |}.

Definition Limit (q : Query) (limit : Z) : Query :=
  {| q_kind := q_kind q; q_filter := q_filter q; q_order := q_order q;
     q_limit := limit; q_offset := q_offset q; q_start := q_start q;
     q_projection := q_projection q; q_distinct := q_distinct q;
     q_keysOnly := q_keysOnly q; q_ancestor := q_ancestor q |}.

Definition Offset (q : Query) (offset : Z) : Query :=
  {| q_kind := q_kind q; q_filter := q_filter q; q_order := q_order q;
     q_limit := q_limit q; q_offset := offset; q_start := q_start q;
     q_projection := q_projection q; q_distinct := q_distinct q;
     q_keysOnly := q_keysOnly q; q_ancestor := q_ancestor q |}.

Definition Start (q : Query) (c : Cursor) : Query :=
  {| q_kind := q_kind q; q_filter := q_filter q; q_order := q_order q;
     q_limit := q_limit q; q_offset := q_offset q; q_start := Some c;
     q_projection := q_projection q; q_distinct := q_distinct q;
     q_keysOnly := q_keysOnly q; q_ancestor := q_ancestor q |}.

Definition Project (q : Query) (fieldNames : list string) : Query :=
  {| q_kind := q_kind q; q_filter := q_filter q; q_order := q_order q;
     q_limit := q_limit q; q_offset := q_offset q; q_start := q_start q;
     q_projection := fieldNames; q_distinct := q_distinct q;
     q_keysOnly := q_keysOnly q; q_ancestor := q_ancestor q |}.

Definition Distinct (q : Query) : Query :=
  {| q_kind := q_kind q; q_filter := q_filter q; q_order := q_order q;
     q_limit := q_limit q; q_offset := q_offset q; q_start := q_start q;
     q_projection := q_projection q; q_distinct := true;
     q_keysOnly := q_keysOnly q; q_ancestor := q_ancestor q |}.

Definition KeysOnly (q : Query) : Query :=
  {| q_kind := q_kind q; q_filter := q_filter q; q_order := q_order q;
     q_limit := q_limit q; q_offset := q_offset q; q_start := q_start q;
     q_projection := q_projection q; q_distinct := q_distinct q;
     q_keysOnly := true; q_ancestor := q_ancestor q |}.

Definition Ancestor (q : Query) (ancestor : Key) : Query :=
  {| q_kind := q_kind q; q_filter := q_filter q; q_order := q_order q;
     q_limit := q_limit q; q_offset := q_offset q; q_start := q_start q;
     q_projection := q_projection q; q_distinct := q_distinct q;
     q_keysOnly := q_keysOnly q; q_ancestor := Some ancestor |}.

End Query.
End datastore.

(** [*datastore.Iterator], as the source uses it: what the successive calls
    of [Next] give, a successful [Next] being followed by what [Cursor]
    gives after it. When the steps are used up [Next] returns
    [iterator.Done]. *)
Inductive IterStep (CursorT : Type) : Type :=
  | NextOK (cursor : CursorT + error)
  | NextErr (err : error).
Arguments NextOK {CursorT} cursor.
Arguments NextErr {CursorT} err.

(** The sentinel errors of the client library. Go compares errors by
    identity; here an [errors.New] value is identified with its text. *)
Definition ErrNoSuchEntity : error := errors_New "datastore: no such entity".

Definition iterator_Done : error := errors_New "no more items in iterator".

(** [err == datastore.ErrNoSuchEntity] *)
Definition is_ErrNoSuchEntity (err : error) : bool :=
  match err with
  | errors_New text => String.eqb text "datastore: no such entity"
  | fmt_Errorf _ _ => false
  end.

(** [err == iterator.Done] *)
Definition is_iterator_Done (err : error) : bool :=
  match err with
  | errors_New text => String.eqb text "no more items in iterator"
  | fmt_Errorf _ _ => false
  end.

(** What the client answers for a destination it cannot load an entity
    into. *)
Definition ErrInvalidEntityType : error :=
  errors_New "datastore: invalid entity type".

(** ** Package [builder]: the query builder (builder.go) *)

(** Builders are heap objects; a [*Builder] is an address. *)
Definition loc : Type := positive.

Abbreviation heap := (gmap loc Builder).

(** Computations over the heap; [None] is the run-time panic of a nil or
    dangling receiver. *)
Definition M (A : Type) : Type := heap -> option (A * heap).

Definition ret {A : Type} (a : A) : M A := fun h => Some (a, h).

Definition bind {A B : Type} (m : M A) (f : A -> M B) : M B :=
  fun h => match m h with
           | Some (a, h') => f a h'
           | None => None
           end.

Notation "'do' x <- m ; f" := (bind m (fun x => f))
  (at level 10, x name, m at level 100, f at level 200).

(** [&Builder{...}]: a fresh object. *)
Definition alloc (b : Builder) : M loc :=
  fun h => let p := fresh (dom h) in Some (p, <[p := b]> h).

(** Reading [*b]. *)
Definition load (b : loc) : M Builder :=
  fun h => match h !! b with
           | Some this => Some (this, h)
           | None => None
           end.

(** A field assignment through the pointer: [b.x = ...]. *)
Definition update (b : loc) (f : Builder -> Builder) : M unit :=
  fun h => match h !! b with
           | Some this => Some (tt, <[b := f this]> h)
           | None => None
           end.

Module Import assign.

Definition on_params (f : QueryParams -> QueryParams) (b : Builder) : Builder :=
  {| kind := kind b; params := f (params b) |}.

Definition set_kind (k : string) (b : Builder) : Builder :=
  {| kind := k; params := params b |}.

Definition set_Filters (x : list FilterParam) (q : QueryParams) : QueryParams :=
  {| Filters := x; Orders := Orders q; Limit := Limit q; Offset := Offset q;
     Cursor := Cursor q; Select := Select q; Distinct := Distinct q;
     KeysOnly := KeysOnly q; Ancestor := Ancestor q;
     Transaction := Transaction q |}.

Definition set_Orders (x : list OrderParam) (q : QueryParams) : QueryParams :=
  {| Filters := Filters q; Orders := x; Limit := Limit q; Offset := Offset q;
     Cursor := Cursor q; Select := Select q; Distinct := Distinct q;
     KeysOnly := KeysOnly q; Ancestor := Ancestor q;
     Transaction := Transaction q |}.

Definition set_Limit (x : Z) (q : QueryParams) : QueryParams :=
  {| Filters := Filters q; Orders := Orders q; Limit := x; Offset := Offset q;
     Cursor := Cursor q; Select := Select q; Distinct := Distinct q;
     KeysOnly := KeysOnly q; Ancestor := Ancestor q;
     Transaction := Transaction q |}.

Definition set_Offset (x : Z) (q : QueryParams) : QueryParams :=
  {| Filters := Filters q; Orders := Orders q; Limit := Limit q; Offset := x;
     Cursor := Cursor q; Select := Select q; Distinct := Distinct q;
     KeysOnly := KeysOnly q; Ancestor := Ancestor q;
     Transaction := Transaction q |}.

Definition set_Cursor (x : string) (q : QueryParams) : QueryParams :=
  {| Filters := Filters q; Orders := Orders q; Limit := Limit q;
     Offset := Offset q; Cursor := x; Select := Select q;
     Distinct := Distinct q; KeysOnly := KeysOnly q; Ancestor := Ancestor q;
     Transaction := Transaction q |}.

Definition set_Select (x : list string) (q : QueryParams) : QueryParams :=
  {| Filters := Filters q; Orders := Orders q; Limit := Limit q;
     Offset := Offset q; Cursor := Cursor q; Select := x;
     Distinct := Distinct q; KeysOnly := KeysOnly q; Ancestor := Ancestor q;
     Transaction := Transaction q |}.

Definition set_Distinct (x : bool) (q : QueryParams) : QueryParams :=
  {| Filters := Filters q; Orders := Orders q; Limit := Limit q;
     Offset := Offset q; Cursor := Cursor q; Select := Select q;
     Distinct := x; KeysOnly := KeysOnly q; Ancestor := Ancestor q;
     Transaction := Transaction q |}.

Definition set_KeysOnly (x : bool) (q : QueryParams) : QueryParams :=
  {| Filters := Filters q; Orders := Orders q; Limit := Limit q;
     Offset := Offset q; Cursor := Cursor q; Select := Select q;
     Distinct := Distinct q; KeysOnly := x; Ancestor := Ancestor q;
     Transaction := Transaction q |}.

Definition set_Ancestor (x : option AncestorParam) (q : QueryParams) : QueryParams :=
  {| Filters := Filters q; Orders := Orders q; Limit := Limit q;
     Offset := Offset q; Cursor := Cursor q; Select := Select q;
     Distinct := Distinct q; KeysOnly := KeysOnly q; Ancestor := x;
     Transaction := Transaction q |}.

End assign.

Module builder.

(** [New]: a builder with empty filter and order slices. *)
Definition New : M loc :=
  alloc {| kind := EmptyString;
           params := {| Filters := []; Orders := []; Limit := 0; Offset := 0;
                        Cursor := EmptyString; Select := [];
                        Distinct := false; KeysOnly := false;
                        Ancestor := None; Transaction := false |} |}.

Definition Kind (b : loc) (kind : string) : M loc :=
  do _ <- update b (set_kind kind);
  ret b.

(** [b.params.Filters = append(b.params.Filters, FilterParam{...})] *)
Definition Filter (b : loc) (field : string) (operator : FilterOperator)
    (v : value) : M loc :=
  do _ <- update b (on_params (fun p =>
            set_Filters (types.Filters p ++
              [{| Field := field; Operator := operator; Value := v |}]) p));
  ret b.

Definition Where (b : loc) (field : string) (v : value) : M loc :=
  Filter b field Equal v.

(** The [range] loop of [WhereIn]. *)
Fixpoint WhereIn_range (b : loc) (field : string) (values : list value) : M unit :=
  match values with
  | [] => ret tt
  | v :: values' =>
      do _ <- Filter b field Equal v;
      WhereIn_range b field values'
  end.

Definition WhereIn (b : loc) (field : string) (values : list value) : M loc :=
  do _ <- WhereIn_range b field values;
  ret b.

Definition WhereLike (b : loc) (field : string) (v : string) : M loc :=
  Filter b field GreaterThanOrEqual (VString v).

Definition Order (b : loc) (field : string) (direction : OrderDirection) : M loc :=
  do _ <- update b (on_params (fun p =>
            set_Orders (types.Orders p ++
              [{| OField := field; Direction := direction |}]) p));
  ret b.

Definition OrderAsc (b : loc) (field : string) : M loc := Order b field Ascending.

Definition OrderDesc (b : loc) (field : string) : M loc := Order b field Descending.

Definition Limit (b : loc) (limit : Z) : M loc :=
  do _ <- update b (on_params (set_Limit limit));
  ret b.

Definition Offset (b : loc) (offset : Z) : M loc :=
  do _ <- update b (on_params (set_Offset offset));
  ret b.

Definition Cursor (b : loc) (cursor : string) : M loc :=
  do _ <- update b (on_params (set_Cursor cursor));
  ret b.

(** [b.params.Select = fields] *)
Definition Select (b : loc) (fields : list string) : M loc :=
  do _ <- update b (on_params (set_Select fields));
  ret b.

Definition Distinct (b : loc) : M loc :=
  do _ <- update b (on_params (set_Distinct true));
  ret b.

Definition KeysOnly (b : loc) : M loc :=
  do _ <- update b (on_params (set_KeysOnly true));
  ret b.

Definition Ancestor (b : loc) (kind : string) (id : value) : M loc :=
  do _ <- update b (on_params (set_Ancestor (Some {| AKind := kind; ID := id |})));
  ret b.

Section Client.

(** The collaborators of the builder: the cursor codec and the store behind
    [*datastore.Client]. [GetAll] is a read: it returns the matching keys
    (the entities go to [dest]) or an error, and leaves the store as it is. *)
Context {CursorT Store : Type}.
Variable DecodeCursor : string -> CursorT + error.
Variable GetAll : Store -> Query CursorT -> list Key * option error.

(** [fmt.Sprintf("%s %s", filter.Field, filter.Operator)] *)
Definition filterStr (filter : FilterParam) : string :=
  (Field filter ++ " " ++ Operator filter)%string.

(** [Build], on the builder [*b]. *)
Definition Build_of (this : Builder) : Query CursorT :=
  let query := datastore.NewQuery (kind this) in
  (* Apply filters *)
  let query :=
    fold_left (fun query filter =>
                 datastore.Filter query (filterStr filter) (Value filter))
              (types.Filters (params this)) query in
  (* Apply ordering *)
  let query :=
    fold_left (fun query order =>
                 if String.eqb (Direction order) Descending
                 then datastore.Order query ("-" ++ OField order)%string
                 else datastore.Order query (OField order))
              (types.Orders (params this)) query in
  (* Apply limit *)
  let query :=
    if types.Limit (params this) >? 0
    then datastore.Limit query (types.Limit (params this)) else query in
  (* Apply offset *)
  let query :=
    if types.Offset (params this) >? 0
    then datastore.Offset query (types.Offset (params this)) else query in
  (* Apply cursor *)
  let query :=
    if negb (String.eqb (types.Cursor (params this)) EmptyString)
    then match DecodeCursor (types.Cursor (params this)) with
         | inl cursor => datastore.Start query cursor
         | inr _ => query
         end
    else query in
  (* Apply projection *)
  let query :=
    if (Z.of_nat (length (types.Select (params this))) >? 0)
    then datastore.Project query (types.Select (params this)) else query in
  (* Apply distinct *)
  let query :=
    if types.Distinct (params this) then datastore.Distinct query else query in
  (* Apply keys only *)
  let query :=
    if types.KeysOnly (params this) then datastore.KeysOnly query else query in
  (* Apply ancestor *)
  match types.Ancestor (params this) with
  | Some ancestor =>
      let key :=
        match ID ancestor with
        | VString id => Some (NameKey (AKind ancestor) id None)
        | VInt W64 id => Some (IDKey (AKind ancestor) id None)
        | _ => None
        end in
      match key with
      | Some key => datastore.Ancestor query key
      | None => query
      end
  | None => query
  end.

Definition Build (b : loc) : M (Query CursorT) :=
  do this <- load b;
  ret (Build_of this).

(** [Execute]: the returned pair, a pagination result and an error. *)
Definition Execute (b : loc) (client : Store)
  : M (option PaginationResult * option error) :=
  do query <- Build b;
  let '(keys, err) := GetAll client query in
  match err with
  | Some err => ret (None, Some err)
  | None =>
      do this <- load b;
      let pagination :=
        {| NextCursor := EmptyString;
           HasMore := (Z.of_nat (length keys) =? types.Limit (params this))
                      && (types.Limit (params this) >? 0);
           Total := Z.of_nat (length keys) |} in
      ret (Some pagination, None)
  end.

(** [Count]: the returned pair, a count and an error. *)
Definition Count (b : loc) (client : Store) : M (Z * option error) :=
  (* Create a copy to avoid modifying the original builder *)
  do this <- load b;
  do countBuilder <- alloc {| kind := kind this; params := params this |};
  do _ <- KeysOnly countBuilder;
  do query <- Build countBuilder;
  let '(keys, err) := GetAll client query in
  match err with
  | Some err => ret (0, Some err)
  | None => ret (Z.of_nat (length keys), None)
  end.

End Client.

(** A fluent chain [b.m1(...).m2(...)...]: each method is invoked on the
    pointer the previous one returned. *)
Inductive call : Type :=
  | CallKind (kind : string)
  | CallFilter (field : string) (operator : FilterOperator) (v : value)
  | CallWhere (field : string) (v : value)
  | CallWhereIn (field : string) (values : list value)
  | CallWhereLike (field : string) (v : string)
  | CallOrder (field : string) (direction : OrderDirection)
  | CallOrderAsc (field : string)
  | CallOrderDesc (field : string)
  | CallLimit (limit : Z)
  | CallOffset (offset : Z)
  | CallCursor (cursor : string)
  | CallSelect (fields : list string)
  | CallDistinct
  | CallKeysOnly
  | CallAncestor (kind : string) (id : value).

Definition invoke (b : loc) (c : call) : M loc :=
  match c with
  | CallKind k => Kind b k
  | CallFilter f o v => Filter b f o v
  | CallWhere f v => Where b f v
  | CallWhereIn f vs => WhereIn b f vs
  | CallWhereLike f v => WhereLike b f v
  | CallOrder f d => Order b f d
  | CallOrderAsc f => OrderAsc b f
  | CallOrderDesc f => OrderDesc b f
  | CallLimit n => Limit b n
  | CallOffset n => Offset b n
  | CallCursor c => Cursor b c
  | CallSelect fs => Select b fs
  | CallDistinct => Distinct b
  | CallKeysOnly => KeysOnly b
  | CallAncestor k id => Ancestor b k id
  end.

Fixpoint chain (b : loc) (cs : list call) : M loc :=
  match cs with
  | [] => ret b
  | c :: cs' => do b' <- invoke b c; chain b' cs'
  end.

Section Iterate.

(** The collaborators of [ExecuteWithCursor]: [client.Run], the codec of
    cursors, and the zero value of [datastore.Cursor]. *)
Context {CursorT Store : Type}.
Variable DecodeCursor : string -> CursorT + error.
Variable EncodeCursor : CursorT -> string.
Variable zeroCursor : CursorT.
Variable Run : Store -> Query CursorT -> list (IterStep CursorT).

(** The [for] loop of [ExecuteWithCursor] over the rest of the iterator. *)
Fixpoint ExecuteWithCursor_loop (it : list (IterStep CursorT)) (count : Z)
    (lastCursor : CursorT) : Z * CursorT + error :=
  match it with
  | [] => inl (count, lastCursor)                     (* iterator.Done *)
  | NextErr err :: _ =>
      if is_iterator_Done err then inl (count, lastCursor) else inr err
  | NextOK cursor :: it' =>
      let count := GoInt.add count 1 in
      (* Get cursor after each iteration *)
      match cursor with
      | inl lastCursor => ExecuteWithCursor_loop it' count lastCursor
      | inr err => inr err
      end
  end.

Definition ExecuteWithCursor (b : loc) (client : Store)
  : M (option PaginationResult * option error) :=
  do query <- Build DecodeCursor b;
  let it := Run client query in
  match ExecuteWithCursor_loop it 0 zeroCursor with
  | inr err => ret (None, Some err)
  | inl (count, lastCursor) =>
      do this <- load b;
      let hasMore := (count =? types.Limit (params this))
                     && (types.Limit (params this) >? 0) in
      (* Set cursor if we have results and might have more pages *)
      let nextCursor :=
        if (count >? 0) && hasMore then EncodeCursor lastCursor
        else EmptyString in
      ret (Some {| NextCursor := nextCursor; HasMore := hasMore;
                   Total := count |}, None)
  end.

End Iterate.

End builder.

(** ** Package [builder]: the filter builder (filter.go) *)

(** A [reflect.Value]: the value and the read-only flag that [reflect] sets
    on what was reached through an unexported struct field. *)
Record RValue : Type := {
  flagRO : bool;
  val : value;
}.

(** [reflect.Value.Elem] of a pointer; the zero Value for a nil pointer. *)
Definition Elem (v : value) : value :=
  match v with
  | VPtr (Some x) => x
  | _ => Nil
  end.

(** The fields of a struct value, as [Type.Field(i)] and [Value.Field(i)]
    enumerate them. A [time.Time] has three unexported fields; they are
    given for a time without monotonic clock reading and without location. *)
Definition struct_fields (v : value) : list (StructField * value) :=
  match v with
  | VStruct _ fields => fields
  | VTime sec nsec =>
      [({| Name := "wall"; PkgPath := "time"; Tag := [] |}, VUint W64 nsec);
       ({| Name := "ext"; PkgPath := "time"; Tag := [] |}, VInt W64 sec);
       ({| Name := "loc"; PkgPath := "time"; Tag := [] |}, VPtr None)]
  | _ => []
  end.

Definition Bool_of (v : value) : bool :=
  match v with VBool b => b | _ => false end.

Definition Int_of (v : value) : Z :=
  match v with VInt _ n => n | _ => 0 end.

Definition Uint_of (v : value) : Z :=
  match v with VUint _ n => n | VUintptr n => n | _ => 0 end.

(** [reflect.Value.Interface]: panics ([None]) on a read-only Value; a
    Value of interface kind yields the value the interface holds. *)
Definition Interface (v : RValue) : option value :=
  if flagRO v then None
  else match val v with
       | VIface (Some x) => Some x
       | VIface None => Some Nil
       | x => Some x
       end.

Module filter.

(** A [*FilterBuilder] is used by one owner, in one chain: a method takes
    the receiver's state and gives the state the same receiver has when the
    method returns it. *)
Record FilterBuilder : Type := {
  filters : list FilterParam;
}.

Definition NewFilter : FilterBuilder := {| filters := [] |}.

Definition Equal (f : FilterBuilder) (field : string) (v : value) : FilterBuilder :=
  {| filters := filters f ++
       [{| Field := field; Operator := types.Equal; Value := v |}] |}.

Definition NotEqual (f : FilterBuilder) (field : string) (v : value) : FilterBuilder :=
  {| filters := filters f ++
       [{| Field := field; Operator := types.NotEqual; Value := v |}] |}.

Definition GreaterThan (f : FilterBuilder) (field : string) (v : value) : FilterBuilder :=
  {| filters := filters f ++
       [{| Field := field; Operator := types.GreaterThan; Value := v |}] |}.

Definition GreaterThanOrEqual (f : FilterBuilder) (field : string) (v : value)
  : FilterBuilder :=
  {| filters := filters f ++
       [{| Field := field; Operator := types.GreaterThanOrEqual; Value := v |}] |}.

Definition LessThan (f : FilterBuilder) (field : string) (v : value) : FilterBuilder :=
  {| filters := filters f ++
       [{| Field := field; Operator := types.LessThan; Value := v |}] |}.

Definition LessThanOrEqual (f : FilterBuilder) (field : string) (v : value)
  : FilterBuilder :=
  {| filters := filters f ++
       [{| Field := field; Operator := types.LessThanOrEqual; Value := v |}] |}.

Definition Between (f : FilterBuilder) (field : string) (start end_ : value)
  : FilterBuilder :=
  let f := GreaterThanOrEqual f field start in
  let f := LessThanOrEqual f field end_ in
  f.

Definition IsNull (f : FilterBuilder) (field : string) : FilterBuilder :=
  {| filters := filters f ++
       [{| Field := field; Operator := types.Equal; Value := Nil |}] |}.

(** [isZeroValue]; [None] is the panic of [v.Interface()] on a [time.Time]
    reached through an unexported field. *)
Definition isZeroValue (v : RValue) : option bool :=
  match Kind_of (val v) with
  | reflect.Array | reflect.Map | reflect.Slice | reflect.String =>
      Some (Len (val v) =? 0)
  | reflect.Bool =>
      Some (negb (Bool_of (val v)))
  | reflect.Int | reflect.Int8 | reflect.Int16 | reflect.Int32 | reflect.Int64 =>
      Some (Int_of (val v) =? 0)
  | reflect.Uint | reflect.Uint8 | reflect.Uint16 | reflect.Uint32
  | reflect.Uint64 =>
      Some (Uint_of (val v) =? 0)
  | reflect.Float32 | reflect.Float64 =>
      Some (Float_is_zero (val v))
  | reflect.Interface | reflect.Ptr =>
      Some (IsNil (val v))
  | reflect.Struct =>
      (* Special case for time.Time *)
      match val v with
      | VTime sec nsec =>
          match Interface v with
          | Some _ => Some (Time_IsZero sec nsec)
          | None => None
          end
      | _ => Some false
      end
  | _ => Some false
  end.

Section FromStruct.

(** [strings.ToLower], Unicode-aware in Go, is left to the caller of the
    model. *)
Variable ToLower : string -> string.

(** The name under which a field is filtered: from the tags, the part
    before the first comma. *)
Definition fieldName_of (field : StructField) : string :=
  (* Get field name from tag *)
  let tag := Tag_Get (Tag field) "datastore" in
  let tag :=
    if String.eqb tag "" || String.eqb tag "-"
    then Tag_Get (Tag field) "json" else tag in
  let tag :=
    if String.eqb tag "" || String.eqb tag "-"
    then ToLower (Name field) else tag in
  (* Parse tag *)
  let tagParts := strings.Split tag "," in
  hd EmptyString tagParts.

(** The loop over the fields of [FromStruct]. *)
Fixpoint FromStruct_fields (f : FilterBuilder)
    (fields : list (StructField * value)) : option FilterBuilder :=
  match fields with
  | [] => Some f
  | (field, x) :: fields' =>
      let value := {| flagRO := negb (String.eqb (PkgPath field) "");
                      val := x |} in
      (* Skip zero values *)
      match isZeroValue value with
      | None => None
      | Some true => FromStruct_fields f fields'
      | Some false =>
          let fieldName := fieldName_of field in
          match Interface value with
          | None => None
          | Some x => FromStruct_fields (Equal f fieldName x) fields'
          end
      end
  end.

(** [FromStruct]; [None] is a panic. *)
Definition FromStruct (f : FilterBuilder) (s : value) : option FilterBuilder :=
  let v := s in
  let v := match Kind_of v with reflect.Ptr => Elem v | _ => v end in
  match Kind_of v with
  | reflect.Struct => FromStruct_fields f (struct_fields v)
  | _ => Some f
  end.

End FromStruct.

(** The body of the loop of [FromMap], for one entry of the map. *)
Definition FromMap_entry (f : FilterBuilder) (entry : string * value)
  : FilterBuilder :=
  let '(key, v) := entry in
  (* Parse operator from key *)
  let operator := types.Equal in
  let field := key in
  let '(field, operator) :=
    if strings.Contains key ">=" then
      let parts := strings.Split key ">=" in
      (strings.TrimSpace (hd EmptyString parts), types.GreaterThanOrEqual)
    else if strings.Contains key "<=" then
      let parts := strings.Split key "<=" in
      (strings.TrimSpace (hd EmptyString parts), types.LessThanOrEqual)
    else if strings.Contains key ">" then
      let parts := strings.Split key ">" in
      (strings.TrimSpace (hd EmptyString parts), types.GreaterThan)
    else if strings.Contains key "<" then
      let parts := strings.Split key "<" in
      (strings.TrimSpace (hd EmptyString parts), types.LessThan)
    else if strings.Contains key "!=" then
      let parts := strings.Split key "!=" in
      (strings.TrimSpace (hd EmptyString parts), types.NotEqual)
    else (field, operator) in
  {| filters := filters f ++
       [{| Field := field; Operator := operator; Value := v |}] |}.

(** [FromMap]; [m] lists the entries of the map in the order in which the
    [range] loop visits them. *)
Definition FromMap (f : FilterBuilder) (m : list (string * value)) : FilterBuilder :=
  fold_left FromMap_entry m f.

Definition Build (f : FilterBuilder) : list FilterParam := filters f.

(** [DateRange]: [Between] on two [time.Time] values. *)
Definition DateRange (f : FilterBuilder) (field : string)
    (start end_ : Z * Z) : FilterBuilder :=
  Between f field (VTime (fst start) (snd start)) (VTime (fst end_) (snd end_)).

(** A fluent chain on a filter builder. *)
Inductive call : Type :=
  | CallEqual (field : string) (v : value)
  | CallNotEqual (field : string) (v : value)
  | CallGreaterThan (field : string) (v : value)
  | CallGreaterThanOrEqual (field : string) (v : value)
  | CallLessThan (field : string) (v : value)
  | CallLessThanOrEqual (field : string) (v : value)
  | CallBetween (field : string) (start end_ : value)
  | CallIsNull (field : string)
  | CallDateRange (field : string) (start end_ : Z * Z)
  | CallFromStruct (s : value)
  | CallFromMap (m : list (string * value)).

Definition invoke (ToLower : string -> string) (f : FilterBuilder) (c : call)
  : option FilterBuilder :=
  match c with
  | CallEqual field v => Some (Equal f field v)
  | CallNotEqual field v => Some (NotEqual f field v)
  | CallGreaterThan field v => Some (GreaterThan f field v)
  | CallGreaterThanOrEqual field v => Some (GreaterThanOrEqual f field v)
  | CallLessThan field v => Some (LessThan f field v)
  | CallLessThanOrEqual field v => Some (LessThanOrEqual f field v)
  | CallBetween field s e => Some (Between f field s e)
  | CallIsNull field => Some (IsNull f field)
  | CallDateRange field s e => Some (DateRange f field s e)
  | CallFromStruct s => FromStruct ToLower f s
  | CallFromMap m => Some (FromMap f m)
  end.

Fixpoint chain (ToLower : string -> string) (f : FilterBuilder)
    (cs : list call) : option FilterBuilder :=
  match cs with
  | [] => Some f
  | c :: cs' =>
      match invoke ToLower f c with
      | Some f' => chain ToLower f' cs'
      | None => None
      end
  end.

End filter.

(** ** Package [exec] (exec.go) *)

(** How a Go call ends: it returns, it panics, or the model's bound on the
    number of loop iterations ran out before it did either. *)
Inductive outcome (A : Type) : Type :=
  | Returns (a : A)
  | Panics
  | OutOfFuel.
Arguments Returns {A} a.
Arguments Panics {A}.
Arguments OutOfFuel {A}.

(** What [ctx.Value(contextKey.NOSQL_KEY)] holds: nothing, a value of some
    other type, or a [*datastore.Client] (nil when [live] is false). There
    is one store, so a live client is the handle to it. *)
Inductive Context : Type :=
  | ctx_empty
  | ctx_other (v : value)
  | ctx_client (live : bool).

(** [reflect.Value.Slice(i, j)] on a slice; [None] is its panic, "slice
    index out of bounds". The capacity is taken to be the length. *)
Definition Slice (v : value) (i j : Z) : option value :=
  match v with
  | VSlice o =>
      let l := default [] o in
      if (i <? 0) || (j <? i) || (j >? Z.of_nat (length l)) then None
      else Some (VSlice (Some (firstn (Z.to_nat (j - i)) (skipn (Z.to_nat i) l))))
  | _ => None
  end.

Module exec.
Section Client.

Context {CursorT Store : Type}.
Variable DecodeCursor : string -> CursorT + error.
Variable GetAll : Store -> Query CursorT -> list Key * option error.
(** [client.PutMulti]: the store after the call and the error, if any. *)
Variable PutMulti : Store -> list Key -> value -> Store * option error.

(** The client lookup every operation starts with. *)
Definition client_of (ctx : Context) : option error :=
  match ctx with
  | ctx_client true => None
  | _ => Some (errors_New "database is not initialized")
  end.

(** The key loop of [CreateMulti], from index [i] on. *)
Fixpoint CreateMulti_keys (kind : string) (i : Z) (ids : list value)
  : list Key + error :=
  match ids with
  | [] => inl []
  | id :: ids' =>
      let key :=
        match id with
        | VString v => inl (NameKey kind v None)
        | VInt W64 v => inl (IDKey kind v None)
        | Nil => inl (IncompleteKey kind None)
        | _ => inr (fmt_Errorf "invalid ID type at index %d: %T"
                      [VInt Wnative i; id])
        end in
      match key with
      | inr err => inr err
      | inl key =>
          match CreateMulti_keys kind (i + 1) ids' with
          | inl keys => inl (key :: keys)
          | inr err => inr err
          end
      end
  end.

Definition CreateMulti (ctx : Context) (kind : string) (ids : list value)
    (entities : value) (db : Store) : Store * option error :=
  match client_of ctx with
  | Some err => (db, Some err)
  | None =>
      match Kind_of entities with
      | reflect.Slice =>
          match CreateMulti_keys kind 0 ids with
          | inr err => (db, Some err)
          | inl keys => PutMulti db keys entities
          end
      | _ => (db, Some (fmt_Errorf "entities must be a slice" []))
      end
  end.

(** The [range] loop that copies filter conditions into a builder. *)
Fixpoint add_filters (b : loc) (fs : list FilterParam) : M unit :=
  match fs with
  | [] => ret tt
  | filter :: fs' =>
      do _ <- builder.Filter b (Field filter) (Operator filter) (Value filter);
      add_filters b fs'
  end.

Definition Paginate (ctx : Context) (kind : string)
    (filters : list (string * value)) (page pageSize : Z) (db : Store)
  : M (option PaginationResult * option error) :=
  match client_of ctx with
  | Some err => ret (None, Some err)
  | None =>
      let offset := GoInt.mul (GoInt.sub page 1) pageSize in
      do b <- builder.New;
      do b <- builder.Kind b kind;
      do b <- builder.Limit b pageSize;
      do b <- builder.Offset b offset;
      let fb := filter.FromMap filter.NewFilter filters in
      do _ <- add_filters b (filter.Build fb);
      builder.Execute DecodeCursor GetAll b db
  end.

(** The batch loop of [BulkCreate], from index [i] on, for at most [fuel]
    iterations. *)
Fixpoint BulkCreate_loop (fuel : nat) (ctx : Context) (kind : string)
    (v : value) (batchSize total i : Z) (db : Store)
  : Store * outcome (option error) :=
  match fuel with
  | O => (db, OutOfFuel)
  | S fuel' =>
      if i <? total then
        let end_ := GoInt.add i batchSize in
        let end_ := if end_ >? total then total else end_ in
        match Slice v i end_ with
        | None => (db, Panics)
        | Some batch =>
            (* Auto-generate IDs *)
            let ids := repeat Nil (Z.to_nat (GoInt.sub end_ i)) in
            match CreateMulti ctx kind ids batch db with
            | (db', Some err) => (db', Returns (Some err))
            | (db', None) =>
                BulkCreate_loop fuel' ctx kind v batchSize total
                  (GoInt.add i batchSize) db'
            end
        end
      else (db, Returns None)
  end.

Definition BulkCreate (fuel : nat) (ctx : Context) (kind : string)
    (entities : value) (batchSize : Z) (db : Store)
  : Store * outcome (option error) :=
  let v := entities in
  match Kind_of v with
  | reflect.Slice =>
      let total := Len v in
      BulkCreate_loop fuel ctx kind v batchSize total 0 db
  | _ => (db, Returns (Some (fmt_Errorf "entities must be a slice" [])))
  end.

End Client.

Section Operations.

(** The rest of the client: single and multiple get, put and delete, the
    lazy query run and the transaction runner. A get is given the
    destination [dest] besides the key, and gives the entity it loads into
    it, or the error; the library decides by the type of the destination
    whether it can load an entity into it. *)
Context {CursorT Store TxFn : Type}.
Variable DecodeCursor : string -> CursorT + error.
Variable GetAll : Store -> Query CursorT -> list Key * option error.
Variable PutMulti : Store -> list Key -> value -> Store * option error.
Variable client_Get : Store -> Key -> value -> value + error.
Variable client_GetMulti : Store -> list Key -> list value + error.
Variable client_Put : Store -> Key -> value -> Store * option error.
Variable client_Delete : Store -> Key -> Store * option error.
Variable client_DeleteMulti : Store -> list Key -> Store * option error.
Variable client_Run : Store -> Query CursorT -> list (IterStep CursorT).
Variable client_RunInTransaction : Store -> TxFn -> Store * option error.

Definition GetByID (ctx : Context) (kind : string) (id dest : value)
    (db : Store) : value + error :=
  match client_of ctx with
  | Some err => inr err
  | None =>
      match id with
      | VString v => client_Get db (NameKey kind v None) dest
      | VInt W64 v => client_Get db (IDKey kind v None) dest
      | _ => inr (fmt_Errorf "invalid ID type: %T" [id])
      end
  end.

(** The key loop of [GetMulti] and of [DeleteMulti] (the same text in
    both), from index [i] on: no case for a nil identifier. *)
Fixpoint keys_of_ids (kind : string) (i : Z) (ids : list value)
  : list Key + error :=
  match ids with
  | [] => inl []
  | id :: ids' =>
      let key :=
        match id with
        | VString v => inl (NameKey kind v None)
        | VInt W64 v => inl (IDKey kind v None)
        | _ => inr (fmt_Errorf "invalid ID type at index %d: %T"
                      [VInt Wnative i; id])
        end in
      match key with
      | inr err => inr err
      | inl key =>
          match keys_of_ids kind (i + 1) ids' with
          | inl keys => inl (key :: keys)
          | inr err => inr err
          end
      end
  end.

Definition GetMulti (ctx : Context) (kind : string) (ids : list value)
    (db : Store) : list value + error :=
  match client_of ctx with
  | Some err => inr err
  | None =>
      match keys_of_ids kind 0 ids with
      | inr err => inr err
      | inl keys => client_GetMulti db keys
      end
  end.

Definition Create (ctx : Context) (kind : string) (id entity : value)
    (db : Store) : Store * option error :=
  match client_of ctx with
  | Some err => (db, Some err)
  | None =>
      match id with
      | VString v => client_Put db (NameKey kind v None) entity
      | VInt W64 v => client_Put db (IDKey kind v None) entity
      | Nil =>
          (* Auto-generate ID *)
          client_Put db (IncompleteKey kind None) entity
      | _ => (db, Some (fmt_Errorf "invalid ID type: %T" [id]))
      end
  end.

(** Put works for both create and update. *)
Definition Update (ctx : Context) (kind : string) (id entity : value)
    (db : Store) : Store * option error :=
  Create ctx kind id entity db.

Definition UpdateMulti (ctx : Context) (kind : string) (ids : list value)
    (entities : value) (db : Store) : Store * option error :=
  CreateMulti PutMulti ctx kind ids entities db.

Definition Delete (ctx : Context) (kind : string) (id : value) (db : Store)
  : Store * option error :=
  match client_of ctx with
  | Some err => (db, Some err)
  | None =>
      match id with
      | VString v => client_Delete db (NameKey kind v None)
      | VInt W64 v => client_Delete db (IDKey kind v None)
      | _ => (db, Some (fmt_Errorf "invalid ID type: %T" [id]))
      end
  end.

Definition DeleteMulti (ctx : Context) (kind : string) (ids : list value)
    (db : Store) : Store * option error :=
  match client_of ctx with
  | Some err => (db, Some err)
  | None =>
      match keys_of_ids kind 0 ids with
      | inr err => (db, Some err)
      | inl keys => client_DeleteMulti db keys
      end
  end.

(** [Exists] reads into [&entity], a pointer to its own nil
    [map[string]any]. *)
Definition Exists (ctx : Context) (kind : string) (id : value) (db : Store)
  : bool * option error :=
  let entity := VMap None in
  match GetByID ctx kind id (VPtr (Some entity)) db with
  | inr err =>
      if is_ErrNoSuchEntity err then (false, None) else (false, Some err)
  | inl _ => (true, None)
  end.

Definition Count (ctx : Context) (kind : string) (filters : list FilterParam)
    (db : Store) : M (Z * option error) :=
  match client_of ctx with
  | Some err => ret (0, Some err)
  | None =>
      do b <- builder.New;
      do b <- builder.Kind b kind;
      do _ <- add_filters b filters;
      builder.Count DecodeCursor GetAll b db
  end.

Definition FindAll (ctx : Context) (kind : string) (db : Store) : option error :=
  match client_of ctx with
  | Some err => Some err
  | None =>
      let query := datastore.NewQuery kind in
      snd (GetAll db query)
  end.

Definition FindWhere (ctx : Context) (kind : string)
    (filters : list (string * value)) (db : Store) : M (option error) :=
  match client_of ctx with
  | Some err => ret (Some err)
  | None =>
      do b <- builder.New;
      do b <- builder.Kind b kind;
      let fb := filter.FromMap filter.NewFilter filters in
      do _ <- add_filters b (filter.Build fb);
      do r <- builder.Execute DecodeCursor GetAll b db;
      ret (snd r)
  end.

Definition FindOne (ctx : Context) (kind : string)
    (filters : list (string * value)) (db : Store) : M (option error) :=
  match client_of ctx with
  | Some err => ret (Some err)
  | None =>
      do b <- builder.New;
      do b <- builder.Kind b kind;
      do b <- builder.Limit b 1;
      let fb := filter.FromMap filter.NewFilter filters in
      do _ <- add_filters b (filter.Build fb);
      do query <- builder.Build DecodeCursor b;
      let it := client_Run db query in
      match it with
      | [] => ret (Some iterator_Done)
      | NextErr err :: _ => ret (Some err)
      | NextOK _ :: _ => ret None
      end
  end.

Definition Transaction (ctx : Context) (fn : TxFn) (db : Store)
  : Store * option error :=
  match client_of ctx with
  | Some err => (db, Some err)
  | None => client_RunInTransaction db fn
  end.

(** [BulkDelete]: the store after the call, and the returned pair. *)
Definition BulkDelete (ctx : Context) (kind : string)
    (filters : list (string * value)) (db : Store)
  : M (Store * (Z * option error)) :=
  match client_of ctx with
  | Some err => ret (db, (0, Some err))
  | None =>
      do b <- builder.New;
      do b <- builder.Kind b kind;
      do b <- builder.KeysOnly b;
      let fb := filter.FromMap filter.NewFilter filters in
      do _ <- add_filters b (filter.Build fb);
      do query <- builder.Build DecodeCursor b;
      let '(keys, err) := GetAll db query in
      match err with
      | Some err => ret (db, (0, Some err))
      | None =>
          if Z.of_nat (length keys) =? 0 then ret (db, (0, None))
          else
            match client_DeleteMulti db keys with
            | (db', Some err) => ret (db', (0, Some err))
            | (db', None) => ret (db', (Z.of_nat (length keys), None))
            end
      end
  end.

End Operations.
End exec.

(** ** Package [repository] (repository.go) *)

Module repository.

(** A repository holds the handle to its store and the kind it serves. *)
Record BaseRepository (Store : Type) : Type := {
  client : Store;
  kind : string;
}.
Arguments client {Store}.
Arguments kind {Store}.

(** The body of the [range] loop of [applyMapParams], for one entry. *)
Definition applyMapParams_entry (b : loc) (entry : string * value) : M unit :=
  let '(key, v) := entry in
  if String.eqb key "limit" then
    match as_int v with
    | Some v => do _ <- builder.Limit b v; ret tt
    | None => ret tt
    end
  else if String.eqb key "offset" then
    match as_int v with
    | Some v => do _ <- builder.Offset b v; ret tt
    | None => ret tt
    end
  else if String.eqb key "cursor" then
    match as_string v with
    | Some v => do _ <- builder.Cursor b v; ret tt
    | None => ret tt
    end
  else if String.eqb key "order_by" then
    match as_string v with
    | Some v => do _ <- builder.OrderAsc b v; ret tt
    | None => ret tt
    end
  else
    (* Treat as filter *)
    do _ <- builder.Where b key v; ret tt.

(** [applyMapParams]; [params] lists the entries in the order of the
    [range] loop. *)
Fixpoint applyMapParams (b : loc) (params : list (string * value)) : M unit :=
  match params with
  | [] => ret tt
  | entry :: params' =>
      do _ <- applyMapParams_entry b entry;
      applyMapParams b params'
  end.

Definition applyStructParams (ToLower : string -> string) (b : loc)
    (params : value) : M unit :=
  match filter.FromStruct ToLower filter.NewFilter params with
  | Some fb => exec.add_filters b (filter.Build fb)
  | None => fun _ => None
  end.

(** The inputs [Query] and [QueryTyped] tell apart by their dynamic type;
    [applyQueryParams] serves the first; any other value goes to the
    record form. *)
Inductive QueryInput : Type :=
  | InQueryParams (p : QueryParams)
  | InMap (m : list (string * value))
  | InOther (v : value).

Definition applyQueryParams (b : loc) (p : QueryParams) : M unit :=
  do _ <- exec.add_filters b (Filters p);
  do _ <- (fix orders (os : list OrderParam) : M unit :=
             match os with
             | [] => ret tt
             | o :: os' =>
                 do _ <- builder.Order b (OField o) (Direction o); orders os'
             end) (Orders p);
  do _ <- (if Limit p >? 0 then do _ <- builder.Limit b (Limit p); ret tt
           else ret tt);
  do _ <- (if Offset p >? 0 then do _ <- builder.Offset b (Offset p); ret tt
           else ret tt);
  do _ <- (if negb (String.eqb (Cursor p) "")
           then do _ <- builder.Cursor b (Cursor p); ret tt else ret tt);
  do _ <- (if Z.of_nat (length (Select p)) >? 0
           then do _ <- builder.Select b (Select p); ret tt else ret tt);
  do _ <- (if Distinct p then do _ <- builder.Distinct b; ret tt else ret tt);
  do _ <- (if KeysOnly p then do _ <- builder.KeysOnly b; ret tt else ret tt);
  match Ancestor p with
  | Some a => do _ <- builder.Ancestor b (AKind a) (ID a); ret tt
  | None => ret tt
  end.

Section Client.

Context {CursorT Store : Type}.
Variable DecodeCursor : string -> CursorT + error.
Variable GetAll : Store -> Query CursorT -> list Key * option error.
Variable ToLower : string -> string.

Definition QueryTyped (r : BaseRepository Store) (params : QueryInput)
  : M (option PaginationResult * option error) :=
  do b <- builder.New;
  do b <- builder.Kind b (kind r);
  (* Parse params *)
  do _ <- match params with
          | InQueryParams p => applyQueryParams b p
          | InMap p => applyMapParams b p
          | InOther p => applyStructParams ToLower b p
          end;
  builder.Execute DecodeCursor GetAll b (client r).

(** The inputs [Count] tells apart by their dynamic type. *)
Inductive CountInput : Type :=
  | CountMap (f : list (string * value))
  | CountFilters (f : list FilterParam)
  | CountOther (f : value).

Definition Count (r : BaseRepository Store) (filters : CountInput)
  : M (Z * option error) :=
  do b <- builder.New;
  do b <- builder.Kind b (kind r);
  do _ <- match filters with
          | CountMap f =>
              let fb := filter.FromMap filter.NewFilter f in
              exec.add_filters b (filter.Build fb)
          | CountFilters f => exec.add_filters b f
          | CountOther f =>
              match filter.FromStruct ToLower filter.NewFilter f with
              | Some fb => exec.add_filters b (filter.Build fb)
              | None => fun _ => None
              end
          end;
  builder.Count DecodeCursor GetAll b (client r).

End Client.
End repository.

(** ** Package [helper] (the duplicate of [exec] that holds its client) *)

Module helper.
Section Client.

Context {CursorT Store : Type}.
Variable DecodeCursor : string -> CursorT + error.
Variable GetAll : Store -> Query CursorT -> list Key * option error.
Variable PutMulti : Store -> list Key -> value -> Store * option error.
Variable client_DeleteMulti : Store -> list Key -> Store * option error.

Definition CreateMulti (kind : string) (ids : list value) (entities : value)
    (db : Store) : Store * option error :=
  match Kind_of entities with
  | reflect.Slice =>
      match exec.CreateMulti_keys kind 0 ids with
      | inr err => (db, Some err)
      | inl keys => PutMulti db keys entities
      end
  | _ => (db, Some (fmt_Errorf "entities must be a slice" []))
  end.

Definition Paginate (kind : string) (filters : list (string * value))
    (page pageSize : Z) (db : Store)
  : M (option PaginationResult * option error) :=
  let offset := GoInt.mul (GoInt.sub page 1) pageSize in
  do b <- builder.New;
  do b <- builder.Kind b kind;
  do b <- builder.Limit b pageSize;
  do b <- builder.Offset b offset;
  let fb := filter.FromMap filter.NewFilter filters in
  do _ <- exec.add_filters b (filter.Build fb);
  builder.Execute DecodeCursor GetAll b db.

Fixpoint BulkCreate_loop (fuel : nat) (kind : string) (v : value)
    (batchSize total i : Z) (db : Store) : Store * outcome (option error) :=
  match fuel with
  | O => (db, OutOfFuel)
  | S fuel' =>
      if i <? total then
        let end_ := GoInt.add i batchSize in
        let end_ := if end_ >? total then total else end_ in
        match Slice v i end_ with
        | None => (db, Panics)
        | Some batch =>
            (* Auto-generate IDs *)
            let ids := repeat Nil (Z.to_nat (GoInt.sub end_ i)) in
            match CreateMulti kind ids batch db with
            | (db', Some err) => (db', Returns (Some err))
            | (db', None) =>
                BulkCreate_loop fuel' kind v batchSize total
                  (GoInt.add i batchSize) db'
            end
        end
      else (db, Returns None)
  end.

Definition BulkCreate (fuel : nat) (kind : string) (entities : value)
    (batchSize : Z) (db : Store) : Store * outcome (option error) :=
  let v := entities in
  match Kind_of v with
  | reflect.Slice =>
      let total := Len v in
      BulkCreate_loop fuel kind v batchSize total 0 db
  | _ => (db, Returns (Some (fmt_Errorf "entities must be a slice" [])))
  end.

Definition BulkDelete (kind : string) (filters : list (string * value))
    (db : Store) : M (Store * (Z * option error)) :=
  do b <- builder.New;
  do b <- builder.Kind b kind;
  do b <- builder.KeysOnly b;
  let fb := filter.FromMap filter.NewFilter filters in
  do _ <- exec.add_filters b (filter.Build fb);
  do query <- builder.Build DecodeCursor b;
  let '(keys, err) := GetAll db query in
  match err with
  | Some err => ret (db, (0, Some err))
  | None =>
      if Z.of_nat (length keys) =? 0 then ret (db, (0, None))
      else
        match client_DeleteMulti db keys with
        | (db', Some err) => ret (db', (0, Some err))
        | (db', None) => ret (db', (Z.of_nat (length keys), None))
        end
  end.

End Client.
End helper.

(** ** Package [testutil]: the mock client (testutil/mock.go) *)

Module testutil.

(** [fmt.Sprintf("%d", n)] *)
Definition Sprintf_d (n : Z) : string :=
  DecimalString.NilEmpty.string_of_int (Z.to_int n).

(** The mock keeps [kind -> id -> entity]. Its mutex lets one call in at a
    time; the calls are modelled one after the other. *)
Record MockDatastoreClient : Type := {
  entities : gmap string (gmap string value);
}.

Definition NewMockClient : MockDatastoreClient := {| entities := ∅ |}.

(** The id under which the mock files a key: [key.Name], and the decimal
    of [key.ID] when the name is empty. *)
Definition id_of (key : Key) : string :=
  let id := Key_Name key in
  if String.eqb id "" then Sprintf_d (Key_ID key) else id.

Definition Put (m : MockDatastoreClient) (key : Key) (entity : value)
  : MockDatastoreClient * option error :=
  let kind := Key_Kind key in
  let id := id_of key in
  let ents :=
    match entities m !! kind with
    | None => <[kind := ∅]> (entities m)
    | Some _ => entities m
    end in
  ({| entities := <[kind := <[id := entity]> (default ∅ (ents !! kind))]> ents |},
   None).

(** [Get] into a [*map[string]interface{}]: the map it stores there, or the
    error; [None] is the panic of the type assertion on a stored entity
    that is not a map. A stored map value stands for a
    [map[string]interface{}], the one map type the assertion accepts. *)
Definition Get (m : MockDatastoreClient) (key : Key) : option (value + error) :=
  let kind := Key_Kind key in
  let id := id_of key in
  match entities m !! kind with
  | None => Some (inr ErrNoSuchEntity)
  | Some kindEntities =>
      match kindEntities !! id with
      | None => Some (inr ErrNoSuchEntity)
      | Some stored =>
          match stored with
          | VMap _ => Some (inl stored)
          | _ => None
          end
      end
  end.

Definition Delete (m : MockDatastoreClient) (key : Key)
  : MockDatastoreClient * option error :=
  let kind := Key_Kind key in
  let id := id_of key in
  match entities m !! kind with
  | Some kindEntities =>
      ({| entities := <[kind := delete id kindEntities]> (entities m) |}, None)
  | None => (m, None)
  end.

Definition Clear (m : MockDatastoreClient) : MockDatastoreClient :=
  {| entities := ∅ |}.

Definition Count (m : MockDatastoreClient) (kind : string) : Z :=
  match entities m !! kind with
  | None => 0
  | Some kindEntities => Z.of_nat (size kindEntities)
  end.

End testutil.

(** ** Vocabulary of the specification *)

Module spec.

(** The filter conditions one call of a chain contributes. *)
Definition filters_of_call (c : builder.call) : list FilterParam :=
  match c with
  | builder.CallFilter f o v => [{| Field := f; Operator := o; Value := v |}]
  | builder.CallWhere f v => [{| Field := f; Operator := Equal; Value := v |}]
  | builder.CallWhereIn f vs =>
      List.map (fun v => {| Field := f; Operator := Equal; Value := v |}) vs
  | builder.CallWhereLike f v =>
      [{| Field := f; Operator := GreaterThanOrEqual; Value := VString v |}]
  | _ => []
  end.

(** The order conditions one call contributes. *)
Definition orders_of_call (c : builder.call) : list OrderParam :=
  match c with
  | builder.CallOrder f d => [{| OField := f; Direction := d |}]
  | builder.CallOrderAsc f => [{| OField := f; Direction := Ascending |}]
  | builder.CallOrderDesc f => [{| OField := f; Direction := Descending |}]
  | _ => []
  end.

Definition limit_of_call (c : builder.call) : option Z :=
  match c with builder.CallLimit n => Some n | _ => None end.

Definition offset_of_call (c : builder.call) : option Z :=
  match c with builder.CallOffset n => Some n | _ => None end.

Definition cursor_of_call (c : builder.call) : option string :=
  match c with builder.CallCursor s => Some s | _ => None end.

Definition select_of_call (c : builder.call) : option (list string) :=
  match c with builder.CallSelect fs => Some fs | _ => None end.

Definition ancestor_of_call (c : builder.call) : option (option AncestorParam) :=
  match c with
  | builder.CallAncestor k id => Some (Some {| AKind := k; ID := id |})
  | _ => None
  end.

(** Last write wins: the argument of the last call that sets the parameter,
    and the value from before the chain when there is no such call. *)
Definition last_write {A : Type} (arg : builder.call -> option A)
    (cs : list builder.call) (before : A) : A :=
  default before (last (omap arg cs)).

(** The store's reading of a query's filter list: a conjunction, in the
    order the filters were applied. [satisfies] is the store's test of one
    filter on one entity. *)
Definition matches {CursorT Entity : Type}
    (satisfies : Entity -> string * value -> bool)
    (e : Entity) (q : Query CursorT) : bool :=
  forallb (satisfies e) (q_filter q).

(** *** The map form of the filter normaliser *)

(** [sub] occurs in [s]. *)
Definition occurs (s sub : string) : Prop :=
  exists pre post, s = (pre ++ sub ++ post)%string.

(** The substring of [key] before the first occurrence of [tok]. *)
Definition before (key tok : string) : string :=
  match strings.index key tok with
  | Some i => strings.take i key
  | None => key
  end.

(** The operator tokens, in the order in which they are checked. *)
Definition tokens : list (string * FilterOperator) :=
  [(">=", GreaterThanOrEqual); ("<=", LessThanOrEqual); (">", GreaterThan);
   ("<", LessThan); ("!=", NotEqual)]%string.

(** The first token of [tokens] that the key contains. *)
Definition detect (key : string) : option (string * FilterOperator) :=
  List.find (fun t => strings.Contains key (fst t)) tokens.

(** The condition one entry of the map stands for. *)
Definition condition_of (key : string) (v : value) : FilterParam :=
  match detect key with
  | Some (tok, op) =>
      {| Field := strings.TrimSpace (before key tok); Operator := op; Value := v |}
  | None => {| Field := key; Operator := Equal; Value := v |}
  end.

(** *** Surrounding white space *)

(** The UTF-8 encodings of the white-space runes of [unicode.IsSpace]:
    U+0009 to U+000D, U+0020, U+0085, U+00A0, U+1680, U+2000 to U+200A,
    U+2028, U+2029, U+202F, U+205F and U+3000. *)
Definition space_runes : list (list ascii) :=
  List.map (List.map strings.byte)
    [[9]; [10]; [11]; [12]; [13]; [32]; [194; 133]; [194; 160];
     [225; 154; 128];
     [226; 128; 128]; [226; 128; 129]; [226; 128; 130]; [226; 128; 131];
     [226; 128; 132]; [226; 128; 133]; [226; 128; 134]; [226; 128; 135];
     [226; 128; 136]; [226; 128; 137]; [226; 128; 138];
     [226; 128; 168]; [226; 128; 169]; [226; 128; 175]; [226; 129; 159];
     [227; 128; 128]]%nat.

(** [bs] begins with the bytes [p]. *)
Fixpoint starts (p bs : list ascii) : bool :=
  match p, bs with
  | [], _ => true
  | a :: p', b :: bs' => Ascii.eqb a b && starts p' bs'
  | _ :: _, [] => false
  end.

Definition starts_with_space (bs : list ascii) : bool :=
  existsb (fun rune => starts rune bs) space_runes.

Definition ends_with_space (bs : list ascii) : bool :=
  existsb (fun rune => starts (rev rune) (rev bs)) space_runes.

(** [bs] is white space only: some white-space runes, one after the
    other. *)
Definition white (bs : list ascii) : Prop :=
  exists runes, Forall (fun rune => In rune space_runes) runes
                /\ bs = concat runes.

(** [t] is [s] without its surrounding white space: what was taken off on
    either side is white space only, and what is left neither begins nor
    ends with a white-space rune. *)
Definition trimmed (s t : string) : Prop :=
  exists l r,
    list_ascii_of_string s = l ++ list_ascii_of_string t ++ r
    /\ white l /\ white r
    /\ starts_with_space (list_ascii_of_string t) = false
    /\ ends_with_space (list_ascii_of_string t) = false.

(** *** The record form of the filter normaliser *)

(** The values the record form skips. *)
Definition skipped (x : value) : bool :=
  match x with
  | VString s => String.eqb s ""
  | VArray l | VSlice (Some l) => match l with [] => true | _ => false end
  | VMap (Some l) => match l with [] => true | _ => false end
  | VSlice None | VMap None => true
  | VBool b => negb b
  | VInt _ n | VUint _ n => n =? 0
  | VFloat32 bits => Z.land bits (2 ^ 31 - 1) =? 0        (* +0 and -0 *)
  | VFloat64 bits => Z.land bits (2 ^ 63 - 1) =? 0
  | VPtr None | VIface None => true
  | VTime sec nsec => (sec =? 0) && (nsec =? 0)
  | _ => false
  end.



(** The value an emitted condition carries: the field's value, and for a
    field of interface type the value the interface holds. *)
Definition carried (x : value) : value :=
  match x with
  | VIface (Some y) => y
  | VIface None => Nil
  | _ => x
  end.


(** *** The map form of the repository's queries *)

Definition reserved (key : string) : bool :=
  String.eqb key "limit" || String.eqb key "offset"
  || String.eqb key "cursor" || String.eqb key "order_by".

(** What one entry of the map sets: the limit, the offset, the cursor, an
    ascending order, or an equality filter on the key. *)
Definition entry_limit (e : string * value) : option Z :=
  if String.eqb (fst e) "limit" then as_int (snd e) else None.

Definition entry_offset (e : string * value) : option Z :=
  if String.eqb (fst e) "offset" then as_int (snd e) else None.

Definition entry_cursor (e : string * value) : option string :=
  if String.eqb (fst e) "cursor" then as_string (snd e) else None.

Definition entry_order (e : string * value) : option OrderParam :=
  if String.eqb (fst e) "order_by"
  then match as_string (snd e) with
       | Some field => Some {| OField := field; Direction := Ascending |}
       | None => None
       end
  else None.

Definition entry_filter (e : string * value) : option FilterParam :=
  if reserved (fst e) then None
  else Some {| Field := fst e; Operator := Equal; Value := snd e |}.

(** The parameters after the entries [m], visited in this order. *)
Definition params_after_map (m : list (string * value)) (p : QueryParams)
  : QueryParams :=
  set_Filters (Filters p ++ omap entry_filter m)
    (set_Orders (Orders p ++ omap entry_order m)
       (set_Limit (default (Limit p) (last (omap entry_limit m)))
          (set_Offset (default (Offset p) (last (omap entry_offset m)))
             (set_Cursor (default (Cursor p) (last (omap entry_cursor m))) p)))).

(** The parameters of a builder after an explicit [QueryParams] was applied
    to it: the lists are appended, and a scalar is taken over only when it
    is set. *)
Definition params_after_query (p q : QueryParams) : QueryParams :=
  let q := set_Filters (Filters q ++ Filters p) q in
  let q := set_Orders (Orders q ++ Orders p) q in
  let q := if Limit p >? 0 then set_Limit (Limit p) q else q in
  let q := if Offset p >? 0 then set_Offset (Offset p) q else q in
  let q := if negb (String.eqb (Cursor p) "") then set_Cursor (Cursor p) q
           else q in
  let q := if Z.of_nat (length (Select p)) >? 0 then set_Select (Select p) q
           else q in
  let q := if Distinct p then set_Distinct true q else q in
  let q := if KeysOnly p then set_KeysOnly true q else q in
  match Ancestor p with
  | Some a => set_Ancestor (Some {| AKind := AKind a; ID := ID a |}) q
  | None => q
  end.

(** Identifiers: a string or an int64 names a key; nil asks for a new one,
    where that is allowed. *)
Definition names_a_key (id : value) : bool :=
  match id with
  | VString _ | VInt W64 _ => true
  | _ => false
  end.

Definition key_of (kind : string) (id : value) : Key :=
  match id with
  | VString v => NameKey kind v None
  | VInt W64 v => IDKey kind v None
  | _ => IncompleteKey kind None
  end.

(** Identifiers a create accepts: those that name a key, and nil. *)
Definition creatable (id : value) : bool :=
  match id with
  | Nil => true
  | _ => names_a_key id
  end.

(** The builder that a map of filters stands for: the kind, one condition
    per entry of the map, and the limit and keys-only flag of the operation
    that reads the map. *)
Definition filters_builder (kindName : string) (fs : list FilterParam)
    (limit : Z) (keysOnly : bool) : Builder :=
  {| kind := kindName;
     params := {| Filters := fs;
                  Orders := []; Limit := limit; Offset := 0;
                  Cursor := EmptyString; Select := [];
                  Distinct := false; KeysOnly := keysOnly;
                  Ancestor := None; Transaction := false |} |}.

Definition map_builder (kindName : string) (m : list (string * value))
    (limit : Z) (keysOnly : bool) : Builder :=
  filters_builder kindName
    (List.map (fun e => condition_of (fst e) (snd e)) m) limit keysOnly.

(** What [Count] makes of the answer of [GetAll]. *)
Definition counted (answer : list Key * option error) : Z * option error :=
  match answer with
  | (_, Some err) => (0, Some err)
  | (keys, None) => (Z.of_nat (length keys), None)
  end.

(** The mock's slot of a key: its kind and the id the mock files it
    under; and the entity a slot holds. *)
Definition same_slot (key key' : Key) : bool :=
  String.eqb (Key_Kind key) (Key_Kind key')
  && String.eqb (testutil.id_of key) (testutil.id_of key').

Definition stored (m : testutil.MockDatastoreClient) (kindName id : string)
  : option value :=
  match testutil.entities m !! kindName with
  | Some kindEntities => kindEntities !! id
  | None => None
  end.

(** What [Get] makes of the entity in the slot it reads. *)
Definition loaded (slot : option value) : option (value + error) :=
  match slot with
  | None => Some (inr ErrNoSuchEntity)
  | Some (VMap entries) => Some (inl (VMap entries))
  | Some _ => None
  end.

(** The six operators a condition may carry. *)
Definition six_operators : list FilterOperator :=
  [Equal; LessThan; LessThanOrEqual; GreaterThan; GreaterThanOrEqual; NotEqual].

(** *** Batches *)

(** The contiguous batches of [size] elements of [l], in order; the last
    one holds what is left. *)
Fixpoint chunks_upto {A : Type} (rounds size : nat) (l : list A) : list (list A) :=
  match rounds, l with
  | S rounds', _ :: _ => firstn size l :: chunks_upto rounds' size (skipn size l)
  | _, _ => []
  end.

Definition chunks {A : Type} (size : nat) (l : list A) : list (list A) :=
  chunks_upto (length l) size l.

(** One call per batch, in order, stopping at the first call that fails:
    the store is then as that call left it, and its error is the result. *)
Fixpoint run_batches {Store A : Type}
    (create : A -> Store -> Store * option error)
    (batches : list A) (db : Store) : Store * option error :=
  match batches with
  | [] => (db, None)
  | batch :: batches' =>
      match create batch db with
      | (db', Some err) => (db', Some err)
      | (db', None) => run_batches create batches' db'
      end
  end.

End spec.

(** ** Fixtures of the examples *)

Module fixtures.
Local Open Scope string_scope.
Local Open Scope list_scope.
Local Open Scope Z_scope.

(** [New().Kind("users")] *)
Definition users_builder : Builder :=
  {| kind := "users";
     params := {| Filters := []; Orders := []; Limit := 0; Offset := 0;
                  Cursor := ""; Select := []; Distinct := false;
                  KeysOnly := false; Ancestor := None;
                  Transaction := false |} |}.

(** A store that is a list of keys; [GetAll] returns the first [q_limit]
    of them (all of them when the query has no limit). *)
Definition list_GetAll (store : list Key) (q : Query unit)
  : list Key * option error :=
  (if q_limit q <? 0 then store else firstn (Z.to_nat (q_limit q)) store, None).

Definition no_cursor (s : string) : unit + error :=
  inr (errors_New "invalid cursor").

(** The lazy run over the same store: one step per key that [list_GetAll]
    returns, each with the one cursor there is. *)
Definition list_Run (store : list Key) (q : Query unit) : list (IterStep unit) :=
  List.map (fun _ => NextOK (inl tt)) (fst (list_GetAll store q)).

Definition unit_cursor_string (c : unit) : string := "cursor-token".

Definition five_keys : list Key :=
  List.map (fun i => IDKey "users" i None) [1; 2; 3; 4; 5].

(** [strings.ToLower] on ASCII names. *)
Definition lower_byte (c : ascii) : ascii :=
  let n := nat_of_ascii c in
  if ((65 <=? n) && (n <=? 90))%nat then ascii_of_nat (n + 32) else c.

Fixpoint ascii_ToLower (s : string) : string :=
  match s with
  | EmptyString => EmptyString
  | String c s' => String (lower_byte c) (ascii_ToLower s')
  end.

Definition exported (name : string) (tag : list (string * string)) : StructField :=
  {| Name := name; PkgPath := ""; Tag := tag |}.

(** [testutil.TestUser] (testutil/fixtures.go). *)
Definition TestUser (ID Email Name_ : string) (Age : Z) (Status : string)
    (CreatedAt : value) : value :=
  VStruct "testutil.TestUser"
    [(exported "ID" [("datastore", "-")], VString ID);
     (exported "Email" [("datastore", "email")], VString Email);
     (exported "Name" [("datastore", "name")], VString Name_);
     (exported "Age" [("datastore", "age")], VInt Wnative Age);
     (exported "Status" [("datastore", "status")], VString Status);
     (exported "CreatedAt" [("datastore", "created_at")], CreatedAt)].



(** A store that records the [PutMulti] calls it receives. *)
Definition log_PutMulti (db : list (list Key * value)) (keys : list Key)
    (entities : value) : list (list Key * value) * option error :=
  (db ++ [(keys, entities)], None).

(** The same store, whose second call fails and writes nothing. *)
Definition second_fails_PutMulti (db : list (list Key * value))
    (keys : list Key) (entities : value)
  : list (list Key * value) * option error :=
  if (length db =? 1)%nat then (db, Some (errors_New "deadline exceeded"))
  else (db ++ [(keys, entities)], None).

(** The rest of a client over the list of keys: two keys are the same
    entity when kind, name and id agree; an entity is loaded into a pointer
    to a struct, left as it is, and into nothing else, as the library has
    it; a multiple get answers with one empty entity per key; a put appends
    its key. *)
Definition same_key (k k' : Key) : bool :=
  String.eqb (Key_Kind k) (Key_Kind k')
  && String.eqb (Key_Name k) (Key_Name k')
  && (Key_ID k =? Key_ID k').

Definition list_Get (store : list Key) (k : Key) (dest : value)
  : value + error :=
  match dest with
  | Nil => inr ErrInvalidEntityType
  | _ =>
      if existsb (same_key k) store then
        match dest with
        | VPtr (Some (VStruct ty fields)) => inl (VStruct ty fields)
        | _ => inr ErrInvalidEntityType
        end
      else inr ErrNoSuchEntity
  end.

Definition list_GetMulti (store : list Key) (keys : list Key)
  : list value + error :=
  if forallb (fun k => existsb (same_key k) store) keys
  then inl (List.map (fun _ => VMap (Some [])) keys)
  else inr ErrNoSuchEntity.

Definition list_Put (store : list Key) (k : Key) (entity : value)
  : list Key * option error :=
  (store ++ [k], None).

Definition list_PutMulti (store : list Key) (keys : list Key)
    (entities : value) : list Key * option error :=
  (store ++ keys, None).

Definition list_Delete (store : list Key) (k : Key) : list Key * option error :=
  (List.filter (fun k' => negb (same_key k k')) store, None).

Definition list_DeleteMulti (store : list Key) (keys : list Key)
  : list Key * option error :=
  (List.filter (fun k' => negb (existsb (fun k => same_key k k') keys)) store,
   None).

Definition list_RunInTransaction (store : list Key)
    (fn : list Key -> list Key * option error) : list Key * option error :=
  fn store.

(** The map of the usage example of the repository (examples/main.go,
    "Query with map"), in one of the orders [range] may visit it. *)
Definition example_params : list (string * value) :=
  [("status", VString "active"); ("age>=", VInt Wnative 18);
   ("limit", VInt Wnative 10); ("order_by", VString "created_at")].

(** A repository of users over a store of five keys. *)
Definition users_repository : repository.BaseRepository (list Key) :=
  {| repository.client := five_keys; repository.kind := "users" |}.

Definition five_users : list value :=
  List.map (fun i => VStruct "User" [(exported "Age" [], VInt Wnative i)])
           [1; 2; 3; 4; 5].

End fixtures.

(** * Properties *)

Module GoIntFacts.
Import GoInt.

Lemma wrap_in_range z : in_range (wrap z).
Proof.
  unfold in_range, wrap, min_int, max_int.
  pose proof (Z.mod_pos_bound (z + 2 ^ 63) (2 ^ 64) ltac:(lia)). lia.
Qed.

Lemma wrap_id z : in_range z -> wrap z = z.
Proof.
  unfold in_range, wrap, min_int, max_int. intros H.
  rewrite Z.mod_small by lia. lia.
Qed.

End GoIntFacts.

Module stringsFacts.
Import strings.
Local Open Scope string_scope.

Example TrimSpace_plain : TrimSpace "age" = "age".
Proof. reflexivity. Qed.

Example TrimSpace_both : TrimSpace "  created_at	 " = "created_at".
Proof. reflexivity. Qed.

(** No-break space (C2 A0) before and em space (E2 80 83) after. *)
Example TrimSpace_unicode :
  TrimSpace (String (byte 194) (String (byte 160)
               ("age" ++ String (byte 226) (String (byte 128)
                           (String (byte 131) "")))))
  = "age".
Proof. reflexivity. Qed.

Example Split_first : Split "age>= " ">=" = ["age"; " "].
Proof. reflexivity. Qed.

Example Split_twice : Split "a,b,,c" "," = ["a"; "b"; ""; "c"].
Proof. reflexivity. Qed.

Lemma append_String c s t : String c s ++ t = String c (s ++ t).
Proof. reflexivity. Qed.

Lemma append_empty t : "" ++ t = t.
Proof. reflexivity. Qed.

Lemma HasPrefix_true p : forall s,
  HasPrefix s p = true <-> exists r, s = p ++ r.
Proof.
  induction p as [|a p IH]; intros s; cbn.
  - split; [eauto|done].
  - destruct s as [|b s].
    + split; [done|]. intros [r Hr]. discriminate.
    + destruct (Ascii.eqb_spec a b) as [->|Hne].
      * rewrite IH.
        split; intros [r Hr]; exists r; rewrite append_String in *; congruence.
      * split; [done|]. intros [r Hr]. rewrite append_String in Hr. congruence.
Qed.

Lemma take_empty i : take i "" = "".
Proof. by destruct i. Qed.

(** [index] finds an occurrence, and the first one. *)
Lemma index_Some sub : forall s i,
  index s sub = Some i ->
  (exists post, s = take i s ++ sub ++ post)
  /\ String.length (take i s) = i
  /\ forall pre post, s = pre ++ sub ++ post -> (i <= String.length pre)%nat.
Proof.
  induction s as [|c s IH]; intros i; cbn.
  - destruct (HasPrefix "" sub) eqn:Hp; [|discriminate].
    intros [= <-]. apply HasPrefix_true in Hp as [r Hr].
    split; [by exists r|]. split; [done|]. intros; lia.
  - destruct (HasPrefix (String c s) sub) eqn:Hp.
    + intros [= <-]. apply HasPrefix_true in Hp as [r Hr].
      split; [by exists r|]. split; [done|]. intros; lia.
    + destruct (index s sub) as [i'|] eqn:Hi; [|discriminate].
      intros [= <-]. destruct (IH i' eq_refl) as ([post Hpost] & Hlen & Hmin).
      split; [exists post; cbn; rewrite append_String; congruence|].
      split; [cbn; congruence|].
      intros [|c' pre] post' Heq.
      * assert (HasPrefix (String c s) sub = true)
          by (apply HasPrefix_true; by exists post').
        congruence.
      * rewrite append_String in Heq. injection Heq as -> Heq. cbn.
        apply Hmin in Heq. lia.
Qed.

Lemma index_None sub : forall s,
  index s sub = None -> forall pre post, s <> pre ++ sub ++ post.
Proof.
  induction s as [|c s IH]; cbn.
  - destruct (HasPrefix "" sub) eqn:Hp; [discriminate|]. intros _ pre post Heq.
    destruct pre; [|discriminate].
    assert (HasPrefix "" sub = true) by (apply HasPrefix_true; by exists post).
    congruence.
  - destruct (HasPrefix (String c s) sub) eqn:Hp; [discriminate|].
    destruct (index s sub) eqn:Hi; [discriminate|]. intros _ [|c' pre] post Heq.
    + assert (HasPrefix (String c s) sub = true)
        by (apply HasPrefix_true; by exists post).
      congruence.
    + rewrite append_String in Heq. injection Heq as -> Heq. by eapply IH.
Qed.

Lemma Contains_index s sub :
  Contains s sub = true <-> exists i, index s sub = Some i.
Proof.
  unfold Contains, Index. destruct (index s sub) as [i|].
  - split; [eauto|]. intros _. apply Z.leb_le. lia.
  - split; [done|]. intros [i Hi]. discriminate.
Qed.

(** [Split] never returns an empty slice, and its first element is the part
    of [s] before the first occurrence of the separator. *)
Lemma Split_head s sep :
  exists rest,
    Split s sep = match index s sep with
                  | Some i => take i s
                  | None => s
                  end :: rest.
Proof.
  unfold Split. destruct s as [|c s]; cbn [String.length split_rounds].
  - destruct (index "" sep); [rewrite take_empty|]; by exists [].
  - destruct (index (String c s) sep); eauto.
Qed.

End stringsFacts.

(** ** The query builder *)

Module builderFacts.
Import spec.
Local Open Scope string_scope.
Local Open Scope list_scope.
Local Open Scope Z_scope.

Lemma update_ok (h : heap) b this f :
  h !! b = Some this -> update b f h = Some (tt, <[b := f this]> h).
Proof. intros H. unfold update. by rewrite H. Qed.

Lemma load_ok (h : heap) b this :
  h !! b = Some this -> load b h = Some (this, h).
Proof. intros H. unfold load. by rewrite H. Qed.

(** A method that assigns through the receiver and returns it. *)
Lemma assign_ret_ok (h : heap) b this f :
  h !! b = Some this ->
  (do _ <- update b f; ret b) h = Some (b, <[b := f this]> h).
Proof. intros H. unfold bind. by rewrite (update_ok _ _ _ _ H). Qed.

Lemma Filter_ok (h : heap) b this field op v :
  h !! b = Some this ->
  builder.Filter b field op v h =
    Some (b, <[b := on_params (fun p =>
                set_Filters (Filters p ++
                  [{| Field := field; Operator := op; Value := v |}]) p) this]> h).
Proof. apply assign_ret_ok. Qed.

Lemma on_params_Filters_nil this :
  on_params (fun p => set_Filters (Filters p ++ []) p) this = this.
Proof.
  destruct this as [k []]. unfold on_params, set_Filters; cbn.
  by rewrite app_nil_r.
Qed.

Lemma WhereIn_range_ok field values : forall (h : heap) b this,
  h !! b = Some this ->
  builder.WhereIn_range b field values h =
    Some (tt, <[b := on_params (fun p =>
                set_Filters (Filters p ++
                  List.map (fun v => {| Field := field; Operator := Equal;
                                        Value := v |}) values) p) this]> h).
Proof.
  induction values as [|v values IH]; intros h b this Hb; cbn.
  - rewrite on_params_Filters_nil. by rewrite insert_id.
  - unfold bind. rewrite (Filter_ok _ _ _ _ _ _ Hb).
    erewrite IH by apply lookup_insert_eq.
    rewrite insert_insert_eq. do 3 f_equal.
    destruct this as [k []]. unfold on_params, set_Filters; cbn.
    by rewrite <- app_assoc.
Qed.

Lemma WhereIn_ok (h : heap) b this field values :
  h !! b = Some this ->
  builder.WhereIn b field values h =
    Some (b, <[b := on_params (fun p =>
                set_Filters (Filters p ++
                  List.map (fun v => {| Field := field; Operator := Equal;
                                        Value := v |}) values) p) this]> h).
Proof.
  intros Hb. unfold builder.WhereIn, bind. by rewrite (WhereIn_range_ok _ _ _ _ _ Hb).
Qed.

(** One call: the receiver comes back, only its object changes, and the
    parameters change as the call says. *)
Lemma invoke_ok (h : heap) b this c :
  h !! b = Some this ->
  exists this',
    builder.invoke b c h = Some (b, <[b := this']> h)
    /\ Filters (params this') = Filters (params this) ++ filters_of_call c
    /\ Orders (params this') = Orders (params this) ++ orders_of_call c
    /\ Limit (params this') = default (Limit (params this)) (limit_of_call c)
    /\ Offset (params this') = default (Offset (params this)) (offset_of_call c)
    /\ Cursor (params this') = default (Cursor (params this)) (cursor_of_call c)
    /\ Ancestor (params this') =
         default (Ancestor (params this)) (ancestor_of_call c)
    /\ Select (params this') = default (Select (params this)) (select_of_call c).
Proof.
  intros Hb.
  destruct c; cbn [builder.invoke];
    (unfold builder.Kind, builder.Where, builder.WhereLike, builder.OrderAsc,
       builder.OrderDesc, builder.Order, builder.Limit, builder.Offset,
       builder.Cursor, builder.Select, builder.Distinct, builder.KeysOnly,
       builder.Ancestor;
         first [ rewrite (Filter_ok _ _ _ _ _ _ Hb)
               | rewrite (WhereIn_ok _ _ _ _ _ Hb)
               | rewrite (assign_ret_ok _ _ _ _ Hb) ];
         eexists; split; [reflexivity|];
         cbn; rewrite ?app_nil_r; repeat split; reflexivity).
Qed.

Lemma last_write_cons {A} (arg : builder.call -> option A) c cs before :
  last_write arg (c :: cs) before = last_write arg cs (default before (arg c)).
Proof.
  unfold last_write. cbn. destruct (arg c) as [x|]; cbn; [|done].
  rewrite last_cons. by destruct (last (omap arg cs)).
Qed.

Lemma chain_ok cs : forall (h : heap) b this,
  h !! b = Some this ->
  exists final,
    builder.chain b cs h = Some (b, <[b := final]> h)
    /\ Filters (params final) =
         Filters (params this) ++ flat_map filters_of_call cs
    /\ Orders (params final) =
         Orders (params this) ++ flat_map orders_of_call cs
    /\ Limit (params final) = last_write limit_of_call cs (Limit (params this))
    /\ Offset (params final) =
         last_write offset_of_call cs (Offset (params this))
    /\ Cursor (params final) =
         last_write cursor_of_call cs (Cursor (params this))
    /\ Ancestor (params final) =
         last_write ancestor_of_call cs (Ancestor (params this))
    /\ Select (params final) =
         last_write select_of_call cs (Select (params this)).
Proof.
  induction cs as [|c cs IH]; intros h b this Hb.
  - exists this. cbn. rewrite !app_nil_r, insert_id by done. by repeat split.
  - destruct (invoke_ok h b this c Hb)
      as (this1 & Hc & HF & HO & HL & HOf & HC & HA & HS).
    destruct (IH (<[b := this1]> h) b this1 (lookup_insert_eq _ _ _))
      as (final & Hcs & HF' & HO' & HL' & HOf' & HC' & HA' & HS').
    exists final. cbn [builder.chain]. unfold bind at 1. rewrite Hc, Hcs.
    rewrite insert_insert_eq, !last_write_cons.
    rewrite HF', HO', HL', HOf', HC', HA', HS', HF, HO, HL, HOf, HC, HA, HS.
    cbn [flat_map]. rewrite !app_assoc. by repeat split.
Qed.

(** C2, as amended. Whatever chain of mutating calls is made on a builder:
    every call returns the receiver itself and touches no other object;
    [Filter]/[Where]/[WhereIn]/[WhereLike] and [Order]/[OrderAsc]/[OrderDesc]
    append to the accumulated filters and orders, in call order; and
    [Limit], [Offset], [Cursor], [Ancestor] and also [Select] overwrite:
    the value of the last such call of the chain is the one that stays. *)
Theorem chain_appends_and_overwrites (h : heap) b this cs :
  h !! b = Some this ->
  exists final,
    builder.chain b cs h = Some (b, <[b := final]> h)
    /\ Filters (params final) =
         Filters (params this) ++ flat_map filters_of_call cs
    /\ Orders (params final) =
         Orders (params this) ++ flat_map orders_of_call cs
    /\ Limit (params final) = last_write limit_of_call cs (Limit (params this))
    /\ Offset (params final) =
         last_write offset_of_call cs (Offset (params this))
    /\ Cursor (params final) =
         last_write cursor_of_call cs (Cursor (params this))
    /\ Ancestor (params final) =
         last_write ancestor_of_call cs (Ancestor (params this))
    /\ Select (params final) =
         last_write select_of_call cs (Select (params this)).
Proof. apply chain_ok. Qed.

Lemma chain_appends_and_overwrites_witness :
  let h : heap := {[ 1%positive := fixtures.users_builder ]} in
  let cs := [builder.CallLimit 10; builder.CallWhere "status" (VString "active");
             builder.CallSelect ["name"]; builder.CallLimit 20;
             builder.CallOrderDesc "created_at"; builder.CallSelect ["email"]] in
  h !! 1%positive = Some fixtures.users_builder
  /\ exists final,
       builder.chain 1%positive cs h = Some (1%positive, <[1%positive := final]> h)
       /\ Filters (params final) =
            Filters (params fixtures.users_builder) ++ flat_map filters_of_call cs
       /\ Orders (params final) =
            Orders (params fixtures.users_builder) ++ flat_map orders_of_call cs
       /\ Limit (params final) =
            last_write limit_of_call cs (Limit (params fixtures.users_builder))
       /\ Offset (params final) =
            last_write offset_of_call cs (Offset (params fixtures.users_builder))
       /\ Cursor (params final) =
            last_write cursor_of_call cs (Cursor (params fixtures.users_builder))
       /\ Ancestor (params final) =
            last_write ancestor_of_call cs (Ancestor (params fixtures.users_builder))
       /\ Select (params final) =
            last_write select_of_call cs (Select (params fixtures.users_builder)).
Proof.
  intros h cs. split; [reflexivity|].
  apply (chain_appends_and_overwrites h 1%positive fixtures.users_builder cs).
  reflexivity.
Defined.

(** C2, as stated, fails for [Select]: a second [Select] does not append to
    the fields of the first, it replaces them. *)
Lemma Select_twice_does_not_accumulate :
  exists b h final,
    (do b <- builder.New;
     do b <- builder.Select b ["name"];
     builder.Select b ["email"]) ∅ = Some (b, h)
    /\ h !! b = Some final
    /\ Select (params final) = ["email"]
    /\ Select (params final) <> ["name"; "email"].
Proof.
  eexists _, _, _. split; [vm_compute; reflexivity|].
  split; [vm_compute; reflexivity|]. split; [reflexivity|discriminate].
Qed.

Section Client.
Context {CursorT Store : Type}.
Variable DecodeCursor : string -> CursorT + error.
Variable GetAll : Store -> Query CursorT -> list Key * option error.

Local Abbreviation Build_of := (builder.Build_of DecodeCursor).
Local Abbreviation Execute := (builder.Execute DecodeCursor GetAll).
Local Abbreviation Count := (builder.Count DecodeCursor GetAll).

Lemma fold_Filter_filter l : forall q : Query CursorT,
  q_filter (fold_left (fun query filter =>
              datastore.Filter query (builder.filterStr filter) (Value filter))
              l q)
  = q_filter q ++ List.map (fun f => (builder.filterStr f, Value f)) l.
Proof.
  induction l as [|f l IH]; intros q; cbn.
  - by rewrite app_nil_r.
  - rewrite IH. cbn. by rewrite <- app_assoc.
Qed.

Lemma fold_Order_filter l : forall q : Query CursorT,
  q_filter (fold_left (fun query order =>
              if String.eqb (Direction order) Descending
              then datastore.Order query ("-" ++ OField order)%string
              else datastore.Order query (OField order)) l q)
  = q_filter q.
Proof.
  induction l as [|o l IH]; intros q; cbn; [done|].
  rewrite IH. by destruct (String.eqb _ _).
Qed.

(** The native query carries the builder's filters, one [Filter] call each,
    in order. *)
Lemma Build_of_filter this :
  q_filter (Build_of this)
  = List.map (fun f => (builder.filterStr f, Value f)) (Filters (params this)).
Proof.
  unfold builder.Build_of.
  repeat match goal with
         | |- context [match ?c with _ => _ end] =>
             lazymatch c with
             | fold_left _ _ _ => fail
             | _ => destruct c; cbn [q_filter datastore.Limit datastore.Offset
                      datastore.Start datastore.Project datastore.Distinct
                      datastore.KeysOnly datastore.Ancestor]
             end
         end;
    rewrite fold_Order_filter, fold_Filter_filter; reflexivity.
Qed.

Lemma fold_Filter_limit_offset l : forall q : Query CursorT,
  q_limit (fold_left (fun query filter =>
             datastore.Filter query (builder.filterStr filter) (Value filter))
             l q) = q_limit q
  /\ q_offset (fold_left (fun query filter =>
                datastore.Filter query (builder.filterStr filter) (Value filter))
                l q) = q_offset q.
Proof.
  induction l as [|f l IH]; intros q; cbn; [done|].
  destruct (IH (datastore.Filter q (builder.filterStr f) (Value f))) as [-> ->].
  done.
Qed.

Lemma fold_Order_limit_offset l : forall q : Query CursorT,
  q_limit (fold_left (fun query order =>
             if String.eqb (Direction order) Descending
             then datastore.Order query ("-" ++ OField order)%string
             else datastore.Order query (OField order)) l q) = q_limit q
  /\ q_offset (fold_left (fun query order =>
                if String.eqb (Direction order) Descending
                then datastore.Order query ("-" ++ OField order)%string
                else datastore.Order query (OField order)) l q) = q_offset q.
Proof.
  induction l as [|o l IH]; intros q; cbn; [done|].
  destruct (String.eqb (Direction o) Descending);
    match goal with |- context [fold_left _ l ?q0] =>
      destruct (IH q0) as [-> ->] end; done.
Qed.

(** The native query gets a limit and an offset only when they are
    positive; otherwise it keeps those of a new query, no limit (-1) and
    offset 0. *)
Lemma Build_of_limit_offset this :
  q_limit (Build_of this)
  = (if Limit (params this) >? 0 then Limit (params this) else -1)
  /\ q_offset (Build_of this)
     = (if Offset (params this) >? 0 then Offset (params this) else 0).
Proof.
  unfold builder.Build_of.
  split;
    repeat match goal with
           | |- context [match ?c with _ => _ end] =>
               lazymatch c with
               | fold_left _ _ _ => fail
               | _ => destruct c; cbn [q_limit q_offset datastore.Limit
                        datastore.Offset datastore.Start datastore.Project
                        datastore.Distinct datastore.KeysOnly
                        datastore.Ancestor]
               end
           end;
    rewrite ?(proj1 (fold_Order_limit_offset _ _)),
            ?(proj2 (fold_Order_limit_offset _ _)),
            ?(proj1 (fold_Filter_limit_offset _ _)),
            ?(proj2 (fold_Filter_limit_offset _ _)); reflexivity.
Qed.

Lemma forallb_of_map {A B} (f : B -> bool) (g : A -> B) l :
  forallb f (List.map g l) = forallb (fun x => f (g x)) l.
Proof. induction l as [|x l IH]; cbn; [done|]. by rewrite IH. Qed.

(** C5. [WhereIn(field, values)] returns the receiver and appends exactly
    one equality condition per value, in the order of [values]; [Build]
    turns each into one more filter of the native query, so an entity
    matches the query only if it passes the earlier filters AND every one
    of the equalities (a conjunction, not an IN). *)
Theorem WhereIn_appends_a_conjunction_of_equalities (h : heap) b this field values :
  h !! b = Some this ->
  exists this',
    builder.WhereIn b field values h = Some (b, <[b := this']> h)
    /\ Filters (params this') =
         Filters (params this) ++
         List.map (fun v => {| Field := field; Operator := Equal; Value := v |})
                  values
    /\ length (Filters (params this')) =
         (length (Filters (params this)) + length values)%nat
    /\ q_filter (Build_of this') =
         q_filter (Build_of this) ++
         List.map (fun v => ((field ++ " =")%string, v)) values
    /\ forall (Entity : Type) (satisfies : Entity -> string * value -> bool) e,
         matches satisfies e (Build_of this') =
           matches satisfies e (Build_of this)
           && forallb (fun v => satisfies e ((field ++ " =")%string, v)) values.
Proof.
  intros Hb. eexists. split; [by apply WhereIn_ok|].
  assert (HF : Filters (params (on_params (fun p =>
                 set_Filters (Filters p ++
                   List.map (fun v => {| Field := field; Operator := Equal;
                                         Value := v |}) values) p) this))
               = Filters (params this) ++
                 List.map (fun v => {| Field := field; Operator := Equal;
                                       Value := v |}) values) by reflexivity.
  assert (HQ : q_filter (Build_of (on_params (fun p =>
                 set_Filters (Filters p ++
                   List.map (fun v => {| Field := field; Operator := Equal;
                                         Value := v |}) values) p) this))
               = q_filter (Build_of this) ++
                 List.map (fun v => ((field ++ " =")%string, v)) values).
  { rewrite !Build_of_filter, HF, List.map_app, List.map_map. reflexivity. }
  split; [exact HF|]. split; [by rewrite HF, length_app, length_map|].
  split; [exact HQ|]. intros Entity satisfies e. unfold matches.
  rewrite HQ, forallb_app, forallb_of_map. reflexivity.
Qed.

(** What [Execute] returns on a live builder. *)
Lemma Execute_ok (h : heap) b this client :
  h !! b = Some this ->
  Execute b client h =
    Some (match GetAll client (Build_of this) with
          | (_, Some err) => (None, Some err)
          | (keys, None) =>
              (Some {| NextCursor := "";
                       HasMore := (Z.of_nat (length keys) =? Limit (params this))
                                  && (Limit (params this) >? 0);
                       Total := Z.of_nat (length keys) |}, None)
          end, h).
Proof.
  intros Hb. unfold builder.Execute, builder.Build, bind.
  rewrite (load_ok _ _ _ Hb). cbn.
  destruct (GetAll client (Build_of this)) as [keys [err|]]; cbn; [done|].
  by rewrite (load_ok _ _ _ Hb).
Qed.



(** What [Count] does on a live builder: it allocates a copy, sets the
    keys-only flag on the copy and queries with the copy. The copy is
    shallow (the slices of the parameters share their backing arrays with
    the original), and the only write through it is the flag. *)
Lemma Count_ok (h : heap) b this client :
  h !! b = Some this ->
  let countBuilder := fresh (dom h) in
  let clone := on_params (set_KeysOnly true) this in
  Count b client h =
    Some (match GetAll client (Build_of clone) with
          | (_, Some err) => (0, Some err)
          | (keys, None) => (Z.of_nat (length keys), None)
          end, <[countBuilder := clone]> h).
Proof.
  intros Hb countBuilder clone.
  unfold builder.Count, builder.KeysOnly, builder.Build, bind, alloc.
  rewrite (load_ok _ _ _ Hb). cbn.
  fold countBuilder.
  erewrite update_ok by apply lookup_insert_eq.
  unfold ret at 1. rewrite insert_insert_eq.
  erewrite load_ok by apply lookup_insert_eq.
  unfold ret.
  assert (Hclone : on_params (set_KeysOnly true)
                     {| kind := kind this; params := params this |} = clone)
    by reflexivity.
  rewrite Hclone. cbn.
  by destruct (GetAll client (Build_of clone)) as [keys [err|]].
Qed.

(** C6. [Count] works on a freshly allocated copy of the builder, to which
    only the keys-only flag is added. The original builder, and every other
    object, is exactly as before: filters, orders, limit, offset, cursor,
    projection and keys-only flag are unchanged, and [Execute] on the same
    builder after [Count] returns what it returns without [Count]. *)
Theorem Count_leaves_the_builder_unchanged (h : heap) b this client :
  h !! b = Some this ->
  exists n err countBuilder,
    let h' := <[countBuilder := on_params (set_KeysOnly true) this]> h in
    h !! countBuilder = None
    /\ Count b client h = Some ((n, err), h')
    /\ h' !! b = Some this
    /\ (forall b' other, h !! b' = Some other -> h' !! b' = Some other)
    /\ fst <$> Execute b client h' = fst <$> Execute b client h.
Proof.
  intros Hb.
  assert (Hfresh : h !! fresh (dom h) = None)
    by (apply not_elem_of_dom, is_fresh).
  assert (Hframe : forall b' other, h !! b' = Some other ->
            <[fresh (dom h) := on_params (set_KeysOnly true) this]> h !! b'
            = Some other).
  { intros b' other Hb'. rewrite lookup_insert_ne; [done|]. congruence. }
  pose proof (Count_ok h b this client Hb) as HC. cbn zeta in HC.
  destruct (GetAll client (Build_of (on_params (set_KeysOnly true) this)))
    as [keys [err|]].
  - exists 0, (Some err), (fresh (dom h)). cbn zeta.
    split; [done|]. split; [done|]. split; [by apply Hframe|].
    split; [done|].
    by rewrite (Execute_ok _ _ _ _ (Hframe _ _ Hb)), (Execute_ok _ _ _ _ Hb).
  - exists (Z.of_nat (length keys)), None, (fresh (dom h)). cbn zeta.
    split; [done|]. split; [done|]. split; [by apply Hframe|].
    split; [done|].
    by rewrite (Execute_ok _ _ _ _ (Hframe _ _ Hb)), (Execute_ok _ _ _ _ Hb).
Qed.

End Client.

(** [WhereIn("status", ["active", "pending"])] on a new builder: two equality
    conditions, both applied to the native query. *)
Lemma WhereIn_appends_a_conjunction_of_equalities_witness :
  let h : heap := {[ 1%positive := fixtures.users_builder ]} in
  h !! 1%positive = Some fixtures.users_builder
  /\ exists this',
       builder.WhereIn 1%positive "status" [VString "active"; VString "pending"] h
         = Some (1%positive, <[1%positive := this']> h)
       /\ Filters (params this') =
            [{| Field := "status"; Operator := "="; Value := VString "active" |};
             {| Field := "status"; Operator := "="; Value := VString "pending" |}]
       /\ q_filter (builder.Build_of fixtures.no_cursor this') =
            [("status =", VString "active"); ("status =", VString "pending")].
Proof.
  intros h. split; [reflexivity|].
  destruct (WhereIn_appends_a_conjunction_of_equalities fixtures.no_cursor
              h 1%positive fixtures.users_builder "status"
              [VString "active"; VString "pending"] eq_refl)
    as (this' & Hrun & HF & _ & HQ & _).
  exists this'. split; [exact Hrun|]. split; [exact HF|exact HQ].
Defined.


(** [Count] on a builder with limit 5 and offset 10. *)
Lemma Count_leaves_the_builder_unchanged_witness :
  let this := on_params (fun p => set_Offset 10 (set_Limit 5 p))
                fixtures.users_builder in
  let h : heap := {[ 1%positive := this ]} in
  h !! 1%positive = Some this
  /\ exists n err countBuilder,
       let h' := <[countBuilder := on_params (set_KeysOnly true) this]> h in
       builder.Count fixtures.no_cursor fixtures.list_GetAll 1%positive
         fixtures.five_keys h = Some ((n, err), h')
       /\ h' !! 1%positive = Some this
       /\ fst <$> builder.Execute fixtures.no_cursor fixtures.list_GetAll
                    1%positive fixtures.five_keys h'
          = fst <$> builder.Execute fixtures.no_cursor fixtures.list_GetAll
                      1%positive fixtures.five_keys h.
Proof.
  intros this h. split; [reflexivity|].
  destruct (Count_leaves_the_builder_unchanged fixtures.no_cursor
              fixtures.list_GetAll h 1%positive this fixtures.five_keys eq_refl)
    as (n & err & countBuilder & _ & Hrun & Hb & _ & Hex).
  exists n, err, countBuilder. cbn zeta.
  split; [exact Hrun|]. split; [exact Hb|exact Hex].
Defined.

End builderFacts.

(** ** White space and [strings.TrimSpace] *)

Module trimFacts.
Import strings spec.
Local Open Scope list_scope.

Lemma starts_spec p : forall bs,
  starts p bs = true <-> exists x, bs = p ++ x.
Proof.
  induction p as [|a p IH]; intros bs; cbn.
  - split; [eauto|done].
  - destruct bs as [|b bs]; [split; [done|by intros [x Hx]]|].
    rewrite andb_true_iff, IH. split.
    + intros [Hab [x ->]]. apply Ascii.eqb_eq in Hab as ->. by exists x.
    + intros [x [= -> ->]]. split; [apply Ascii.eqb_refl|by exists x].
Qed.

(** [space_rune_width] by the value of the first byte. *)
Lemma space_rune_width_cases (c0 : ascii) rest :
  space_rune_width (c0 :: rest)
  = let b0 := nat_of_ascii c0 in
    if ((9 <=? b0) && (b0 <=? 13) || (b0 =? 32))%nat then Some 1%nat
    else if (b0 =? 194)%nat then
      match rest with
      | c1 :: _ =>
          if ((nat_of_ascii c1 =? 133) || (nat_of_ascii c1 =? 160))%nat
          then Some 2%nat else None
      | [] => None
      end
    else if (b0 =? 225)%nat then
      match rest with
      | c1 :: c2 :: _ =>
          if ((nat_of_ascii c1 =? 154) && (nat_of_ascii c2 =? 128))%nat
          then Some 3%nat else None
      | _ => None
      end
    else if (b0 =? 226)%nat then
      match rest with
      | c1 :: c2 :: _ =>
          if ((nat_of_ascii c1 =? 128) &&
              ((128 <=? nat_of_ascii c2) && (nat_of_ascii c2 <=? 138)
               || (nat_of_ascii c2 =? 168) || (nat_of_ascii c2 =? 169)
               || (nat_of_ascii c2 =? 175))
              || (nat_of_ascii c1 =? 129) && (nat_of_ascii c2 =? 159))%nat
          then Some 3%nat else None
      | _ => None
      end
    else if (b0 =? 227)%nat then
      match rest with
      | c1 :: c2 :: _ =>
          if ((nat_of_ascii c1 =? 128) && (nat_of_ascii c2 =? 128))%nat
          then Some 3%nat else None
      | _ => None
      end
    else None.
Proof.
  destruct c0 as [[] [] [] [] [] [] [] []];
    destruct rest as [|c1 [|c2 rest]]; reflexivity.
Qed.

Local Ltac in_runes :=
  unfold space_runes; cbn [List.map In];
  repeat (first [left; reflexivity | right]).

Local Ltac to_props H :=
  repeat rewrite ?orb_true_iff, ?andb_true_iff, ?Nat.leb_le, ?Nat.eqb_eq in H.

Lemma byte_of_nat (c : ascii) : c = byte (nat_of_ascii c).
Proof. unfold byte. by rewrite ascii_nat_embedding. Qed.

Lemma rune_length rune :
  In rune space_runes -> (1 <= length rune <= 3)%nat.
Proof.
  unfold space_runes. cbn [List.map In]. intros H.
  repeat (destruct H as [<-|H]; [cbn; lia|]). destruct H.
Qed.

(** A width is the length of a white-space rune at the head. *)
Lemma width_sound bs w :
  space_rune_width bs = Some w ->
  exists rune, In rune space_runes /\ length rune = w
               /\ bs = rune ++ skipn w bs.
Proof.
  destruct bs as [|c0 rest]; [discriminate|].
  rewrite space_rune_width_cases. cbv zeta.
  pose proof (byte_of_nat c0) as E0.
  remember (nat_of_ascii c0) as b0 eqn:Hb0. clear Hb0. subst c0.
  destruct ((9 <=? b0) && (b0 <=? 13) || (b0 =? 32))%nat eqn:H1.
  { intros [= <-]. exists [byte b0]. split; [|by split].
    to_props H1.
    assert (H : (b0 = 9 \/ b0 = 10 \/ b0 = 11 \/ b0 = 12 \/ b0 = 13
                 \/ b0 = 32)%nat) by lia.
    destruct H as [->|[->|[->|[->|[->| ->]]]]]; in_runes. }
  destruct (Nat.eqb_spec b0 194) as [->|_].
  { destruct rest as [|c1 rest]; [discriminate|].
    pose proof (byte_of_nat c1) as E1.
    remember (nat_of_ascii c1) as b1 eqn:Hb1. clear Hb1. subst c1.
    destruct ((b1 =? 133) || (b1 =? 160))%nat eqn:H2; [|discriminate].
    intros [= <-]. exists [byte 194; byte b1]. split; [|by split].
    to_props H2. destruct H2 as [-> | ->]; in_runes. }
  destruct (Nat.eqb_spec b0 225) as [->|_].
  { destruct rest as [|c1 [|c2 rest]]; try discriminate.
    pose proof (byte_of_nat c1) as E1. pose proof (byte_of_nat c2) as E2.
    remember (nat_of_ascii c1) as b1 eqn:Hb1.
    remember (nat_of_ascii c2) as b2 eqn:Hb2. clear Hb1 Hb2. subst c1 c2.
    destruct ((b1 =? 154) && (b2 =? 128))%nat eqn:H2; [|discriminate].
    intros [= <-]. exists [byte 225; byte b1; byte b2]. split; [|by split].
    to_props H2. destruct H2 as [-> ->]. in_runes. }
  destruct (Nat.eqb_spec b0 226) as [->|_].
  { destruct rest as [|c1 [|c2 rest]]; try discriminate.
    pose proof (byte_of_nat c1) as E1. pose proof (byte_of_nat c2) as E2.
    remember (nat_of_ascii c1) as b1 eqn:Hb1.
    remember (nat_of_ascii c2) as b2 eqn:Hb2. clear Hb1 Hb2. subst c1 c2.
    match goal with |- (if ?c then _ else _) = _ -> _ =>
      destruct c eqn:H2; [|discriminate] end.
    intros [= <-]. exists [byte 226; byte b1; byte b2]. split; [|by split].
    to_props H2.
    assert (H : (b1 = 128 /\ (b2 = 128 \/ b2 = 129 \/ b2 = 130 \/ b2 = 131
                              \/ b2 = 132 \/ b2 = 133 \/ b2 = 134 \/ b2 = 135
                              \/ b2 = 136 \/ b2 = 137 \/ b2 = 138 \/ b2 = 168
                              \/ b2 = 169 \/ b2 = 175)
                 \/ b1 = 129 /\ b2 = 159)%nat) by lia.
    destruct H as [[-> H]|[-> ->]]; [|in_runes].
    repeat (destruct H as [->|H]; [in_runes|]). subst b2. in_runes. }
  destruct (Nat.eqb_spec b0 227) as [->|_]; [|discriminate].
  destruct rest as [|c1 [|c2 rest]]; try discriminate.
  pose proof (byte_of_nat c1) as E1. pose proof (byte_of_nat c2) as E2.
  remember (nat_of_ascii c1) as b1 eqn:Hb1.
  remember (nat_of_ascii c2) as b2 eqn:Hb2. clear Hb1 Hb2. subst c1 c2.
  destruct ((b1 =? 128) && (b2 =? 128))%nat eqn:H2; [|discriminate].
  intros [= <-]. exists [byte 227; byte b1; byte b2]. split; [|by split].
  to_props H2. destruct H2 as [-> ->]. in_runes.
Qed.

(** And every white-space rune at the head is seen, from either end. *)
Lemma width_complete rune x :
  In rune space_runes -> space_rune_width (rune ++ x) = Some (length rune).
Proof.
  unfold space_runes. cbn [List.map In]. intros H.
  repeat (destruct H as [<-|H]; [reflexivity|]). destruct H.
Qed.

Lemma width_last_complete rune x :
  In rune space_runes ->
  space_rune_width_last (rev rune ++ x) = Some (length rune).
Proof.
  unfold space_runes. cbn [List.map In]. intros H.
  repeat (destruct H as [<-|H]; [reflexivity|]). destruct H.
Qed.

Lemma asciiSpace_rune c : asciiSpace c = true -> In [c] space_runes.
Proof.
  unfold asciiSpace. cbv zeta. rewrite (byte_of_nat c) at 4.
  generalize (nat_of_ascii c) as b. intros b H. to_props H.
  assert (Hb : (b = 9 \/ b = 10 \/ b = 11 \/ b = 12 \/ b = 13 \/ b = 32)%nat)
    by lia.
  destruct Hb as [->|[->|[->|[->|[->| ->]]]]]; in_runes.
Qed.

(** The rune that [width_sound] finds in a list no longer than the width
    is the whole list. *)
Lemma width_whole bs w :
  (length bs <= w)%nat -> space_rune_width bs = Some w -> In bs space_runes.
Proof.
  intros Hlen Hw. destruct (width_sound _ _ Hw) as (rune & Hin & Hl & Hbs).
  rewrite skipn_all2 in Hbs by lia. rewrite app_nil_r in Hbs. by subst bs.
Qed.

Lemma width_last_sound rbs w :
  space_rune_width_last rbs = Some w ->
  exists rune, In rune space_runes /\ length rune = w
               /\ rbs = rev rune ++ skipn w rbs.
Proof.
  destruct rbs as [|c rest]; [discriminate|]. unfold space_rune_width_last.
  destruct (asciiSpace c) eqn:Ha.
  { intros [= <-]. exists [c]. split; [by apply asciiSpace_rune|by split]. }
  set (rbs := c :: rest).
  assert (Hpart : forall n, rbs = rev (rev (firstn n rbs)) ++ skipn n rbs)
    by (intros n; by rewrite rev_involutive, firstn_skipn).
  assert (Hshort : forall n, (length (rev (firstn n rbs)) <= n)%nat)
    by (intros n; rewrite length_rev, length_firstn; lia).
  destruct (space_rune_width (rev (firstn 2 rbs))) as [w2|] eqn:H2.
  - destruct (Nat.eq_dec w2 2%nat) as [->|Hne].
    + intros [= <-]. exists (rev (firstn 2 rbs)).
      pose proof (width_whole _ _ (Hshort 2%nat) H2) as Hin.
      split; [exact Hin|]. split; [|apply Hpart].
      destruct (width_sound _ _ H2) as (rune & _ & Hl & Hbs).
      rewrite skipn_all2 in Hbs by apply Hshort. rewrite app_nil_r in Hbs.
      by rewrite Hbs.
    + assert (Hskip :
        match w2 with 2%nat => Some 2%nat | _ =>
          match space_rune_width (rev (firstn 3 rbs)) with
          | Some 3%nat => Some 3%nat | _ => None end end
        = match space_rune_width (rev (firstn 3 rbs)) with
          | Some 3%nat => Some 3%nat | _ => None end)
        by (by destruct w2 as [|[|[|w2]]]).
      rewrite Hskip. clear Hskip.
      destruct (space_rune_width (rev (firstn 3 rbs))) as [w3|] eqn:H3;
        [|discriminate].
      destruct (Nat.eq_dec w3 3%nat) as [->|Hne3];
        [|by destruct w3 as [|[|[|[|w3]]]]].
      intros [= <-]. exists (rev (firstn 3 rbs)).
      pose proof (width_whole _ _ (Hshort 3%nat) H3) as Hin.
      split; [exact Hin|]. split; [|apply Hpart].
      destruct (width_sound _ _ H3) as (rune & _ & Hl & Hbs).
      rewrite skipn_all2 in Hbs by apply Hshort. rewrite app_nil_r in Hbs.
      by rewrite Hbs.
  - destruct (space_rune_width (rev (firstn 3 rbs))) as [w3|] eqn:H3;
      [|discriminate].
    destruct (Nat.eq_dec w3 3%nat) as [->|Hne3];
      [|by destruct w3 as [|[|[|[|w3]]]]].
    intros [= <-]. exists (rev (firstn 3 rbs)).
    pose proof (width_whole _ _ (Hshort 3%nat) H3) as Hin.
    split; [exact Hin|]. split; [|apply Hpart].
    destruct (width_sound _ _ H3) as (rune & _ & Hl & Hbs).
    rewrite skipn_all2 in Hbs by apply Hshort. rewrite app_nil_r in Hbs.
    by rewrite Hbs.
Qed.

Lemma white_nil : white [].
Proof. by exists []. Qed.

Lemma white_rune rune : In rune space_runes -> white rune.
Proof.
  intros H. exists [rune]. split; [by constructor|]. cbn. by rewrite app_nil_r.
Qed.

Lemma white_app l r : white l -> white r -> white (l ++ r).
Proof.
  intros (rl & Hl & ->) (rr & Hr & ->). exists (rl ++ rr).
  split; [by apply Forall_app|by rewrite concat_app].
Qed.

(** The two loops of [TrimSpace]: what they take off is white space, and
    they stop where no white-space rune is left at that end. *)
Lemma trim_left n : forall bs,
  (length bs <= n)%nat ->
  exists l, bs = l ++ trim_with space_rune_width n bs
            /\ white l
            /\ space_rune_width (trim_with space_rune_width n bs) = None.
Proof.
  induction n as [|n IH]; intros bs Hlen.
  - destruct bs; [|cbn in Hlen; lia]. exists []. by split; [|split; [apply white_nil|]].
  - cbn [trim_with]. destruct (space_rune_width bs) as [w|] eqn:Hw.
    + destruct (width_sound _ _ Hw) as (rune & Hin & Hl & Hbs).
      pose proof (rune_length _ Hin) as Hr.
      destruct (IH (skipn w bs)) as (l & Hl' & Hwl & Hnone).
      { rewrite length_skipn. lia. }
      exists (rune ++ l). split; [|split; [|exact Hnone]].
      * rewrite <- app_assoc, <- Hl'. exact Hbs.
      * apply white_app; [by apply white_rune|exact Hwl].
    + exists []. by split; [|split; [apply white_nil|]].
Qed.

Lemma trim_right n : forall rbs,
  (length rbs <= n)%nat ->
  exists r, rbs = r ++ trim_with space_rune_width_last n rbs
            /\ white (rev r)
            /\ space_rune_width_last (trim_with space_rune_width_last n rbs)
               = None.
Proof.
  induction n as [|n IH]; intros rbs Hlen.
  - destruct rbs; [|cbn in Hlen; lia]. exists [].
    by split; [|split; [apply white_nil|]].
  - cbn [trim_with]. destruct (space_rune_width_last rbs) as [w|] eqn:Hw.
    + destruct (width_last_sound _ _ Hw) as (rune & Hin & Hl & Hbs).
      pose proof (rune_length _ Hin) as Hr.
      destruct (IH (skipn w rbs)) as (r & Hr' & Hwr & Hnone).
      { rewrite length_skipn. lia. }
      exists (rev rune ++ r). split; [|split; [|exact Hnone]].
      * rewrite <- app_assoc, <- Hr'. exact Hbs.
      * rewrite rev_app_distr, rev_involutive.
        apply white_app; [exact Hwr|by apply white_rune].
    + exists []. by split; [|split; [apply white_nil|]].
Qed.

(** [strings.TrimSpace] removes the surrounding white space, all of it and
    nothing else. *)
Lemma TrimSpace_trimmed s : trimmed s (TrimSpace s).
Proof.
  unfold trimmed, TrimSpace. rewrite list_ascii_of_string_of_list_ascii.
  set (bs := list_ascii_of_string s).
  destruct (trim_left (length bs) bs) as (l & Hl & Hwl & Hhead); [lia|].
  fold (TrimLeftSpace bs) in Hl, Hhead. unfold TrimRightSpace.
  set (L := TrimLeftSpace bs) in *.
  destruct (trim_right (length L) (rev L)) as (r & Hr & Hwr & Htail);
    [rewrite length_rev; lia|].
  set (T := trim_with space_rune_width_last (length L) (rev L)) in *.
  assert (HL : L = rev T ++ rev r).
  { rewrite <- rev_app_distr, <- Hr. by rewrite rev_involutive. }
  exists l, (rev r). split; [by rewrite <- HL|].
  split; [exact Hwl|]. split; [exact Hwr|]. split.
  - destruct (starts_with_space (rev T)) eqn:E; [|reflexivity].
    apply existsb_exists in E as (rune & Hin & Hs).
    apply starts_spec in Hs as [x Hx].
    rewrite HL, Hx, <- app_assoc, (width_complete _ _ Hin) in Hhead.
    discriminate.
  - unfold ends_with_space. rewrite rev_involutive.
    destruct (existsb _ space_runes) eqn:E; [|reflexivity].
    apply existsb_exists in E as (rune & Hin & Hs).
    apply starts_spec in Hs as [x Hx].
    rewrite Hx, (width_last_complete _ _ Hin) in Htail. discriminate.
Qed.

End trimFacts.

(** ** The filter normaliser *)

Module filterFacts.
Import strings spec.
Local Open Scope string_scope.
Local Open Scope list_scope.
Local Open Scope Z_scope.

Lemma Contains_occurs s sub : Contains s sub = true <-> occurs s sub.
Proof.
  rewrite stringsFacts.Contains_index. split.
  - intros [i Hi]. destruct (stringsFacts.index_Some _ _ _ Hi) as ([post Hp] & _).
    by exists (take i s), post.
  - intros (pre & post & Heq). destruct (index s sub) as [i|] eqn:Hi; [eauto|].
    by destruct (stringsFacts.index_None _ _ Hi pre post).
Qed.

Lemma not_Contains_occurs s sub : Contains s sub = false <-> ~ occurs s sub.
Proof.
  rewrite <- Contains_occurs. by destruct (Contains s sub).
Qed.

(** [parts[0]] of [Split(key, tok)] is the part before the first [tok]. *)
Lemma hd_Split key tok : hd "" (Split key tok) = before key tok.
Proof. by destruct (stringsFacts.Split_head key tok) as [rest ->]. Qed.

Lemma before_first key tok :
  occurs key tok ->
  (exists post, key = (before key tok ++ tok ++ post)%string)
  /\ forall pre post, key = (pre ++ tok ++ post)%string ->
       (String.length (before key tok) <= String.length pre)%nat.
Proof.
  intros Hocc. apply Contains_occurs, stringsFacts.Contains_index in Hocc.
  destruct Hocc as [i Hi]. unfold before. rewrite Hi.
  destruct (stringsFacts.index_Some _ _ _ Hi) as (Hpost & Hlen & Hmin).
  split; [done|]. by rewrite Hlen.
Qed.

Lemma find_first {A} (p : A -> bool) (l : list A) x :
  find p l = Some x ->
  exists j : nat,
    l !! j = Some x /\ p x = true
    /\ forall (i : nat) y, (i < j)%nat -> l !! i = Some y -> p y = false.
Proof.
  induction l as [|a l IH]; cbn; [done|].
  destruct (p a) eqn:Hpa.
  - intros [= <-]. exists 0%nat. split; [done|]. split; [done|]. intros; lia.
  - intros Hf. destruct (IH Hf) as (j & Hj & Hpx & Hmin).
    exists (S j). split; [done|]. split; [done|].
    intros [|i] y Hlt; cbn; [congruence|]. apply Hmin. lia.
Qed.

(** One entry of the map gives the condition the specification describes. *)
Lemma FromMap_entry_condition f key v :
  filter.FromMap_entry f (key, v)
  = {| filter.filters := filter.filters f ++ [condition_of key v] |}.
Proof.
  unfold filter.FromMap_entry, condition_of, detect, tokens.
  cbn [find fst]. rewrite !hd_Split.
  by repeat destruct (Contains key _).
Qed.

Lemma FromMap_conditions m : forall f,
  filter.filters (filter.FromMap f m)
  = filter.filters f ++ List.map (fun e => condition_of (fst e) (snd e)) m.
Proof.
  unfold filter.FromMap.
  induction m as [|[key v] m IH]; intros f; cbn [fold_left List.map].
  - by rewrite app_nil_r.
  - rewrite IH, FromMap_entry_condition. cbn. by rewrite <- app_assoc.
Qed.

(** C3. [FromMap] appends one condition per entry of the map, with the
    entry's value unchanged. The operator is that of the first token, in the
    order >=, <=, >, <, !=, that occurs in the key; the field is then the
    part of the key before the first occurrence of that token, with the
    surrounding white space trimmed: what is taken off on either side is
    white space only, and the field neither begins nor ends with a
    white-space rune. When no token occurs the operator is = and the field
    is the whole key, blanks included. The key "age>= " with value 18 gives
    field "age", operator ">=" and value 18, and so does " age >= ". *)
Theorem FromMap_detects_the_operator_token :
  (forall f m,
     filter.Build (filter.FromMap f m)
     = filter.Build f ++ List.map (fun e => condition_of (fst e) (snd e)) m)
  /\ (forall key v,
        match detect key with
        | Some (tok, op) =>
            (exists j : nat,
               tokens !! j = Some (tok, op)
               /\ forall (i : nat) t, (i < j)%nat -> tokens !! i = Some t ->
                    ~ occurs key (fst t))
            /\ occurs key tok
            /\ (exists post, key = (before key tok ++ tok ++ post)%string)
            /\ (forall pre post, key = (pre ++ tok ++ post)%string ->
                  (String.length (before key tok) <= String.length pre)%nat)
            /\ condition_of key v
               = {| Field := TrimSpace (before key tok); Operator := op;
                    Value := v |}
            /\ trimmed (before key tok) (Field (condition_of key v))
        | None =>
            (forall t, In t tokens -> ~ occurs key (fst t))
            /\ condition_of key v
               = {| Field := key; Operator := "="; Value := v |}
        end)
  /\ filter.Build (filter.FromMap filter.NewFilter [("age>= ", VInt Wnative 18)])
     = [{| Field := "age"; Operator := ">="; Value := VInt Wnative 18 |}]
  /\ filter.Build (filter.FromMap filter.NewFilter [(" age >= ", VInt Wnative 18)])
     = [{| Field := "age"; Operator := ">="; Value := VInt Wnative 18 |}]
  /\ filter.Build (filter.FromMap filter.NewFilter [(" age ", VInt Wnative 18)])
     = [{| Field := " age "; Operator := "="; Value := VInt Wnative 18 |}].
Proof.
  split; [intros f m; apply FromMap_conditions|].
  split; [|by repeat split].
  intros key v. unfold condition_of.
  destruct (detect key) as [[tok op]|] eqn:Hd.
  - destruct (find_first _ _ _ Hd) as (j & Hj & Hp & Hmin). cbn [fst] in Hp.
    apply Contains_occurs in Hp.
    destruct (before_first _ _ Hp) as (Hpost & Hfirst).
    split; [|repeat split; try done; apply trimFacts.TrimSpace_trimmed].
    exists j. split; [done|]. intros i t Hlt Hi.
    apply not_Contains_occurs. by apply (Hmin i t).
  - split; [|done]. intros t Ht. apply not_Contains_occurs.
    by apply (find_none _ _ Hd t).
Qed.

Lemma FromMap_detects_the_operator_token_witness :
  occurs "a>b>=c" ">="
  /\ condition_of "a>b>=c" (VInt Wnative 1)
     = {| Field := "a>b"; Operator := ">="; Value := VInt Wnative 1 |}
  /\ condition_of "  created_at 	<= " (VInt Wnative 1)
     = {| Field := "created_at"; Operator := "<="; Value := VInt Wnative 1 |}
  /\ trimmed "  created_at 	" "created_at".
Proof.
  pose proof (proj1 (proj2 FromMap_detects_the_operator_token)
                "a>b>=c" (VInt Wnative 1)) as H.
  assert (Hd : detect "a>b>=c" = Some (">=", ">=")) by reflexivity.
  rewrite Hd in H. destruct H as (_ & Hocc & _ & _ & Hc & _).
  split; [exact Hocc|]. split; [rewrite Hc; reflexivity|].
  pose proof (proj1 (proj2 FromMap_detects_the_operator_token)
                "  created_at 	<= " (VInt Wnative 1)) as H.
  assert (Hd' : detect "  created_at 	<= " = Some ("<=", "<=")) by reflexivity.
  rewrite Hd' in H. destruct H as (_ & _ & _ & _ & Hc' & Ht).
  split; [rewrite Hc'; reflexivity|].
  rewrite Hc' in Ht. exact Ht.
Defined.

(** On a field reached through an exported name, [isZeroValue] is the test
    [skipped] and [Interface] does not panic. *)
Lemma isZeroValue_exported x :
  filter.isZeroValue {| flagRO := false; val := x |} = Some (skipped x).
Proof.
  destruct x as [ | |w ?|w ?| | | | | |s|l|[l|]|[l|]|[?|]|[?|]| | | | | ];
    try destruct w; try destruct s; try destruct l; reflexivity.
Qed.

Lemma Interface_exported x :
  Interface {| flagRO := false; val := x |} = Some (carried x).
Proof. unfold Interface. cbn. by destruct x as [ | | | | | | | | | | | | | |[?|]| | | | | ]. Qed.

Section FromStruct.
Variable ToLower : string -> string.




End FromStruct.



End filterFacts.

(** ** Batches *)

Module batchFacts.
Import spec.

Section Chunks.
Context {A : Type}.
Variable size : nat.
Hypothesis size_pos : (1 <= size)%nat.

Lemma chunks_upto_enough : forall r1 r2 (l : list A),
  (length l <= r1)%nat -> (length l <= r2)%nat ->
  chunks_upto r1 size l = chunks_upto r2 size l.
Proof using size_pos.
  induction r1 as [|r1 IH]; intros r2 [|a l] H1 H2; cbn in *;
    try (by destruct r2); try lia.
  destruct r2 as [|r2]; [lia|]. cbn. f_equal.
  assert (length (skipn size (a :: l)) <= length l)%nat
    by (rewrite length_skipn; cbn; lia).
  apply IH; lia.
Qed.

Lemma chunks_nil : chunks size (@nil A) = [].
Proof. reflexivity. Qed.

Lemma chunks_cons a (l : list A) :
  chunks size (a :: l)
  = firstn size (a :: l) :: chunks size (skipn size (a :: l)).
Proof using size_pos.
  unfold chunks. cbn [length chunks_upto]. f_equal.
  apply chunks_upto_enough; [|done]. rewrite length_skipn. cbn. lia.
Qed.

Lemma concat_chunks : forall n (l : list A),
  (length l <= n)%nat -> concat (chunks size l) = l.
Proof using size_pos.
  induction n as [|n IH]; intros [|a l] Hl; cbn in Hl; try done; try lia.
  rewrite chunks_cons. cbn [concat]. rewrite IH.
  - apply firstn_skipn.
  - rewrite length_skipn. cbn. lia.
Qed.

(** Sizes: every batch holds between 1 and [size] elements, and every batch
    but the last exactly [size]; so there are ceil(n / size) of them. *)
Lemma chunks_sizes : forall n (l : list A),
  (length l <= n)%nat ->
  (forall (k : nat) batch, chunks size l !! k = Some batch ->
     (1 <= length batch <= size)%nat
     /\ (S k < length (chunks size l) -> length batch = size)%nat)
  /\ (size * length (chunks size l) < length l + size)%nat
  /\ (length l <= size * length (chunks size l))%nat.
Proof using size_pos.
  induction n as [|n IH]; intros [|a l] Hl; cbn in Hl; try lia.
  - cbn. split; [done|]. lia.
  - cbn. split; [done|]. lia.
  - rewrite chunks_cons.
    assert (Hrest : (length (skipn size (a :: l)) <= n)%nat)
      by (rewrite length_skipn; cbn; lia).
    destruct (IH _ Hrest) as (Hk & Hlo & Hhi).
    pose proof (length_skipn size (a :: l)) as Hs.
    pose proof (length_firstn size (a :: l)) as Hf.
    cbn [length] in *. split.
    2: { rewrite Nat.mul_succ_r.
         destruct (decide (size <= S (length l))%nat); [lia|].
         rewrite skipn_all2 by (cbn; lia). cbn. lia. }
    intros [|k] batch; cbn.
    + intros [= <-]. split; [lia|]. intros Hmore.
      destruct (chunks size (skipn size (a :: l))) eqn:Hc; cbn in *; [lia|].
      destruct (decide (size <= S (length l))%nat); [lia|].
      rewrite skipn_all2 in Hc by (cbn; lia). done.
    + intros Hb. destruct (Hk _ _ Hb) as [H1 H2]. split; [done|]. intros; apply H2; lia.
Qed.

End Chunks.

Lemma run_batches_app {Store A} (create : A -> Store -> Store * option error)
    pre : forall rest db,
  run_batches create (pre ++ rest) db
  = match run_batches create pre db with
    | (db1, None) => run_batches create rest db1
    | r => r
    end.
Proof.
  induction pre as [|batch pre IH]; intros rest db; cbn; [done|].
  destruct (create batch db) as [db' [err|]]; [done|]. apply IH.
Qed.

End batchFacts.

(** ** The executor *)

Module execFacts.
Import spec.
Local Open Scope string_scope.
Local Open Scope list_scope.
Local Open Scope Z_scope.

Section BulkCreate.
Context {Store : Type}.
Variable PutMulti : Store -> list Key -> value -> Store * option error.
Variable ctx : Context.
Variable kind : string.

(** The [CreateMulti] call [BulkCreate] makes for one batch: a nil
    identifier for every item. *)
Local Abbreviation create :=
  (fun batch : list value =>
     exec.CreateMulti PutMulti ctx kind (repeat Nil (length batch))
       (VSlice (Some batch))).

Lemma CreateMulti_keys_nil n : forall i,
  exec.CreateMulti_keys kind i (repeat Nil n)
  = inl (repeat (IncompleteKey kind None) n).
Proof. induction n as [|n IH]; intros i; cbn; [done|]. by rewrite IH. Qed.

Section Loop.
Variable l : list value.
Variable batchSize : Z.
Hypothesis batchSize_pos : 1 <= batchSize <= GoInt.max_int.
Hypothesis length_bound : Z.of_nat (length l) <= 2 ^ 62.

Lemma BulkCreate_loop_batches : forall (n : nat) rem,
  (length rem <= n)%nat ->
  forall fuel i db,
    0 <= i -> i = 0 \/ batchSize <= i ->
    skipn (Z.to_nat i) l = rem ->
    (length (chunks (Z.to_nat batchSize) rem) < fuel)%nat ->
    exec.BulkCreate_loop PutMulti fuel ctx kind (VSlice (Some l)) batchSize
      (Z.of_nat (length l)) i db
    = (let '(db', err) := run_batches create (chunks (Z.to_nat batchSize) rem) db in
       (db', Returns err)).
Proof using batchSize_pos length_bound.
  assert (Hsize : (1 <= Z.to_nat batchSize)%nat) by lia.
  unfold GoInt.max_int in batchSize_pos.
  induction n as [|n IH]; intros rem Hn fuel i db Hi Hmult Hrem Hfuel;
    (destruct fuel as [|fuel]; [lia|]); cbn [exec.BulkCreate_loop];
    pose proof (length_skipn (Z.to_nat i) l) as Hlen; rewrite Hrem in Hlen.
  - destruct rem; [|cbn in Hn; lia]. cbn in Hlen.
    rewrite (proj2 (Z.ltb_ge _ _)) by lia. reflexivity.
  - destruct rem as [|a rem'].
    { cbn in Hlen. rewrite (proj2 (Z.ltb_ge _ _)) by lia. reflexivity. }
    cbn [length] in Hlen, Hn.
    rewrite (proj2 (Z.ltb_lt _ _)) by lia.
    assert (Hadd : GoInt.add i batchSize = i + batchSize).
    { apply GoIntFacts.wrap_id. unfold GoInt.in_range, GoInt.min_int, GoInt.max_int.
      lia. }
    rewrite Hadd.
    set (batch := firstn (Z.to_nat batchSize) (a :: rem')).
    set (end_ := if i + batchSize >? Z.of_nat (length l)
                 then Z.of_nat (length l) else i + batchSize).
    assert (Hend : i < end_ <= Z.of_nat (length l)
                   /\ Z.to_nat (end_ - i) = length batch).
    { subst end_ batch. rewrite length_firstn. cbn [length].
      destruct (Z.gtb_spec (i + batchSize) (Z.of_nat (length l))); lia. }
    destruct Hend as [Hend Hbatch].
    assert (Hslice : Slice (VSlice (Some l)) i end_ = Some (VSlice (Some batch))).
    { unfold Slice, default, from_option, id.
      rewrite (proj2 (Z.ltb_ge i 0)), (proj2 (Z.ltb_ge end_ i)) by lia.
      destruct (Z.gtb_spec end_ (Z.of_nat (length l))); [lia|]. cbn [orb].
      rewrite Hrem, Hbatch. do 3 f_equal. subst batch.
      rewrite length_firstn. cbn [length].
      destruct (decide (Z.to_nat batchSize <= S (length rem'))%nat).
      - by rewrite Nat.min_l.
      - rewrite Nat.min_r, !firstn_all2; cbn; try done; lia. }
    rewrite Hslice.
    assert (Hsub : GoInt.sub end_ i = end_ - i).
    { apply GoIntFacts.wrap_id. unfold GoInt.in_range, GoInt.min_int, GoInt.max_int.
      lia. }
    rewrite Hsub, Hbatch, (batchFacts.chunks_cons _ Hsize).
    cbn [run_batches]. fold batch.
    destruct (exec.CreateMulti PutMulti ctx kind (repeat Nil (length batch))
                (VSlice (Some batch)) db) as [db' [err|]]; [done|].
    apply IH.
    + rewrite length_skipn. cbn [length]. lia.
    + lia.
    + right. lia.
    + rewrite <- Hrem, skipn_skipn. f_equal. lia.
    + rewrite (batchFacts.chunks_cons _ Hsize) in Hfuel. cbn in Hfuel. lia.
Qed.

(** With a batch size of at least 1, [BulkCreate] returns: it is the
    sequence of calls, one per batch, that stops at the first failure. *)
Lemma BulkCreate_batches fuel db :
  (length (chunks (Z.to_nat batchSize) l) < fuel)%nat ->
  exec.BulkCreate PutMulti fuel ctx kind (VSlice (Some l)) batchSize db
  = (let '(db', err) := run_batches create (chunks (Z.to_nat batchSize) l) db in
     (db', Returns err)).
Proof using batchSize_pos length_bound.
  intros Hfuel. unfold exec.BulkCreate. cbn [Kind_of Len].
  apply (BulkCreate_loop_batches (length l) l); [lia|lia|by left|done|done].
Qed.

End Loop.

(** C8. For a slice of n entities and a batch size b of at least 1,
    [BulkCreate] cuts the slice, in order, into ceil(n / b) contiguous
    batches of b entities, the last one possibly shorter, and issues one
    [CreateMulti] per batch with a nil identifier (hence an incomplete key,
    completed by the store) for every item. The first failing batch ends the
    operation with that batch's error; the store is then what the earlier
    batches and the failing call left, nothing is rolled back and no later
    batch is sent. *)
Theorem BulkCreate_one_CreateMulti_per_batch (l : list value) batchSize db :
  1 <= batchSize <= GoInt.max_int ->
  Z.of_nat (length l) <= 2 ^ 62 ->
  let batches := chunks (Z.to_nat batchSize) l in
  concat batches = l
  /\ Z.of_nat (length batches) = (Z.of_nat (length l) + batchSize - 1) / batchSize
  /\ (forall (k : nat) batch, batches !! k = Some batch ->
        1 <= Z.of_nat (length batch) <= batchSize
        /\ ((S k < length batches)%nat -> Z.of_nat (length batch) = batchSize))
  /\ (forall fuel, (length batches < fuel)%nat ->
        exec.BulkCreate PutMulti fuel ctx kind (VSlice (Some l)) batchSize db
        = (let '(db', err) := run_batches create batches db in
           (db', Returns err)))
  /\ (ctx = ctx_client true -> forall batch db1,
        create batch db1
        = PutMulti db1 (repeat (IncompleteKey kind None) (length batch))
            (VSlice (Some batch)))
  /\ (forall pre batch post db1 db2 err,
        batches = pre ++ batch :: post ->
        run_batches create pre db = (db1, None) ->
        create batch db1 = (db2, Some err) ->
        forall fuel, (length batches < fuel)%nat ->
          exec.BulkCreate PutMulti fuel ctx kind (VSlice (Some l)) batchSize db
          = (db2, Returns (Some err))).
Proof.
  intros Hb Hn batches.
  assert (Hsize : (1 <= Z.to_nat batchSize)%nat) by lia.
  destruct (batchFacts.chunks_sizes _ Hsize (length l) l (le_n _))
    as (Hk & Hlo & Hhi). fold batches in Hk, Hlo, Hhi.
  split; [by apply (batchFacts.concat_chunks _ Hsize (length l))|].
  split.
  { apply (Z.div_unique_pos _ _ _
             (Z.of_nat (length l) + batchSize - 1
              - batchSize * Z.of_nat (length batches))); nia. }
  split.
  { intros k batch Hbatch. destruct (Hk k batch Hbatch) as [H1 H2].
    split; [lia|]. intros Hmore. specialize (H2 Hmore). lia. }
  split; [intros fuel Hfuel; by apply BulkCreate_batches|].
  split.
  { intros -> batch db1. unfold exec.CreateMulti. cbn.
    by rewrite CreateMulti_keys_nil. }
  intros pre batch post db1 db2 err Hsplit Hpre Hfail fuel Hfuel.
  rewrite BulkCreate_batches by done. fold batches.
  rewrite Hsplit, batchFacts.run_batches_app, Hpre. cbn [run_batches].
  by rewrite Hfail.
Qed.

(** C10, as amended. No guard rejects a batch size below 1. On a non-empty
    slice: with a batch size of at least 1 the loop index grows by the batch
    size at every round and [BulkCreate] returns after at most n rounds;
    with batch size 0 the index stays at 0, every round sends an empty
    batch, and [BulkCreate] never returns as long as those calls succeed;
    with a negative batch size the first round panics, the slice bounds
    [0:batchSize] being out of range. *)
Theorem BulkCreate_termination_by_batch_size (l : list value) batchSize db :
  l <> [] ->
  Z.of_nat (length l) <= 2 ^ 62 ->
  GoInt.in_range batchSize ->
  (1 <= batchSize ->
     forall fuel, (length l < fuel)%nat ->
       exists db' err,
         exec.BulkCreate PutMulti fuel ctx kind (VSlice (Some l)) batchSize db
         = (db', Returns err))
  /\ (batchSize = 0 ->
        (forall db1, snd (create [] db1) = None) ->
        forall fuel,
          snd (exec.BulkCreate PutMulti fuel ctx kind (VSlice (Some l))
                 batchSize db) = OutOfFuel)
  /\ (batchSize < 0 ->
        forall fuel,
          exec.BulkCreate PutMulti (S fuel) ctx kind (VSlice (Some l))
            batchSize db = (db, Panics)).
Proof.
  intros Hne Hn [Hlo Hhi]. split; [|split].
  - intros Hb fuel Hfuel.
    assert (Hsize : (1 <= Z.to_nat batchSize)%nat) by lia.
    destruct (batchFacts.chunks_sizes _ Hsize (length l) l (le_n _))
      as (_ & Hc & _).
    rewrite BulkCreate_batches; [|done|done|].
    + destruct (run_batches _ _ _) as [db' err]. by exists db', err.
    + assert (length (chunks (Z.to_nat batchSize) l) <= length l)%nat; [|lia].
      nia.
  - intros -> Hempty fuel. unfold exec.BulkCreate. cbn [Kind_of Len].
    revert db. induction fuel as [|fuel IH]; intros db; [done|].
    cbn [exec.BulkCreate_loop].
    destruct l as [|a l']; [done|].
    rewrite (proj2 (Z.ltb_lt 0 _)) by (cbn [length]; lia).
    change (GoInt.add 0 0) with 0.
    destruct (Z.gtb_spec 0 (Z.of_nat (length (a :: l')))) as [Hgt|_];
      [cbn [length] in Hgt; lia|].
    change (Slice (VSlice (Some (a :: l'))) 0 0) with (Some (VSlice (Some []))).
    change (GoInt.sub 0 0) with 0. change (repeat Nil (Z.to_nat 0)) with (@nil value).
    specialize (Hempty db). cbn [repeat length] in Hempty. cbv iota beta.
    destruct (exec.CreateMulti PutMulti ctx kind [] (VSlice (Some [])) db)
      as [db' [err|]]; [discriminate|].
    apply IH.
  - intros Hneg fuel. unfold exec.BulkCreate. cbn [Kind_of Len exec.BulkCreate_loop].
    destruct l as [|a l']; [done|].
    rewrite (proj2 (Z.ltb_lt 0 _)) by (cbn [length]; lia).
    assert (Hadd : GoInt.add 0 batchSize = batchSize)
      by (apply GoIntFacts.wrap_id; done).
    rewrite Hadd.
    destruct (Z.gtb_spec batchSize (Z.of_nat (length (a :: l')))) as [Hgt|_];
      [cbn [length] in Hgt; lia|].
    unfold Slice. rewrite (proj2 (Z.ltb_lt batchSize 0)) by lia.
    by rewrite orb_true_r.
Qed.

End BulkCreate.

(** Five entities in batches of two, on a store that records its calls:
    three calls, of 2, 2 and 1 incomplete keys; and when the second call
    fails, the first batch stays written and the third is never sent. *)
Lemma BulkCreate_one_CreateMulti_per_batch_witness :
  List.map length (chunks 2 fixtures.five_users) = [2; 2; 1]%nat
  /\ (exists log,
        exec.BulkCreate fixtures.log_PutMulti 4 (ctx_client true) "users"
          (VSlice (Some fixtures.five_users)) 2 [] = (log, Returns None)
        /\ List.map (fun call => (fst call, Len (snd call))) log
           = [([IncompleteKey "users" None; IncompleteKey "users" None], 2);
              ([IncompleteKey "users" None; IncompleteKey "users" None], 2);
              ([IncompleteKey "users" None], 1)])
  /\ exec.BulkCreate fixtures.second_fails_PutMulti 4 (ctx_client true) "users"
       (VSlice (Some fixtures.five_users)) 2 []
     = ([([IncompleteKey "users" None; IncompleteKey "users" None],
          VSlice (Some (firstn 2 fixtures.five_users)))],
        Returns (Some (errors_New "deadline exceeded"))).
Proof.
  assert (H1 : 1 <= 2 <= GoInt.max_int) by (unfold GoInt.max_int; lia).
  assert (H2 : Z.of_nat (length fixtures.five_users) <= 2 ^ 62) by (cbn; lia).
  assert (H3 : (length (chunks (Z.to_nat 2) fixtures.five_users) < 4)%nat)
    by (vm_compute; lia).
  split; [reflexivity|]. split.
  - destruct (BulkCreate_one_CreateMulti_per_batch fixtures.log_PutMulti
                (ctx_client true) "users" fixtures.five_users 2 [] H1 H2)
      as (_ & _ & _ & Hrun & _).
    eexists. split; [rewrite (Hrun 4%nat H3); reflexivity|reflexivity].
  - destruct (BulkCreate_one_CreateMulti_per_batch
                fixtures.second_fails_PutMulti
                (ctx_client true) "users" fixtures.five_users 2 [] H1 H2)
      as (_ & _ & _ & Hrun & _).
    rewrite (Hrun 4%nat H3). reflexivity.
Defined.

Lemma BulkCreate_termination_by_batch_size_witness :
  (forall fuel, (5 < fuel)%nat ->
     exists db' err,
       exec.BulkCreate fixtures.log_PutMulti fuel (ctx_client true) "users"
         (VSlice (Some fixtures.five_users)) 2 [] = (db', Returns err))
  /\ (forall fuel,
        snd (exec.BulkCreate fixtures.log_PutMulti fuel (ctx_client true)
               "users" (VSlice (Some fixtures.five_users)) 0 []) = OutOfFuel)
  /\ (forall fuel,
        exec.BulkCreate fixtures.log_PutMulti (S fuel) (ctx_client true)
          "users" (VSlice (Some fixtures.five_users)) (-1) [] = ([], Panics)).
Proof.
  assert (H1 : fixtures.five_users <> []) by discriminate.
  assert (H2 : Z.of_nat (length fixtures.five_users) <= 2 ^ 62) by (cbn; lia).
  assert (Hr : forall z, -1 <= z <= 2 -> GoInt.in_range z)
    by (unfold GoInt.in_range, GoInt.min_int, GoInt.max_int; lia).
  split; [|split].
  - apply (proj1 (BulkCreate_termination_by_batch_size fixtures.log_PutMulti
                    (ctx_client true) "users" fixtures.five_users 2 []
                    H1 H2 (Hr 2 ltac:(lia)))). lia.
  - apply (proj1 (proj2 (BulkCreate_termination_by_batch_size
                    fixtures.log_PutMulti (ctx_client true) "users"
                    fixtures.five_users 0 [] H1 H2 (Hr 0 ltac:(lia))))).
    + reflexivity.
    + intros db1. reflexivity.
  - apply (proj2 (proj2 (BulkCreate_termination_by_batch_size
                    fixtures.log_PutMulti (ctx_client true) "users"
                    fixtures.five_users (-1) [] H1 H2 (Hr (-1) ltac:(lia))))).
    lia.
Defined.

(** C10, as stated, fails: a batch size of 0 or less does not always keep
    [BulkCreate] from terminating. With batch size -1 the first round
    panics; with batch size 0 and no client in the context the first
    [CreateMulti] fails and [BulkCreate] returns its error. *)
Lemma BulkCreate_non_positive_batch_size_may_stop :
  exec.BulkCreate fixtures.log_PutMulti 1 (ctx_client true) "users"
    (VSlice (Some fixtures.five_users)) (-1) [] = ([], Panics)
  /\ exec.BulkCreate fixtures.log_PutMulti 1 ctx_empty "users"
       (VSlice (Some fixtures.five_users)) 0 []
     = ([], Returns (Some (errors_New "database is not initialized"))).
Proof. split; reflexivity. Qed.

Section Paginate.
Context {CursorT Store : Type}.
Variable DecodeCursor : string -> CursorT + error.
Variable GetAll : Store -> Query CursorT -> list Key * option error.

Lemma add_filters_ok fs : forall (h : heap) b this,
  h !! b = Some this ->
  exec.add_filters b fs h
  = Some (tt, <[b := on_params (fun p => set_Filters (Filters p ++ fs) p) this]> h).
Proof.
  induction fs as [|[f o v] fs IH]; intros h b this Hb; cbn [exec.add_filters].
  - rewrite builderFacts.on_params_Filters_nil. unfold ret. by rewrite insert_id.
  - unfold bind. rewrite (builderFacts.Filter_ok _ _ _ _ _ _ Hb).
    erewrite IH by apply lookup_insert_eq. rewrite insert_insert_eq.
    do 3 f_equal. destruct this as [k []]. unfold on_params, set_Filters; cbn.
    by rewrite <- app_assoc.
Qed.

(** C7. [Paginate] (with a client in the context) builds a fresh builder
    whose limit is [pageSize] and whose offset is [(page - 1) * pageSize],
    computed in Go's [int] and so equal to the mathematical product
    whenever that fits; pages are numbered from 1. Page 1 of size 10 has
    offset 0, page 2 offset 10, and page 0 offset -10: the negative offset
    is what the builder holds, it is not clamped. The builder's filters are
    those of the map, and [Paginate] returns what [Execute] returns on this
    builder; [Build] passes a limit or an offset on to the native query
    only when it is positive. *)
Theorem Paginate_limit_and_offset (h : heap) kindName filters page pageSize db :
  let b := fresh (dom h) in
  let offset := GoInt.mul (GoInt.sub page 1) pageSize in
  exists this,
    exec.Paginate DecodeCursor GetAll (ctx_client true) kindName filters
      page pageSize db h
    = builder.Execute DecodeCursor GetAll b db (<[b := this]> h)
    /\ (<[b := this]> h) !! b = Some this
    /\ kind this = kindName
    /\ Limit (params this) = pageSize
    /\ Offset (params this) = offset
    /\ (GoInt.in_range (page - 1) -> GoInt.in_range ((page - 1) * pageSize) ->
        Offset (params this) = (page - 1) * pageSize)
    /\ (pageSize = 10 ->
        (page = 1 -> Offset (params this) = 0)
        /\ (page = 2 -> Offset (params this) = 10)
        /\ (page = 0 -> Offset (params this) = -10))
    /\ Filters (params this)
       = List.map (fun e => condition_of (fst e) (snd e)) filters
    /\ q_limit (builder.Build_of DecodeCursor this)
       = (if pageSize >? 0 then pageSize else -1)
    /\ q_offset (builder.Build_of DecodeCursor this)
       = (if offset >? 0 then offset else 0).
Proof.
  intros b offset.
  set (fresh_builder :=
         {| kind := ""; params :=
              {| Filters := []; Orders := []; Limit := 0; Offset := 0;
                 Cursor := ""; Select := []; Distinct := false;
                 KeysOnly := false; Ancestor := None; Transaction := false |} |}).
  set (fs := filter.Build (filter.FromMap filter.NewFilter filters)).
  exists (on_params (fun p => set_Filters (Filters p ++ fs) p)
            (on_params (set_Offset offset)
               (on_params (set_Limit pageSize) (set_kind kindName fresh_builder)))).
  split.
  { unfold exec.Paginate. cbn [exec.client_of].
    unfold bind at 1. unfold builder.New, alloc. fold b. fold fresh_builder.
    unfold bind at 1. unfold builder.Kind.
    erewrite builderFacts.assign_ret_ok by apply lookup_insert_eq.
    rewrite insert_insert_eq.
    unfold bind at 1. unfold builder.Limit.
    erewrite builderFacts.assign_ret_ok by apply lookup_insert_eq.
    rewrite insert_insert_eq.
    unfold bind at 1. unfold builder.Offset. fold offset.
    erewrite builderFacts.assign_ret_ok by apply lookup_insert_eq.
    rewrite insert_insert_eq.
    unfold bind at 1. fold fs.
    erewrite add_filters_ok by apply lookup_insert_eq.
    by rewrite insert_insert_eq. }
  split; [apply lookup_insert_eq|].
  split; [reflexivity|]. split; [reflexivity|]. split; [reflexivity|].
  split.
  { intros Hp Hm. cbn. subst offset. unfold GoInt.mul, GoInt.sub.
    by rewrite (GoIntFacts.wrap_id (page - 1)), GoIntFacts.wrap_id. }
  split.
  { intros ->. cbn. subst offset. by repeat split; intros ->. }
  split.
  { cbn. subst fs. unfold filter.Build.
    by rewrite filterFacts.FromMap_conditions. }
  destruct (builderFacts.Build_of_limit_offset DecodeCursor
              (on_params (fun p => set_Filters (Filters p ++ fs) p)
                 (on_params (set_Offset offset)
                    (on_params (set_Limit pageSize)
                       (set_kind kindName fresh_builder))))) as [HL HO].
  split; [exact HL|exact HO].
Qed.

End Paginate.

(** Page 0 of size 10: the builder holds limit 10 and offset -10. *)
Lemma Paginate_limit_and_offset_witness :
  exists this,
    exec.Paginate fixtures.no_cursor fixtures.list_GetAll (ctx_client true)
      "users" [("status", VString "active")] 0 10 fixtures.five_keys ∅
    = builder.Execute fixtures.no_cursor fixtures.list_GetAll 1%positive
        fixtures.five_keys {[ 1%positive := this ]}
    /\ Limit (params this) = 10
    /\ Offset (params this) = -10
    /\ q_offset (builder.Build_of fixtures.no_cursor this) = 0.
Proof.
  destruct (Paginate_limit_and_offset fixtures.no_cursor fixtures.list_GetAll
              ∅ "users" [("status", VString "active")] 0 10 fixtures.five_keys)
    as (this & Hrun & _ & _ & HL & _ & _ & Hex & _ & _ & HO).
  exists this. split; [exact Hrun|]. split; [exact HL|].
  split; [exact (proj2 (proj2 (Hex eq_refl)) eq_refl)|exact HO].
Defined.

End execFacts.

(** ** The repository *)

Module repositoryFacts.
Import spec.
Local Open Scope string_scope.
Local Open Scope list_scope.
Local Open Scope Z_scope.

(** A key that is none of the four reserved ones becomes an equality
    condition on the key as it is written: [applyMapParams] calls [Where],
    it does not look for an operator in the key. *)
Lemma applyMapParams_entry_other (h : heap) b this key v :
  h !! b = Some this ->
  key <> "limit" -> key <> "offset" -> key <> "cursor" -> key <> "order_by" ->
  repository.applyMapParams_entry b (key, v) h
  = Some (tt, <[b := on_params (fun p =>
                 set_Filters (Filters p ++
                   [{| Field := key; Operator := "="; Value := v |}]) p) this]> h).
Proof.
  intros Hb H1 H2 H3 H4. unfold repository.applyMapParams_entry.
  apply String.eqb_neq in H1, H2, H3, H4. rewrite H1, H2, H3, H4.
  unfold bind, builder.Where. by rewrite (builderFacts.Filter_ok _ _ _ _ _ _ Hb).
Qed.

(** A reserved key never becomes a filter. *)
Lemma applyMapParams_entry_reserved (h : heap) b this key v :
  h !! b = Some this ->
  key = "limit" \/ key = "offset" \/ key = "cursor" \/ key = "order_by" ->
  exists this',
    repository.applyMapParams_entry b (key, v) h = Some (tt, <[b := this']> h)
    /\ Filters (params this') = Filters (params this).
Proof.
  intros Hb Hkey. unfold repository.applyMapParams_entry.
  destruct Hkey as [-> | [-> | [-> | ->]]];
    repeat match goal with
           | |- context [String.eqb ?a ?b] =>
               let r := eval vm_compute in (String.eqb a b) in
               change (String.eqb a b) with r
           end; cbv iota;
    match goal with
    | |- context [as_int v] => destruct (as_int v)
    | |- context [as_string v] => destruct (as_string v)
    end;
    try (exists this; unfold ret; by rewrite insert_id);
    eexists; unfold bind at 1;
    unfold builder.Limit, builder.Offset, builder.Cursor, builder.OrderAsc,
      builder.Order;
    rewrite (builderFacts.assign_ret_ok _ _ _ _ Hb); split; done.
Qed.

(** C1 fails on the code. In the map of the repository's own usage example,
    the key "age>=" does not become the condition age >= 18: the builder
    gets an equality condition on a field named "age>=", which [Build]
    sends to the store as the filter "age>= =". The map form of the filter
    normaliser, which [Count], [FindWhere] and [Paginate] use for the same
    kind of map, gives age >= 18. The reserved keys do set the limit and
    the ascending order. *)
Theorem applyMapParams_keeps_the_operator_in_the_field_name :
  exists result h this,
    repository.QueryTyped fixtures.no_cursor fixtures.list_GetAll
      fixtures.ascii_ToLower fixtures.users_repository
      (repository.InMap fixtures.example_params) ∅ = Some (result, h)
    /\ h !! 1%positive = Some this
    /\ Filters (params this)
       = [{| Field := "status"; Operator := "="; Value := VString "active" |};
          {| Field := "age>="; Operator := "="; Value := VInt Wnative 18 |}]
    /\ q_filter (builder.Build_of fixtures.no_cursor this)
       = [("status =", VString "active"); ("age>= =", VInt Wnative 18)]
    /\ Limit (params this) = 10
    /\ Orders (params this)
       = [{| OField := "created_at"; Direction := "asc" |}]
    /\ filter.Build (filter.FromMap filter.NewFilter
                       [("status", VString "active"); ("age>=", VInt Wnative 18)])
       = [{| Field := "status"; Operator := "="; Value := VString "active" |};
          {| Field := "age"; Operator := ">="; Value := VInt Wnative 18 |}].
Proof.
  eexists _, _, _. split; [vm_compute; reflexivity|].
  split; [vm_compute; reflexivity|]. repeat split.
Qed.

End repositoryFacts.

(** * Further properties of the code *)

(** ** [Build], [Count] and [ExecuteWithCursor] *)

Module buildFacts.
Local Open Scope string_scope.
Local Open Scope list_scope.
Local Open Scope Z_scope.

Section Client.
Context {CursorT Store : Type}.
Variable DecodeCursor : string -> CursorT + error.
Variable GetAll : Store -> Query CursorT -> list Key * option error.

Local Abbreviation Build_of := (builder.Build_of DecodeCursor).

(** How [Build] writes an order: a leading "-" for "desc", the bare field
    for every other direction. *)
Local Abbreviation order_str :=
  (fun o : OrderParam =>
     if String.eqb (Direction o) Descending
     then ("-" ++ OField o)%string else OField o).

Lemma fold_Filter_closed l : forall q : Query CursorT,
  fold_left (fun query filter =>
               datastore.Filter query (builder.filterStr filter) (Value filter))
            l q
  = {| q_kind := q_kind q;
       q_filter := q_filter q
                   ++ List.map (fun f => (builder.filterStr f, Value f)) l;
       q_order := q_order q; q_limit := q_limit q; q_offset := q_offset q;
       q_start := q_start q; q_projection := q_projection q;
       q_distinct := q_distinct q; q_keysOnly := q_keysOnly q;
       q_ancestor := q_ancestor q |}.
Proof.
  induction l as [|f l IH]; intros q; cbn [fold_left List.map].
  - rewrite app_nil_r. by destruct q.
  - rewrite IH. cbn. by rewrite <- app_assoc.
Qed.

Lemma fold_Order_closed l : forall q : Query CursorT,
  fold_left (fun query order =>
               if String.eqb (Direction order) Descending
               then datastore.Order query ("-" ++ OField order)%string
               else datastore.Order query (OField order)) l q
  = {| q_kind := q_kind q; q_filter := q_filter q;
       q_order := q_order q ++ List.map order_str l;
       q_limit := q_limit q; q_offset := q_offset q;
       q_start := q_start q; q_projection := q_projection q;
       q_distinct := q_distinct q; q_keysOnly := q_keysOnly q;
       q_ancestor := q_ancestor q |}.
Proof.
  induction l as [|o l IH]; intros q; cbn [fold_left List.map].
  - rewrite app_nil_r. by destruct q.
  - rewrite IH. destruct (String.eqb (Direction o) Descending); cbn;
      by rewrite <- app_assoc.
Qed.

(** The native query [Build] produces, field by field. *)
Lemma Build_of_closed this :
  Build_of this
  = {| q_kind := kind this;
       q_filter := List.map (fun f => (builder.filterStr f, Value f))
                            (Filters (params this));
       q_order := List.map order_str (Orders (params this));
       q_limit := if Limit (params this) >? 0 then Limit (params this) else -1;
       q_offset := if Offset (params this) >? 0 then Offset (params this) else 0;
       q_start := if String.eqb (Cursor (params this)) "" then None
                  else match DecodeCursor (Cursor (params this)) with
                       | inl c => Some c
                       | inr _ => None
                       end;
       q_projection := Select (params this);
       q_distinct := Distinct (params this);
       q_keysOnly := KeysOnly (params this);
       q_ancestor := match Ancestor (params this) with
                     | Some a =>
                         match ID a with
                         | VString id => Some (NameKey (AKind a) id None)
                         | VInt W64 id => Some (IDKey (AKind a) id None)
                         | _ => None
                         end
                     | None => None
                     end |}.
Proof.
  unfold builder.Build_of. rewrite fold_Filter_closed, fold_Order_closed.
  destruct this as [k [fs os lim off cur sel dis ko anc tx]]; cbn.
  destruct (lim >? 0), (off >? 0), (String.eqb cur ""), (DecodeCursor cur),
    sel, dis, ko; cbn; try reflexivity;
    destruct anc as [[ak [ | |[]| | | | | | | | | | | | | | | | | ]]|]; reflexivity.
Qed.

(** X1. [Build] keeps the kind, and keeps the filters and the orders in the
    order in which the builder holds them: the i-th native filter is the
    i-th condition, written "field operator", with its value; the i-th
    native order is the i-th order's field, with "-" put before it exactly
    when its direction is "desc", and the field as it is for every other
    direction, valid or not. The direction itself is not passed on: an
    order on a field written with a leading "-", in a direction other than
    "desc", builds the native query of the descending order on the rest of
    the name. *)
Theorem Build_keeps_filters_and_orders_in_sequence this :
  q_kind (Build_of this) = kind this
  /\ q_filter (Build_of this)
     = List.map (fun f => ((Field f ++ " " ++ Operator f)%string, Value f))
                (Filters (params this))
  /\ q_order (Build_of this)
     = List.map (fun o => if String.eqb (Direction o) "desc"
                          then ("-" ++ OField o)%string else OField o)
                (Orders (params this))
  /\ length (q_filter (Build_of this)) = length (Filters (params this))
  /\ length (q_order (Build_of this)) = length (Orders (params this))
  /\ (forall before after field direction,
        direction <> "desc"%string ->
        Build_of (on_params
                    (set_Orders
                       (before
                        ++ {| OField := ("-" ++ field)%string;
                              Direction := direction |} :: after)) this)
        = Build_of (on_params
                      (set_Orders
                         (before
                          ++ {| OField := field; Direction := Descending |}
                             :: after)) this)).
Proof.
  rewrite Build_of_closed. cbn [q_kind q_filter q_order].
  rewrite !length_map. do 5 (split; [reflexivity|]).
  intros before after field direction Hd. rewrite !Build_of_closed.
  destruct this as [k [fs os lim off cur sel dis ko anc tx]].
  unfold on_params, set_Orders.
  cbn [kind params Filters Orders Limit Offset Cursor Select Distinct
       KeysOnly Ancestor].
  f_equal. rewrite !map_app. cbn [List.map OField Direction]. do 2 f_equal.
  apply String.eqb_neq in Hd. unfold Descending. by rewrite Hd.
Qed.

(** X2. What [Build] cannot use it drops without an error, and the native
    query is then the one of a builder on which the parameter was never
    set: a limit or an offset that is not positive, a cursor that does not
    decode, and an ancestor whose identifier is neither a string nor an
    int64 (an [int], for one). *)
Theorem Build_drops_unusable_parameters this :
  (Limit (params this) <= 0 ->
     Build_of this = Build_of (on_params (set_Limit 0) this))
  /\ (Offset (params this) <= 0 ->
        Build_of this = Build_of (on_params (set_Offset 0) this))
  /\ (forall err, DecodeCursor (Cursor (params this)) = inr err ->
        Build_of this = Build_of (on_params (set_Cursor "") this))
  /\ (forall a, Ancestor (params this) = Some a ->
        (forall s, ID a <> VString s) -> (forall n, ID a <> VInt W64 n) ->
        Build_of this = Build_of (on_params (set_Ancestor None) this)).
Proof.
  rewrite !Build_of_closed.
  destruct this as [k [fs os lim off cur sel dis ko anc tx]]; cbn.
  split; [|split; [|split]].
  - intros Hl. destruct (Z.gtb_spec lim 0); [lia|]. reflexivity.
  - intros Ho. destruct (Z.gtb_spec off 0); [lia|]. reflexivity.
  - intros err ->. by destruct (String.eqb cur "").
  - intros a -> Hs Hn.
    destruct (ID a) as [ | |[]| | | | | | | | | | | | | | | | | ] eqn:Hid;
      try reflexivity; first [by destruct (Hs s) | by destruct (Hn n)].
Qed.

(** X3. [Count] asks the store for the query [Execute] would run, turned
    keys-only and otherwise the same (the builder's limit and offset bound
    the count too), and returns the number of keys, or 0 with the store's
    error. *)
Theorem Count_runs_the_keys_only_query (h : heap) b this client :
  h !! b = Some this ->
  Build_of (on_params (set_KeysOnly true) this)
  = datastore.KeysOnly (Build_of this)
  /\ fst <$> builder.Count DecodeCursor GetAll b client h
     = Some (match GetAll client (datastore.KeysOnly (Build_of this)) with
             | (_, Some err) => (0, Some err)
             | (keys, None) => (Z.of_nat (length keys), None)
             end).
Proof.
  intros Hb.
  assert (HK : Build_of (on_params (set_KeysOnly true) this)
               = datastore.KeysOnly (Build_of this)).
  { rewrite !Build_of_closed. by destruct this as [k []]. }
  split; [exact HK|].
  pose proof (builderFacts.Count_ok DecodeCursor GetAll h b this client Hb) as HC.
  cbn zeta in HC. rewrite HC, HK. reflexivity.
Qed.

End Client.

(** Ascending on "-created_at" and descending on "created_at" build the
    same native query, with the one order "-created_at". *)
Lemma Build_keeps_filters_and_orders_in_sequence_witness :
  builder.Build_of fixtures.no_cursor
    (on_params (set_Orders [{| OField := "-created_at";
                               Direction := Ascending |}])
       fixtures.users_builder)
  = builder.Build_of fixtures.no_cursor
      (on_params (set_Orders [{| OField := "created_at";
                                 Direction := Descending |}])
         fixtures.users_builder)
  /\ q_order (builder.Build_of fixtures.no_cursor
                (on_params (set_Orders [{| OField := "-created_at";
                                           Direction := Ascending |}])
                   fixtures.users_builder))
     = ["-created_at"%string].
Proof.
  destruct (Build_keeps_filters_and_orders_in_sequence
              fixtures.no_cursor fixtures.users_builder)
    as (_ & _ & _ & _ & _ & H).
  split; [|reflexivity].
  apply (H [] [] "created_at"%string Ascending). discriminate.
Defined.

Lemma Build_drops_unusable_parameters_witness :
  let this := on_params (fun p =>
                set_Ancestor (Some {| AKind := "teams"; ID := VInt Wnative 7 |})
                  (set_Cursor "garbage" (set_Offset (-10) (set_Limit (-1) p))))
                fixtures.users_builder in
  builder.Build_of fixtures.no_cursor this = datastore.NewQuery "users"
  /\ builder.Build_of fixtures.no_cursor this
     = builder.Build_of fixtures.no_cursor (on_params (set_Ancestor None) this).
Proof.
  intros this. split; [reflexivity|].
  apply (proj2 (proj2 (proj2
           (Build_drops_unusable_parameters fixtures.no_cursor this)))
           {| AKind := "teams"; ID := VInt Wnative 7 |});
    [reflexivity|discriminate|discriminate].
Defined.

Lemma Count_runs_the_keys_only_query_witness :
  let this := on_params (set_Limit 3) fixtures.users_builder in
  let h : heap := {[ 1%positive := this ]} in
  fst <$> builder.Count fixtures.no_cursor fixtures.list_GetAll 1%positive
            fixtures.five_keys h
  = Some (3, None).
Proof.
  intros this h.
  rewrite (proj2 (Count_runs_the_keys_only_query fixtures.no_cursor
                    fixtures.list_GetAll h 1%positive this fixtures.five_keys
                    eq_refl)).
  reflexivity.
Defined.

Section Iterate.
Context {CursorT Store : Type}.
Variable DecodeCursor : string -> CursorT + error.
Variable EncodeCursor : CursorT -> string.
Variable zeroCursor : CursorT.
Variable Run : Store -> Query CursorT -> list (IterStep CursorT).

Local Abbreviation loop := (@builder.ExecuteWithCursor_loop CursorT).
Local Abbreviation ok_steps := (List.map (fun c : CursorT => NextOK (inl c))).

Lemma last_nonempty_default {A} (l : list A) : forall x d d',
  List.last (x :: l) d = List.last (x :: l) d'.
Proof.
  induction l as [|y l IH]; intros x d d'; [done|].
  change (List.last (y :: l) d = List.last (y :: l) d'). apply IH.
Qed.

Lemma loop_ok cursors : forall count lastCursor,
  0 <= count ->
  count + Z.of_nat (length cursors) <= GoInt.max_int ->
  loop (ok_steps cursors) count lastCursor
  = inl (count + Z.of_nat (length cursors), List.last cursors lastCursor).
Proof.
  induction cursors as [|c cursors IH]; intros count lastCursor H0 Hmax.
  - cbn. do 2 f_equal. lia.
  - cbn [List.map builder.ExecuteWithCursor_loop length] in *.
    assert (Hadd : GoInt.add count 1 = count + 1).
    { apply GoIntFacts.wrap_id.
      unfold GoInt.in_range, GoInt.min_int, GoInt.max_int in *. lia. }
    rewrite Hadd, IH by lia. do 2 f_equal; [lia|].
    destruct cursors as [|c' cursors]; [done|].
    change (List.last (c' :: cursors) c = List.last (c' :: cursors) lastCursor).
    apply last_nonempty_default.
Qed.

Lemma loop_error cursors bad err rest : forall count lastCursor,
  bad = NextErr err /\ is_iterator_Done err = false
  \/ bad = NextOK (inr err) ->
  loop (ok_steps cursors ++ bad :: rest) count lastCursor = inr err.
Proof.
  induction cursors as [|c cursors IH]; intros count lastCursor Hbad.
  - destruct Hbad as [[-> Hd] | ->]; cbn; [by rewrite Hd|done].
  - cbn. by apply IH.
Qed.

Lemma loop_Done cursors rest : forall count lastCursor,
  loop (ok_steps cursors ++ NextErr iterator_Done :: rest) count lastCursor
  = loop (ok_steps cursors) count lastCursor.
Proof.
  induction cursors as [|c cursors IH]; intros count lastCursor.
  - reflexivity.
  - cbn. apply IH.
Qed.

(** X4. [ExecuteWithCursor] walks the iterator until [Next] answers
    [iterator.Done], at the end of the results or before. For the entities
    walked until then, all steps succeeding, the result counts them,
    [HasMore] is [Total == Limit && Limit > 0], and [NextCursor] is the
    encoding of the cursor taken after the last entity exactly when
    [HasMore] holds, and empty otherwise. The first step that fails
    before, in [Next] with an error other than [iterator.Done] or in
    [Cursor] with any error, ends the call with that error and no
    result. The builder is left as it was. *)
Theorem ExecuteWithCursor_counts_and_keeps_the_last_cursor
    (h : heap) b this client cursors :
  h !! b = Some this ->
  Z.of_nat (length cursors) <= GoInt.max_int ->
  (Run client (builder.Build_of DecodeCursor this) = ok_steps cursors ->
   let n := Z.of_nat (length cursors) in
   let hasMore := (n =? Limit (params this)) && (Limit (params this) >? 0) in
   builder.ExecuteWithCursor DecodeCursor EncodeCursor zeroCursor Run b client h
   = Some ((Some {| NextCursor :=
                      if hasMore
                      then EncodeCursor (List.last cursors zeroCursor) else "";
                    HasMore := hasMore; Total := n |}, None), h))
  /\ (forall rest,
        Run client (builder.Build_of DecodeCursor this)
        = ok_steps cursors ++ NextErr iterator_Done :: rest ->
        let n := Z.of_nat (length cursors) in
        let hasMore := (n =? Limit (params this)) && (Limit (params this) >? 0) in
        builder.ExecuteWithCursor DecodeCursor EncodeCursor zeroCursor Run b
          client h
        = Some ((Some {| NextCursor :=
                           if hasMore
                           then EncodeCursor (List.last cursors zeroCursor)
                           else "";
                         HasMore := hasMore; Total := n |}, None), h))
  /\ (forall bad err rest,
        bad = NextErr err /\ is_iterator_Done err = false
        \/ bad = NextOK (inr err) ->
        Run client (builder.Build_of DecodeCursor this)
        = ok_steps cursors ++ bad :: rest ->
        builder.ExecuteWithCursor DecodeCursor EncodeCursor zeroCursor Run b
          client h
        = Some ((None, Some err), h)).
Proof.
  intros Hb Hmax.
  assert (Hres : forall it,
    Run client (builder.Build_of DecodeCursor this) = it ->
    builder.ExecuteWithCursor_loop it 0 zeroCursor
    = inl (Z.of_nat (length cursors), List.last cursors zeroCursor) ->
    let n := Z.of_nat (length cursors) in
    let hasMore := (n =? Limit (params this)) && (Limit (params this) >? 0) in
    builder.ExecuteWithCursor DecodeCursor EncodeCursor zeroCursor Run b client h
    = Some ((Some {| NextCursor :=
                       if hasMore
                       then EncodeCursor (List.last cursors zeroCursor) else "";
                     HasMore := hasMore; Total := n |}, None), h)).
  { intros it Hrun Hloop n hasMore. subst hasMore.
    unfold builder.ExecuteWithCursor, builder.Build, bind.
    rewrite (builderFacts.load_ok _ _ _ Hb). unfold ret at 1.
    rewrite Hrun, Hloop. rewrite (builderFacts.load_ok _ _ _ Hb). unfold ret.
    fold n. do 4 f_equal.
    destruct (Z.eqb_spec n (Limit (params this))) as [Heq|];
      [|by rewrite andb_false_r].
    destruct (Z.gtb_spec (Limit (params this)) 0) as [Hpos|]; cbn;
      [|by rewrite andb_false_r].
    destruct (Z.gtb_spec n 0); [reflexivity|lia]. }
  split; [|split].
  - intros Hrun. apply (Hres _ Hrun).
    rewrite loop_ok by lia. by rewrite Z.add_0_l.
  - intros rest Hrun. apply (Hres _ Hrun).
    rewrite loop_Done, loop_ok by lia. by rewrite Z.add_0_l.
  - intros bad err rest Hbad Hrun.
    unfold builder.ExecuteWithCursor, builder.Build, bind.
    rewrite (builderFacts.load_ok _ _ _ Hb). unfold ret at 1.
    by rewrite Hrun, (loop_error _ _ _ _ _ _ Hbad).
Qed.

End Iterate.

Lemma ExecuteWithCursor_counts_and_keeps_the_last_cursor_witness :
  let this := on_params (set_Limit 5) fixtures.users_builder in
  let h : heap := {[ 1%positive := this ]} in
  builder.ExecuteWithCursor fixtures.no_cursor fixtures.unit_cursor_string tt
    fixtures.list_Run 1%positive fixtures.five_keys h
  = Some ((Some {| NextCursor := "cursor-token"; HasMore := true; Total := 5 |},
           None), h).
Proof.
  intros this h.
  refine (proj1 (ExecuteWithCursor_counts_and_keeps_the_last_cursor
                   fixtures.no_cursor fixtures.unit_cursor_string tt
                   fixtures.list_Run h 1%positive this fixtures.five_keys
                   [tt; tt; tt; tt; tt] eq_refl _) eq_refl).
  unfold GoInt.max_int. cbn. lia.
Defined.

End buildFacts.

(** ** More on the filter builder *)

Module filterMore.
Import spec.
Local Open Scope string_scope.
Local Open Scope list_scope.
Local Open Scope Z_scope.

Lemma condition_of_operator key v :
  In (Operator (condition_of key v)) six_operators.
Proof.
  unfold condition_of, detect, tokens. cbn [find fst].
  repeat destruct (strings.Contains key _); cbn; tauto.
Qed.

Section FromStruct.
Variable ToLower : string -> string.

(** X5. [FromStruct] is permissive: given anything that is not a struct or a
    pointer to a struct (nil, a nil pointer, a scalar, a map, a slice, a
    pointer to a pointer) it returns the builder as it was, without error
    and without panic. *)
Theorem FromStruct_ignores_what_is_not_a_struct f s :
  Kind_of s <> reflect.Struct ->
  (forall x, s = VPtr (Some x) -> Kind_of x <> reflect.Struct) ->
  filter.FromStruct ToLower f s = Some f.
Proof.
  intros Hs Hp. unfold filter.FromStruct.
  destruct s as [ | |[]|[]| | | | | | | | | |[x|]| | | | | | ]; cbn in *;
    try reflexivity; try congruence.
  specialize (Hp x eq_refl). by destruct (Kind_of x).
Qed.

(** On a field reached through an unexported name [Interface] panics, and
    so does [isZeroValue] on a [time.Time]. *)
Lemma isZeroValue_unexported x :
  filter.isZeroValue {| flagRO := true; val := x |}
  = match x with
    | VTime _ _ => None
    | _ => Some (skipped x)
    end.
Proof.
  destruct x as [ | |w ?|w ?| | | | | |s|l|[l|]|[l|]|[?|]|[?|]| | | | | ];
    try destruct w; try destruct s; try destruct l; reflexivity.
Qed.

(** X6. [FromStruct] panics on the first unexported field that it does not
    skip: a non-zero value in an unexported field, or a [time.Time] in one
    (zero or not), when every field before it is exported. *)
Theorem FromStruct_panics_on_an_unexported_field f ty pre field x post :
  Forall (fun p => PkgPath (fst p) = "") pre ->
  PkgPath field <> "" ->
  skipped x = false \/ (exists sec nsec, x = VTime sec nsec) ->
  filter.FromStruct ToLower f (VStruct ty (pre ++ (field, x) :: post)) = None.
Proof.
  intros Hpre Hfield Hx. unfold filter.FromStruct. cbn [Kind_of struct_fields].
  revert f. induction pre as [|[field0 x0] pre IH]; intros f.
  - cbn [app filter.FromStruct_fields].
    apply String.eqb_neq in Hfield. rewrite Hfield. cbn [negb].
    rewrite isZeroValue_unexported.
    destruct Hx as [Hx | (sec & nsec & ->)]; [|reflexivity].
    destruct x; try reflexivity; cbn in Hx |- *; rewrite ?Hx; reflexivity.
  - apply Forall_cons in Hpre as [H0 Hpre]. cbn [fst] in H0.
    cbn [app filter.FromStruct_fields]. rewrite H0. cbn [String.eqb negb].
    rewrite filterFacts.isZeroValue_exported, filterFacts.Interface_exported.
    destruct (skipped x0); by apply IH.
Qed.

Lemma FromStruct_fields_appends fields : forall f f',
  filter.FromStruct_fields ToLower f fields = Some f' ->
  exists added,
    filter.filters f' = filter.filters f ++ added
    /\ Forall (fun c => Operator c = Equal) added.
Proof.
  induction fields as [|[field x] fields IH]; intros f f';
    cbn [filter.FromStruct_fields].
  - intros [= <-]. exists []. by rewrite app_nil_r.
  - destruct (filter.isZeroValue _) as [[|]|]; [by apply IH| |done].
    destruct (Interface _) as [y|]; [|done]. intros Hrest.
    destruct (IH _ _ Hrest) as (added & Hadd & Hops).
    eexists (_ :: added). split.
    + rewrite Hadd. cbn. by rewrite <- app_assoc.
    + by constructor.
Qed.

Lemma invoke_appends f c f' :
  filter.invoke ToLower f c = Some f' ->
  exists added,
    filter.filters f' = filter.filters f ++ added
    /\ Forall (fun c => In (Operator c) six_operators) added.
Proof.
  destruct c; cbn [filter.invoke];
    try (intros [= <-]; eexists; split; [reflexivity|];
         repeat constructor; cbn; tauto).
  - intros [= <-]. exists
      [{| Field := field; Operator := GreaterThanOrEqual; Value := start |};
       {| Field := field; Operator := LessThanOrEqual; Value := end_ |}].
    split; [cbn; by rewrite <- app_assoc|]. repeat constructor; cbn; tauto.
  - intros [= <-]. eexists
      [{| Field := field; Operator := GreaterThanOrEqual; Value := _ |};
       {| Field := field; Operator := LessThanOrEqual; Value := _ |}].
    split; [cbn; by rewrite <- app_assoc|]. repeat constructor; cbn; tauto.
  - unfold filter.FromStruct.
    assert (Hsame : Some f = Some f' ->
              exists added, filter.filters f' = filter.filters f ++ added
                /\ Forall (fun c => In (Operator c) six_operators) added).
    { intros [= <-]. exists []. by rewrite app_nil_r. }
    assert (Hfields : forall fields,
              filter.FromStruct_fields ToLower f fields = Some f' ->
              exists added, filter.filters f' = filter.filters f ++ added
                /\ Forall (fun c => In (Operator c) six_operators) added).
    { intros fields Hf. destruct (FromStruct_fields_appends _ _ _ Hf)
        as (added & Hadd & Hops).
      exists added. split; [done|]. eapply Forall_impl; [exact Hops|].
      intros c ->. cbn. tauto. }
    destruct s as [ | |[]|[]| | | | | | | | | |[x|]| | | | | | ];
      cbn [Kind_of int_kind uint_kind Elem];
      try exact Hsame; try apply Hfields.
    destruct (Kind_of x); try exact Hsame; apply Hfields.
  - intros [= <-]. eexists. split; [apply filterFacts.FromMap_conditions|].
    apply List.Forall_forall. intros c Hc. apply in_map_iff in Hc as (e & <- & _).
    apply condition_of_operator.
Qed.

(** X7. A filter builder only ever appends, and only conditions with one of
    the six operators: after any chain of its methods that does not panic,
    the conditions it held before are still there, first and in the same
    order, and every condition added carries =, <, <=, >, >= or !=. *)
Theorem filter_chain_appends_well_formed_conditions cs : forall f f',
  filter.chain ToLower f cs = Some f' ->
  exists added,
    filter.Build f' = filter.Build f ++ added
    /\ Forall (fun c => In (Operator c) six_operators) added.
Proof.
  unfold filter.Build.
  induction cs as [|c cs IH]; intros f f'; cbn [filter.chain].
  - intros [= <-]. exists []. by rewrite app_nil_r.
  - destruct (filter.invoke ToLower f c) as [f1|] eqn:Hc; [|done].
    intros Hcs. destruct (invoke_appends _ _ _ Hc) as (a1 & H1 & Hop1).
    destruct (IH _ _ Hcs) as (a2 & H2 & Hop2).
    exists (a1 ++ a2). split; [by rewrite H2, H1, app_assoc|].
    by apply Forall_app.
Qed.

End FromStruct.

Lemma FromStruct_ignores_what_is_not_a_struct_witness :
  filter.FromStruct fixtures.ascii_ToLower filter.NewFilter
    (VPtr (Some (VPtr (Some (fixtures.TestUser "u" "" "" 0 "" (VTime 0 0))))))
  = Some filter.NewFilter.
Proof.
  apply FromStruct_ignores_what_is_not_a_struct; [discriminate|].
  intros x [= <-]. discriminate.
Defined.

(** A non-zero [time.Time] given to [FromStruct] itself: its own fields are
    unexported. *)
Lemma FromStruct_panics_on_an_unexported_field_witness :
  filter.FromStruct fixtures.ascii_ToLower filter.NewFilter
    (VStruct "Audit"
       [(fixtures.exported "Actor" [], VString "");
        ({| Name := "seq"; PkgPath := "main"; Tag := [] |}, VInt Wnative 3)])
  = None.
Proof.
  apply (FromStruct_panics_on_an_unexported_field fixtures.ascii_ToLower
           filter.NewFilter "Audit"
           [(fixtures.exported "Actor" [], VString "")]
           {| Name := "seq"; PkgPath := "main"; Tag := [] |}
           (VInt Wnative 3) []).
  - repeat constructor.
  - discriminate.
  - by left.
Defined.

Lemma filter_chain_appends_well_formed_conditions_witness :
  exists added,
    filter.Build
      (filter.FromMap
         (filter.Between (filter.Equal filter.NewFilter "status" (VString "a"))
            "age" (VInt Wnative 18) (VInt Wnative 65))
         [("score>", VInt Wnative 3)])
    = [{| Field := "status"; Operator := "="; Value := VString "a" |}] ++ added
    /\ Forall (fun c => In (Operator c) six_operators) added.
Proof.
  apply (filter_chain_appends_well_formed_conditions fixtures.ascii_ToLower
           [filter.CallBetween "age" (VInt Wnative 18) (VInt Wnative 65);
            filter.CallFromMap [("score>", VInt Wnative 3)]]
           (filter.Equal filter.NewFilter "status" (VString "a"))).
  reflexivity.
Defined.

End filterMore.

(** ** More on the repository *)

Module repositoryMore.
Import spec.
Local Open Scope string_scope.
Local Open Scope list_scope.
Local Open Scope Z_scope.

Lemma last_omap_cons {A B} (f : A -> option B) a l d :
  default d (last (omap f (a :: l)))
  = default (default d (f a)) (last (omap f l)).
Proof.
  cbn. destruct (f a) as [x|]; cbn; [|done].
  rewrite last_cons. by destruct (last (omap f l)).
Qed.

Lemma params_after_nil p : params_after_map [] p = p.
Proof. destruct p. unfold params_after_map; cbn. by rewrite !app_nil_r. Qed.

Lemma applyMapParams_entry_ok (h : heap) b this e :
  h !! b = Some this ->
  repository.applyMapParams_entry b e h
  = Some (tt, <[b := on_params (params_after_map [e]) this]> h).
Proof.
  intros Hb. destruct e as [key v]. unfold repository.applyMapParams_entry.
  assert (Hsame : forall this', this' = this ->
            ret tt h = Some (tt, <[b := this']> h)).
  { intros ? ->. unfold ret. by rewrite insert_id. }
  unfold on_params, params_after_map, entry_limit, entry_offset, entry_cursor,
    entry_order, entry_filter, reserved. cbn [fst snd omap list_omap].
  destruct (String.eqb key "limit") eqn:H1.
  { apply String.eqb_eq in H1 as ->. cbn.
    destruct (as_int v); cbn.
    - unfold bind at 1. unfold builder.Limit.
      rewrite (builderFacts.assign_ret_ok _ _ _ _ Hb). unfold ret.
      do 3 f_equal. destruct this as [k []]. cbn. by rewrite !app_nil_r.
    - apply Hsame. destruct this as [k []]. cbn. by rewrite !app_nil_r. }
  destruct (String.eqb key "offset") eqn:H2.
  { apply String.eqb_eq in H2 as ->. cbn.
    destruct (as_int v); cbn.
    - unfold bind at 1. unfold builder.Offset.
      rewrite (builderFacts.assign_ret_ok _ _ _ _ Hb). unfold ret.
      do 3 f_equal. destruct this as [k []]. cbn. by rewrite !app_nil_r.
    - apply Hsame. destruct this as [k []]. cbn. by rewrite !app_nil_r. }
  destruct (String.eqb key "cursor") eqn:H3.
  { apply String.eqb_eq in H3 as ->. cbn.
    destruct (as_string v); cbn.
    - unfold bind at 1. unfold builder.Cursor.
      rewrite (builderFacts.assign_ret_ok _ _ _ _ Hb). unfold ret.
      do 3 f_equal. destruct this as [k []]. cbn. by rewrite !app_nil_r.
    - apply Hsame. destruct this as [k []]. cbn. by rewrite !app_nil_r. }
  destruct (String.eqb key "order_by") eqn:H4.
  { apply String.eqb_eq in H4 as ->. cbn.
    destruct (as_string v); cbn.
    - unfold bind at 1. unfold builder.OrderAsc, builder.Order.
      rewrite (builderFacts.assign_ret_ok _ _ _ _ Hb). unfold ret.
      do 3 f_equal. destruct this as [k []]. cbn. by rewrite !app_nil_r.
    - apply Hsame. destruct this as [k []]. cbn. by rewrite !app_nil_r. }
  cbn. unfold bind at 1. unfold builder.Where.
  rewrite (builderFacts.Filter_ok _ _ _ _ _ _ Hb). unfold ret.
  do 3 f_equal. destruct this as [k []]. cbn. by rewrite !app_nil_r.
Qed.

Lemma params_after_cons e m p :
  params_after_map m (params_after_map [e] p) = params_after_map (e :: m) p.
Proof.
  unfold params_after_map. destruct p. cbn [Filters Orders Limit Offset Cursor
    set_Filters set_Orders set_Limit set_Offset set_Cursor].
  rewrite !(last_omap_cons _ e m).
  assert (Happ : forall {B} (f : string * value -> option B),
            omap f (e :: m) = omap f [e] ++ omap f m).
  { intros B f. cbn. by destruct (f e). }
  rewrite (Happ _ entry_filter), (Happ _ entry_order), !app_assoc.
  assert (Hone : forall {B} (f : string * value -> option B) (d : B),
            default d (last (omap f [e])) = default d (f e)).
  { intros B f d. cbn. by destruct (f e). }
  by rewrite !Hone.
Qed.

(** The builder after [applyMapParams], in closed form. *)
Lemma applyMapParams_ok m : forall (h : heap) b this,
  h !! b = Some this ->
  repository.applyMapParams b m h
  = Some (tt, <[b := on_params (params_after_map m) this]> h).
Proof.
  induction m as [|e m IH]; intros h b this Hb; cbn [repository.applyMapParams].
  - unfold ret, on_params. rewrite params_after_nil.
    rewrite insert_id; [done|]. by destruct this.
  - unfold bind. rewrite (applyMapParams_entry_ok _ _ _ _ Hb).
    erewrite IH by apply lookup_insert_eq. rewrite insert_insert_eq.
    do 3 f_equal. unfold on_params. cbn. by rewrite params_after_cons.
Qed.

(** In a map (no key twice) at most one entry sets a parameter that goes
    by one key. *)
Lemma at_most_one_setter {B} (f : string * value -> option B) key m :
  (forall e x, f e = Some x -> fst e = key) ->
  NoDup (m.*1) ->
  (length (omap f m) <= 1)%nat.
Proof.
  intros Hkey. induction m as [|e m IH]; intros Hnd; [cbn; lia|].
  apply NoDup_cons in Hnd as [Hnotin Hnd]. cbn.
  destruct (f e) as [x|] eqn:He; [|by apply IH].
  assert (Hnil : omap f m = []).
  { clear IH Hnd. induction m as [|e' m IHm]; [done|]. cbn.
    apply not_elem_of_cons in Hnotin as [Hne Hnotin].
    destruct (f e') as [x'|] eqn:He'; [|by apply IHm].
    destruct Hne. by rewrite (Hkey _ _ He), (Hkey _ _ He'). }
  rewrite Hnil. cbn. lia.
Qed.

Lemma same_single_setter {B} (f : string * value -> option B) key m m' :
  (forall e x, f e = Some x -> fst e = key) ->
  NoDup (m.*1) -> m ≡ₚ m' ->
  omap f m = omap f m'.
Proof.
  intros Hkey Hnd Hperm.
  pose proof (at_most_one_setter f key m Hkey Hnd) as Hlen.
  assert (Hp : omap f m ≡ₚ omap f m') by (by rewrite Hperm).
  destruct (omap f m) as [|x [|y l]]; cbn in Hlen; [| |lia].
  - by apply Permutation_nil_l in Hp.
  - by apply Permutation_singleton_l in Hp.
Qed.

Lemma forallb_Permutation {A} (p : A -> bool) l l' :
  l ≡ₚ l' -> forallb p l = forallb p l'.
Proof.
  induction 1 as [|x l l' _ IH|x y l|l l' l'' _ IH1 _ IH2]; cbn.
  - done.
  - by rewrite IH.
  - by rewrite !andb_assoc, (andb_comm (p y)).
  - by rewrite IH1.
Qed.

(** X8. The order in which the runtime walks the map given to [Query] or
    [QueryTyped] only permutes the filters. Whatever the order, the builder
    ends with the same limit, offset, cursor and orders and the same set of
    filter conditions, so every entity matches the one native query exactly
    when it matches the other. *)
Theorem applyMapParams_order_only_permutes_the_filters
    (h : heap) b this (m m' : list (string * value)) :
  h !! b = Some this ->
  NoDup (m.*1) ->
  m ≡ₚ m' ->
  exists f f',
    repository.applyMapParams b m h = Some (tt, <[b := f]> h)
    /\ repository.applyMapParams b m' h = Some (tt, <[b := f']> h)
    /\ Filters (params f) ≡ₚ Filters (params f')
    /\ on_params (set_Filters []) f = on_params (set_Filters []) f'
    /\ forall (CursorT Entity : Type) (dc : string -> CursorT + error)
              (satisfies : Entity -> string * value -> bool) e,
         matches satisfies e (builder.Build_of dc f)
         = matches satisfies e (builder.Build_of dc f').
Proof.
  intros Hb Hnd Hperm.
  exists (on_params (params_after_map m) this),
         (on_params (params_after_map m') this).
  split; [by apply applyMapParams_ok|]. split; [by apply applyMapParams_ok|].
  assert (HL : omap entry_limit m = omap entry_limit m').
  { apply (same_single_setter _ "limit"); [|done|done].
    intros e x. unfold entry_limit.
    destruct (String.eqb_spec (fst e) "limit"); [done|discriminate]. }
  assert (HO : omap entry_offset m = omap entry_offset m').
  { apply (same_single_setter _ "offset"); [|done|done].
    intros e x. unfold entry_offset.
    destruct (String.eqb_spec (fst e) "offset"); [done|discriminate]. }
  assert (HC : omap entry_cursor m = omap entry_cursor m').
  { apply (same_single_setter _ "cursor"); [|done|done].
    intros e x. unfold entry_cursor.
    destruct (String.eqb_spec (fst e) "cursor"); [done|discriminate]. }
  assert (HR : omap entry_order m = omap entry_order m').
  { apply (same_single_setter _ "order_by"); [|done|done].
    intros e x. unfold entry_order.
    destruct (String.eqb_spec (fst e) "order_by"); [done|discriminate]. }
  assert (HF : Filters (params (on_params (params_after_map m) this))
               ≡ₚ Filters (params (on_params (params_after_map m') this))).
  { cbn. by rewrite Hperm. }
  split; [exact HF|]. split.
  { unfold on_params, params_after_map. cbn. by rewrite HL, HO, HC, HR. }
  intros CursorT Entity dc satisfies e. unfold matches.
  rewrite !(builderFacts.Build_of_filter dc).
  apply forallb_Permutation. by apply Permutation_map.
Qed.

Lemma applyMapParams_order_only_permutes_the_filters_witness :
  let h : heap := {[ 1%positive := fixtures.users_builder ]} in
  exists f f',
    repository.applyMapParams 1%positive fixtures.example_params h
    = Some (tt, <[1%positive := f]> h)
    /\ repository.applyMapParams 1%positive (rev fixtures.example_params) h
       = Some (tt, <[1%positive := f']> h)
    /\ Filters (params f) ≡ₚ Filters (params f')
    /\ on_params (set_Filters []) f = on_params (set_Filters []) f'.
Proof.
  intros h.
  destruct (applyMapParams_order_only_permutes_the_filters h 1%positive
              fixtures.users_builder fixtures.example_params
              (rev fixtures.example_params))
    as (f & f' & H1 & H2 & H3 & H4 & _).
  - reflexivity.
  - compute_done.
  - apply Permutation_rev.
  - exists f, f'. by repeat split.
Defined.

(** X9. On a map whose keys are plain field names (none of the four
    reserved keys, no operator token), the two readings of a map agree:
    [applyMapParams], behind [Query] and [QueryTyped], leaves the builder
    exactly as the [FromMap] loop does, behind [Count], [FindWhere],
    [FindOne], [Paginate] and [BulkDelete]. They part on a reserved key,
    which for [FromMap] is an ordinary field to filter on. *)
Theorem plain_map_reads_the_same_on_both_paths (h : heap) b this m :
  h !! b = Some this ->
  Forall (fun e => reserved (fst e) = false /\ detect (fst e) = None) m ->
  repository.applyMapParams b m h
  = exec.add_filters b (filter.Build (filter.FromMap filter.NewFilter m)) h.
Proof.
  intros Hb Hplain.
  rewrite (applyMapParams_ok _ _ _ _ Hb), (execFacts.add_filters_ok _ _ _ _ Hb).
  do 3 f_equal. unfold filter.Build.
  rewrite filterFacts.FromMap_conditions. cbn [filter.filters filter.NewFilter app].
  assert (HF : omap entry_filter m
               = List.map (fun e => condition_of (fst e) (snd e)) m
            /\ omap entry_limit m = [] /\ omap entry_offset m = []
            /\ omap entry_cursor m = [] /\ omap entry_order m = []).
  { induction Hplain as [|[k v] m [Hres Hdet] _ (IH1 & IH2 & IH3 & IH4 & IH5)];
      [done|].
    cbn [fst snd] in *.
    assert (E1 : entry_filter (k, v)
                 = Some {| Field := k; Operator := Equal; Value := v |})
      by (unfold entry_filter; cbn [fst snd]; by rewrite Hres).
    unfold reserved in Hres.
    apply orb_false_iff in Hres as [Hres H4].
    apply orb_false_iff in Hres as [Hres H3].
    apply orb_false_iff in Hres as [H1 H2].
    assert (E2 : entry_limit (k, v) = None)
      by (unfold entry_limit; cbn [fst snd]; by rewrite H1).
    assert (E3 : entry_offset (k, v) = None)
      by (unfold entry_offset; cbn [fst snd]; by rewrite H2).
    assert (E4 : entry_cursor (k, v) = None)
      by (unfold entry_cursor; cbn [fst snd]; by rewrite H3).
    assert (E5 : entry_order (k, v) = None)
      by (unfold entry_order; cbn [fst snd]; by rewrite H4).
    cbn [omap list_omap List.map fst snd].
    rewrite E1, E2, E3, E4, E5. unfold condition_of at 1. rewrite Hdet.
    split; [f_equal; exact IH1|].
    split; [exact IH2|]. split; [exact IH3|]. split; [exact IH4|exact IH5]. }
  destruct HF as (HF & HL & HO & HC & HR).
  unfold on_params, params_after_map. rewrite HF, HL, HO, HC, HR.
  destruct this as [k []]. cbn. by rewrite app_nil_r.
Qed.

Lemma plain_map_reads_the_same_on_both_paths_witness :
  let h : heap := {[ 1%positive := fixtures.users_builder ]} in
  let m := [("status", VString "active"); ("age", VInt Wnative 18)] in
  repository.applyMapParams 1%positive m h
  = exec.add_filters 1%positive
      (filter.Build (filter.FromMap filter.NewFilter m)) h.
Proof.
  intros h m.
  apply (plain_map_reads_the_same_on_both_paths h 1%positive
           fixtures.users_builder m); [reflexivity|].
  repeat constructor.
Defined.

Lemma when_set_ok (h : heap) b this (c : bool) f :
  h !! b = Some this ->
  (if c then do _ <- (do _ <- update b (on_params f); ret b); ret tt
   else ret tt) h
  = Some (tt, <[b := on_params (if c then f else fun q => q) this]> h).
Proof.
  intros Hb. destruct c.
  - unfold bind at 1. by rewrite (builderFacts.assign_ret_ok _ _ _ _ Hb).
  - unfold ret. rewrite insert_id; [done|]. rewrite Hb. by destruct this.
Qed.

Lemma add_orders_ok b os : forall (h : heap) this,
  h !! b = Some this ->
  (fix orders (os : list OrderParam) : M unit :=
     match os with
     | [] => ret tt
     | o :: os' =>
         do _ <- builder.Order b (OField o) (Direction o); orders os'
     end) os h
  = Some (tt, <[b := on_params (fun q => set_Orders (Orders q ++ os) q) this]> h).
Proof.
  induction os as [|[f d] os IH]; intros h this Hb.
  - unfold ret. rewrite insert_id; [done|]. rewrite Hb.
    destruct this as [k []]. unfold on_params, set_Orders; cbn.
    by rewrite app_nil_r.
  - unfold bind at 1. unfold builder.Order.
    rewrite (builderFacts.assign_ret_ok _ _ _ _ Hb).
    erewrite IH by apply lookup_insert_eq. rewrite insert_insert_eq.
    do 3 f_equal. destruct this as [k []]. unfold on_params, set_Orders; cbn.
    by rewrite <- app_assoc.
Qed.

(** The builder after [applyQueryParams], in closed form. *)
Lemma applyQueryParams_ok (h : heap) b this p :
  h !! b = Some this ->
  repository.applyQueryParams b p h
  = Some (tt, <[b := on_params (params_after_query p) this]> h).
Proof.
  intros Hb. unfold repository.applyQueryParams.
  unfold bind at 1. rewrite (execFacts.add_filters_ok _ _ _ _ Hb).
  unfold bind at 1. erewrite add_orders_ok by apply lookup_insert_eq.
  rewrite insert_insert_eq.
  unfold builder.Limit, builder.Offset, builder.Cursor, builder.Select,
    builder.Distinct, builder.KeysOnly, builder.Ancestor.
  do 6 (unfold bind at 1; erewrite when_set_ok by apply lookup_insert_eq;
        rewrite insert_insert_eq).
  destruct this as [k q]. unfold on_params, params_after_query. cbn [params kind].
  destruct (Ancestor p) as [a|].
  - unfold bind at 1. erewrite builderFacts.assign_ret_ok by apply lookup_insert_eq.
    rewrite insert_insert_eq. unfold ret, on_params. cbn [params kind].
    do 4 f_equal.
    by destruct (Limit p >? 0), (Offset p >? 0),
      (negb (String.eqb (Cursor p) "")), (Z.of_nat (length (Select p)) >? 0),
      (Distinct p), (KeysOnly p).
  - unfold ret. do 4 f_equal.
    by destruct (Limit p >? 0), (Offset p >? 0),
      (negb (String.eqb (Cursor p) "")), (Z.of_nat (length (Select p)) >? 0),
      (Distinct p), (KeysOnly p).
Qed.

Lemma params_after_query_fields p q :
  let r := params_after_query p q in
  Filters r = Filters q ++ Filters p /\
  Orders r = Orders q ++ Orders p /\
  Limit r = (if Limit p >? 0 then Limit p else Limit q) /\
  Offset r = (if Offset p >? 0 then Offset p else Offset q) /\
  Cursor r = (if String.eqb (Cursor p) "" then Cursor q else Cursor p) /\
  Select r = (match Select p with [] => Select q | _ => Select p end) /\
  Distinct r = (if Distinct p then true else Distinct q) /\
  KeysOnly r = (if KeysOnly p then true else KeysOnly q) /\
  Ancestor r = (match Ancestor p with Some a => Some a | None => Ancestor q end).
Proof.
  unfold params_after_query.
  destruct p as [fs os lim off cur sel dis ko anc tx].
  cbn [Filters Orders Limit Offset Cursor Select Distinct KeysOnly Ancestor].
  destruct (lim >? 0), (off >? 0), (String.eqb cur ""), sel, dis, ko,
    anc as [[ak aid]|]; repeat split.
Qed.

Section Client.
Context {CursorT Store : Type}.
Variable DecodeCursor : string -> CursorT + error.
Variable GetAll : Store -> Query CursorT -> list Key * option error.
Variable ToLower : string -> string.

Lemma Build_of_params_after_query k p :
  builder.Build_of DecodeCursor
    {| kind := k;
       params := params_after_query p
                   {| Filters := []; Orders := []; Limit := 0; Offset := 0;
                      Cursor := ""; Select := []; Distinct := false;
                      KeysOnly := false; Ancestor := None;
                      Transaction := false |} |}
  = builder.Build_of DecodeCursor {| kind := k; params := p |}.
Proof.
  rewrite !buildFacts.Build_of_closed. cbn [kind params].
  match goal with |- context [params_after_query p ?q] =>
    destruct (params_after_query_fields p q)
      as (-> & -> & -> & -> & -> & -> & -> & -> & ->) end.
  destruct p as [fs os lim off cur sel dis ko anc tx].
  cbn [Filters Orders Limit Offset Cursor Select Distinct KeysOnly Ancestor app].
  f_equal.
  - by destruct (Z.gtb_spec lim 0) as [H|H]; [rewrite (proj2 (Z.gtb_gt _ _)) by lia|].
  - by destruct (Z.gtb_spec off 0) as [H|H]; [rewrite (proj2 (Z.gtb_gt _ _)) by lia|].
  - destruct (String.eqb cur "") eqn:Hc; [reflexivity|]. by rewrite Hc.
  - by destruct sel.
  - by destruct dis.
  - by destruct ko.
  - by destruct anc.
Qed.

(** X10. [QueryTyped] with an explicit [QueryParams] returns exactly what
    [Execute] returns on a builder of the repository's kind that holds these
    parameters as they are: copying them one by one through the builder's
    methods loses nothing that the query or the pagination result depends
    on. *)
Theorem QueryTyped_runs_explicit_params_as_given
    (h : heap) (r : repository.BaseRepository Store) p :
  let b := fresh (dom h) in
  fst <$> repository.QueryTyped DecodeCursor GetAll ToLower r
            (repository.InQueryParams p) h
  = fst <$> builder.Execute DecodeCursor GetAll b (repository.client r)
              (<[b := {| kind := repository.kind r; params := p |}]> h).
Proof.
  intros b. unfold repository.QueryTyped.
  unfold bind at 1. unfold builder.New, alloc. fold b.
  unfold bind at 1. unfold builder.Kind.
  erewrite builderFacts.assign_ret_ok by apply lookup_insert_eq.
  rewrite insert_insert_eq.
  unfold bind at 1. erewrite applyQueryParams_ok by apply lookup_insert_eq.
  rewrite insert_insert_eq.
  erewrite !builderFacts.Execute_ok by apply lookup_insert_eq.
  cbn [fmap option_fmap option_map fst].
  unfold on_params, set_kind. cbn [kind params].
  rewrite Build_of_params_after_query.
  destruct (GetAll _ _) as [keys [err|]]; [done|]. do 4 f_equal.
  match goal with |- context [params_after_query p ?q] =>
    destruct (params_after_query_fields p q)
      as (_ & _ & -> & _) end.
  cbn [Limit].
  destruct (Limit p >? 0) eqn:H; rewrite ?H; [reflexivity|].
  cbn [Z.gtb Z.compare]. by rewrite !andb_false_r.
Qed.

(** X24. [QueryTyped] is [Execute] on one new builder of the repository's
    kind, against the repository's own client. For a map the builder holds
    what the loop of [applyMapParams] leaves: the filters and orders of the
    entries in the order of the loop and, for limit, offset and cursor, the
    value of the last entry that sets it. Every other value is read by
    [FromStruct]: the builder holds its conditions and nothing else, a
    panic there is [QueryTyped]'s, and a value that is neither a struct nor
    a pointer to one (nil, a number, a string) gives the query of the whole
    kind. *)
Theorem QueryTyped_is_Execute_on_the_builder_of_its_input
    (h : heap) (r : repository.BaseRepository Store) m v :
  let k := repository.kind r in
  let b := fresh (dom h) in
  let run this :=
    builder.Execute DecodeCursor GetAll b (repository.client r) (<[b := this]> h) in
  repository.QueryTyped DecodeCursor GetAll ToLower r (repository.InMap m) h
  = run (on_params (params_after_map m) (filters_builder k [] 0 false))
  /\ repository.QueryTyped DecodeCursor GetAll ToLower r (repository.InOther v) h
     = match filter.FromStruct ToLower filter.NewFilter v with
       | Some fb => run (filters_builder k (filter.Build fb) 0 false)
       | None => None
       end
  /\ (Kind_of v <> reflect.Struct ->
      (forall x, v = VPtr (Some x) -> Kind_of x <> reflect.Struct) ->
      repository.QueryTyped DecodeCursor GetAll ToLower r (repository.InOther v) h
      = run (filters_builder k [] 0 false)).
Proof.
  intros k b run.
  assert (Hother :
    repository.QueryTyped DecodeCursor GetAll ToLower r (repository.InOther v) h
    = match filter.FromStruct ToLower filter.NewFilter v with
      | Some fb => run (filters_builder k (filter.Build fb) 0 false)
      | None => None
      end).
  { unfold repository.QueryTyped. fold k.
    unfold bind at 1. unfold builder.New, alloc. fold b.
    unfold bind at 1. unfold builder.Kind.
    erewrite builderFacts.assign_ret_ok by apply lookup_insert_eq.
    rewrite insert_insert_eq.
    unfold bind at 1. unfold repository.applyStructParams.
    destruct (filter.FromStruct ToLower filter.NewFilter v) as [fb|];
      [|reflexivity].
    erewrite execFacts.add_filters_ok by apply lookup_insert_eq.
    by rewrite insert_insert_eq. }
  split; [|split; [exact Hother|]].
  - unfold repository.QueryTyped. fold k.
    unfold bind at 1. unfold builder.New, alloc. fold b.
    unfold bind at 1. unfold builder.Kind.
    erewrite builderFacts.assign_ret_ok by apply lookup_insert_eq.
    rewrite insert_insert_eq.
    unfold bind at 1.
    erewrite applyMapParams_ok by apply lookup_insert_eq.
    by rewrite insert_insert_eq.
  - intros Hs Hp. rewrite Hother.
    assert (E : filter.FromStruct ToLower filter.NewFilter v
                = Some filter.NewFilter).
    { unfold filter.FromStruct.
      destruct v as [ | |[]|[]| | | | | | | | | |[x|]| | | | | | ]; cbn in *;
        try reflexivity; try congruence.
      specialize (Hp x eq_refl). by destruct (Kind_of x). }
    by rewrite E.
Qed.

End Client.

(** The example map of the repository's usage: limit 10, ascending order
    on "created_at", and the two other entries as equality filters; and a
    nil parameter, which asks for all users. *)
Lemma QueryTyped_is_Execute_on_the_builder_of_its_input_witness :
  repository.QueryTyped fixtures.no_cursor fixtures.list_GetAll
    fixtures.ascii_ToLower fixtures.users_repository
    (repository.InMap fixtures.example_params) ∅
  = builder.Execute fixtures.no_cursor fixtures.list_GetAll 1%positive
      fixtures.five_keys
      {[ 1%positive :=
           {| kind := "users";
              params := {| Filters := [{| Field := "status"; Operator := Equal;
                                          Value := VString "active" |};
                                       {| Field := "age>="; Operator := Equal;
                                          Value := VInt Wnative 18 |}];
                           Orders := [{| OField := "created_at";
                                         Direction := Ascending |}];
                           Limit := 10; Offset := 0; Cursor := "";
                           Select := []; Distinct := false; KeysOnly := false;
                           Ancestor := None; Transaction := false |} |} ]}
  /\ repository.QueryTyped fixtures.no_cursor fixtures.list_GetAll
       fixtures.ascii_ToLower fixtures.users_repository
       (repository.InOther Nil) ∅
     = builder.Execute fixtures.no_cursor fixtures.list_GetAll 1%positive
         fixtures.five_keys {[ 1%positive := fixtures.users_builder ]}.
Proof.
  destruct (QueryTyped_is_Execute_on_the_builder_of_its_input
              fixtures.no_cursor fixtures.list_GetAll fixtures.ascii_ToLower
              ∅ fixtures.users_repository fixtures.example_params Nil)
    as (Hm & _ & Hn).
  split.
  - rewrite Hm. reflexivity.
  - rewrite Hn; [reflexivity|discriminate|discriminate].
Defined.

End repositoryMore.

(** * The operations of package exec *)

Module execMore.

Import spec.

Lemma keys_of_ids_valid kind ids : forall i,
  forallb names_a_key ids = true ->
  exec.keys_of_ids kind i ids = inl (List.map (key_of kind) ids).
Proof.
  induction ids as [|id ids IH]; intros i H; [reflexivity|].
  cbn in H. apply andb_true_iff in H as [Hid H].
  cbn [exec.keys_of_ids List.map]. rewrite (IH _ H).
  by destruct id as [ | |[]| | | | | | | | | | | | | | | | | ].
Qed.

Lemma keys_of_ids_invalid kind pre bad post : forall i,
  forallb names_a_key pre = true ->
  names_a_key bad = false ->
  exec.keys_of_ids kind i (pre ++ bad :: post)
  = inr (fmt_Errorf "invalid ID type at index %d: %T"
           [VInt Wnative (i + Z.of_nat (length pre)); bad]).
Proof.
  induction pre as [|id pre IH]; intros i Hpre Hbad.
  - cbn [app length exec.keys_of_ids]. rewrite Z.add_0_r.
    by destruct bad as [ | |[]| | | | | | | | | | | | | | | | | ].
  - cbn in Hpre. apply andb_true_iff in Hpre as [Hid Hpre].
    cbn [app exec.keys_of_ids]. rewrite (IH _ Hpre Hbad).
    replace (i + 1 + Z.of_nat (length pre))
      with (i + Z.of_nat (length (id :: pre))) by (cbn [length]; lia).
    by destruct id as [ | |[]| | | | | | | | | | | | | | | | | ].
Qed.

Lemma CreateMulti_keys_valid kind ids : forall i,
  forallb creatable ids = true ->
  exec.CreateMulti_keys kind i ids = inl (List.map (key_of kind) ids).
Proof.
  induction ids as [|id ids IH]; intros i H; [reflexivity|].
  cbn in H. apply andb_true_iff in H as [Hid H].
  cbn [exec.CreateMulti_keys List.map]. rewrite (IH _ H).
  by destruct id as [ | |[]| | | | | | | | | | | | | | | | | ].
Qed.

Lemma CreateMulti_keys_invalid kind pre bad post : forall i,
  forallb creatable pre = true ->
  creatable bad = false ->
  exec.CreateMulti_keys kind i (pre ++ bad :: post)
  = inr (fmt_Errorf "invalid ID type at index %d: %T"
           [VInt Wnative (i + Z.of_nat (length pre)); bad]).
Proof.
  induction pre as [|id pre IH]; intros i Hpre Hbad.
  - cbn [app length exec.CreateMulti_keys]. rewrite Z.add_0_r.
    by destruct bad as [ | |[]| | | | | | | | | | | | | | | | | ].
  - cbn in Hpre. apply andb_true_iff in Hpre as [Hid Hpre].
    cbn [app exec.CreateMulti_keys]. rewrite (IH _ Hpre Hbad).
    replace (i + 1 + Z.of_nat (length pre))
      with (i + Z.of_nat (length (id :: pre))) by (cbn [length]; lia).
    by destruct id as [ | |[]| | | | | | | | | | | | | | | | | ].
Qed.

Section Operations.
Context {CursorT Store TxFn : Type}.
Variable DecodeCursor : string -> CursorT + error.
Variable GetAll : Store -> Query CursorT -> list Key * option error.
Variable PutMulti : Store -> list Key -> value -> Store * option error.
Variable client_Get : Store -> Key -> value -> value + error.
Variable client_GetMulti : Store -> list Key -> list value + error.
Variable client_Put : Store -> Key -> value -> Store * option error.
Variable client_Delete : Store -> Key -> Store * option error.
Variable client_DeleteMulti : Store -> list Key -> Store * option error.
Variable client_Run : Store -> Query CursorT -> list (IterStep CursorT).
Variable client_RunInTransaction : Store -> TxFn -> Store * option error.

Local Abbreviation not_initialized := (errors_New "database is not initialized").

Lemma client_of_missing ctx :
  ctx <> ctx_client true -> exec.client_of ctx = Some not_initialized.
Proof. by destruct ctx as [| |[]]. Qed.

(** X11. Without a live client in the context (nothing under the key, a
    value of another type, or a nil client) every operation that looks the
    client up returns the error "database is not initialized", with its
    zero result, before anything else: the store is what it was, no builder
    is allocated or changed, and the identifiers, the entities and the
    filters are not even looked at. *)
Theorem no_client_no_effect ctx kind (h : heap) (db : Store) :
  ctx <> ctx_client true ->
  (forall id dest, exec.GetByID client_Get ctx kind id dest db
                   = inr not_initialized) /\
  (forall ids, exec.GetMulti client_GetMulti ctx kind ids db
               = inr not_initialized) /\
  (forall id e, exec.Create client_Put ctx kind id e db
                = (db, Some not_initialized)) /\
  (forall ids es, exec.CreateMulti PutMulti ctx kind ids es db
                  = (db, Some not_initialized)) /\
  (forall id e, exec.Update client_Put ctx kind id e db
                = (db, Some not_initialized)) /\
  (forall ids es, exec.UpdateMulti PutMulti ctx kind ids es db
                  = (db, Some not_initialized)) /\
  (forall id, exec.Delete client_Delete ctx kind id db
              = (db, Some not_initialized)) /\
  (forall ids, exec.DeleteMulti client_DeleteMulti ctx kind ids db
               = (db, Some not_initialized)) /\
  (forall id, exec.Exists client_Get ctx kind id db
              = (false, Some not_initialized)) /\
  (forall fs, exec.Count DecodeCursor GetAll ctx kind fs db h
              = Some ((0, Some not_initialized), h)) /\
  exec.FindAll GetAll ctx kind db = Some not_initialized /\
  (forall m, exec.FindWhere DecodeCursor GetAll ctx kind m db h
             = Some (Some not_initialized, h)) /\
  (forall m, exec.FindOne DecodeCursor client_Run ctx kind m db h
             = Some (Some not_initialized, h)) /\
  (forall m page pageSize,
     exec.Paginate DecodeCursor GetAll ctx kind m page pageSize db h
     = Some ((None, Some not_initialized), h)) /\
  (forall fn, exec.Transaction client_RunInTransaction ctx fn db
              = (db, Some not_initialized)) /\
  (forall m, exec.BulkDelete DecodeCursor GetAll client_DeleteMulti ctx kind m db h
             = Some ((db, (0, Some not_initialized)), h)).
Proof.
  intros Hctx. pose proof (client_of_missing _ Hctx) as E.
  unfold exec.GetByID, exec.GetMulti, exec.Update, exec.Create,
    exec.UpdateMulti, exec.CreateMulti, exec.Delete, exec.DeleteMulti,
    exec.Exists, exec.GetByID, exec.Count, exec.FindAll, exec.FindWhere,
    exec.FindOne, exec.Paginate, exec.Transaction, exec.BulkDelete.
  rewrite E. repeat split.
Qed.

(** X12. With a live client, the operations on several identifiers turn
    them into keys one by one, in order, a string into a name key, an int64
    into an id key, both without parent, and make one call to the client
    with exactly these keys: [GetMulti] and [DeleteMulti] when every
    identifier is a string or an int64, [CreateMulti] (hence [UpdateMulti])
    when the entities are a slice and every identifier is a string, an
    int64 or nil, nil giving an incomplete key. The number of entities is
    not compared with the number of identifiers. *)
Theorem multi_operations_send_the_keys_in_order kind ids entities (db : Store) :
  (forallb names_a_key ids = true ->
     exec.GetMulti client_GetMulti (ctx_client true) kind ids db
     = client_GetMulti db (List.map (key_of kind) ids) /\
     exec.DeleteMulti client_DeleteMulti (ctx_client true) kind ids db
     = client_DeleteMulti db (List.map (key_of kind) ids)) /\
  (forallb creatable ids = true ->
   Kind_of entities = reflect.Slice ->
     exec.CreateMulti PutMulti (ctx_client true) kind ids entities db
     = PutMulti db (List.map (key_of kind) ids) entities /\
     exec.UpdateMulti PutMulti (ctx_client true) kind ids entities db
     = PutMulti db (List.map (key_of kind) ids) entities).
Proof.
  split.
  - intros H. unfold exec.GetMulti, exec.DeleteMulti. cbn [exec.client_of].
    by rewrite (keys_of_ids_valid _ _ _ H).
  - intros H Hk. unfold exec.UpdateMulti, exec.CreateMulti.
    cbn [exec.client_of]. by rewrite Hk, (CreateMulti_keys_valid _ _ _ H).
Qed.

(** X13. With a live client, an identifier that is not of an accepted type
    stops the operation before the client is called: the error names the
    index of the first such identifier and its type, and the store is
    unchanged, whatever follows it in the list. A nil identifier is such an
    identifier for [GetMulti] and [DeleteMulti], not for [CreateMulti]; and
    [CreateMulti] reports entities that are not a slice before it looks at
    the identifiers. *)
Theorem multi_operations_stop_at_the_first_bad_identifier
    kind pre bad post entities (db : Store) :
  let index := VInt Wnative (Z.of_nat (length pre)) in
  let err := fmt_Errorf "invalid ID type at index %d: %T" [index; bad] in
  (forallb names_a_key pre = true -> names_a_key bad = false ->
     exec.GetMulti client_GetMulti (ctx_client true) kind
       (pre ++ bad :: post) db = inr err /\
     exec.DeleteMulti client_DeleteMulti (ctx_client true) kind
       (pre ++ bad :: post) db = (db, Some err)) /\
  (forallb creatable pre = true -> creatable bad = false ->
     exec.CreateMulti PutMulti (ctx_client true) kind (pre ++ bad :: post)
       entities db
     = (db, Some (match Kind_of entities with
                  | reflect.Slice => err
                  | _ => fmt_Errorf "entities must be a slice" []
                  end))).
Proof.
  intros index err. split.
  - intros Hpre Hbad. unfold exec.GetMulti, exec.DeleteMulti.
    cbn [exec.client_of].
    by rewrite (keys_of_ids_invalid _ _ _ _ _ Hpre Hbad).
  - intros Hpre Hbad. unfold exec.CreateMulti. cbn [exec.client_of].
    rewrite (CreateMulti_keys_invalid _ _ _ _ _ Hpre Hbad).
    by destruct (Kind_of entities).
Qed.

(** The builder after [New().Kind(kind)] and the loop over the map's
    conditions, for the limit and the keys-only flag set in between. *)
Lemma add_map_filters_ok (h : heap) b kindName m lim ko :
  exec.add_filters b (filter.Build (filter.FromMap filter.NewFilter m))
    (<[b := map_builder kindName [] lim ko]> h)
  = Some (tt, <[b := map_builder kindName m lim ko]> h).
Proof.
  erewrite execFacts.add_filters_ok by apply lookup_insert_eq.
  rewrite insert_insert_eq. unfold filter.Build.
  by rewrite filterFacts.FromMap_conditions.
Qed.

(** X14. With a live client, [FindWhere] and [FindOne] read a map the same
    way: one condition per entry, as [FromMap] gives it, on a new builder of
    the given kind. [FindWhere] returns the error of [Execute] on it, the
    pagination result being dropped; [FindOne] sets the limit 1, builds the
    query and returns what the first [Next] of the iterator returns: nil
    for a first entity, the iterator's error, or [iterator.Done] when
    nothing matches. The new builder is the only object added. *)
Theorem FindWhere_and_FindOne_run_the_conditions_of_the_map
    (h : heap) kindName m (db : Store) :
  let b := fresh (dom h) in
  let all := map_builder kindName m 0 false in
  let one := map_builder kindName m 1 false in
  exec.FindWhere DecodeCursor GetAll (ctx_client true) kindName m db h
  = Some (snd (GetAll db (builder.Build_of DecodeCursor all)), <[b := all]> h)
  /\ exec.FindOne DecodeCursor client_Run (ctx_client true) kindName m db h
     = Some (match client_Run db (builder.Build_of DecodeCursor one) with
             | [] => Some iterator_Done
             | NextErr err :: _ => Some err
             | NextOK _ :: _ => None
             end, <[b := one]> h)
  /\ q_limit (builder.Build_of DecodeCursor all) = -1
  /\ q_limit (builder.Build_of DecodeCursor one) = 1.
Proof.
  intros b all one. split; [|split; [|by rewrite !buildFacts.Build_of_closed]].
  - unfold exec.FindWhere. cbn [exec.client_of].
    unfold bind at 1. unfold builder.New, alloc. fold b.
    unfold bind at 1. unfold builder.Kind.
    erewrite builderFacts.assign_ret_ok by apply lookup_insert_eq.
    rewrite insert_insert_eq.
    unfold bind at 1.
    change (set_kind kindName _) with (map_builder kindName [] 0 false).
    rewrite add_map_filters_ok. fold all.
    unfold bind at 1.
    erewrite builderFacts.Execute_ok by apply lookup_insert_eq.
    unfold ret. by destruct (GetAll _ _) as [keys [err|]].
  - unfold exec.FindOne. cbn [exec.client_of].
    unfold bind at 1. unfold builder.New, alloc. fold b.
    unfold bind at 1. unfold builder.Kind.
    erewrite builderFacts.assign_ret_ok by apply lookup_insert_eq.
    rewrite insert_insert_eq.
    unfold bind at 1. unfold builder.Limit.
    erewrite builderFacts.assign_ret_ok by apply lookup_insert_eq.
    rewrite insert_insert_eq.
    unfold bind at 1.
    change (on_params _ (set_kind kindName _))
      with (map_builder kindName [] 1 false).
    rewrite add_map_filters_ok. fold one.
    unfold bind at 1. unfold builder.Build, bind.
    erewrite builderFacts.load_ok by apply lookup_insert_eq.
    unfold ret.
    by destruct (client_Run _ _) as [|[c|err] it].
Qed.

(** X15. With a live client, [BulkDelete] asks for the keys of every
    entity that matches the map's conditions, with no limit, and passes
    exactly the keys it got to one [DeleteMulti]. The client is not asked to
    delete anything when the query fails or matches nothing, and the store
    is then unchanged. The count returned is the number of keys when the
    deletion succeeds and 0 in every other case, also when [DeleteMulti]
    fails after it has changed the store. *)
Theorem BulkDelete_deletes_the_keys_of_the_matches
    (h : heap) kindName m (db : Store) :
  let b := fresh (dom h) in
  let this := map_builder kindName m 0 true in
  let query := builder.Build_of DecodeCursor this in
  exec.BulkDelete DecodeCursor GetAll client_DeleteMulti (ctx_client true)
    kindName m db h
  = Some (match GetAll db query with
          | (_, Some err) => (db, (0, Some err))
          | ([], None) => (db, (0, None))
          | (keys, None) =>
              match client_DeleteMulti db keys with
              | (db', Some err) => (db', (0, Some err))
              | (db', None) => (db', (Z.of_nat (length keys), None))
              end
          end, <[b := this]> h)
  /\ q_keysOnly query = true
  /\ q_limit query = -1
  /\ q_offset query = 0.
Proof.
  intros b this query.
  split; [|by unfold query; rewrite !buildFacts.Build_of_closed].
  unfold exec.BulkDelete. cbn [exec.client_of].
  unfold bind at 1. unfold builder.New, alloc. fold b.
  unfold bind at 1. unfold builder.Kind.
  erewrite builderFacts.assign_ret_ok by apply lookup_insert_eq.
  rewrite insert_insert_eq.
  unfold bind at 1. unfold builder.KeysOnly.
  erewrite builderFacts.assign_ret_ok by apply lookup_insert_eq.
  rewrite insert_insert_eq.
  unfold bind at 1.
  change (on_params _ (set_kind kindName _))
    with (map_builder kindName [] 0 true).
  rewrite add_map_filters_ok. fold this.
  unfold bind at 1. unfold builder.Build, bind.
  erewrite builderFacts.load_ok by apply lookup_insert_eq.
  unfold ret. fold query.
  destruct (GetAll db query) as [[|key keys] [err|]]; try done.
  change (Z.of_nat (length (key :: keys)) =? 0)
    with (Z.pos (Pos.of_succ_nat (length keys)) =? 0).
  cbn [Z.eqb].
  by destruct (client_DeleteMulti db (key :: keys)) as [db' [err|]].
Qed.

(** X16. [Exists] hands [GetByID] a pointer to a nil [map[string]any] of
    its own as the destination, whatever the entities of the kind are, and
    answers by the returned error alone, never true together with an
    error: true exactly when [GetByID] with this destination returns nil;
    false without error for [datastore.ErrNoSuchEntity]; and false with
    the error for every other error: a missing client, an identifier that
    is neither a string nor an int64 (the client is then not called), and
    whatever else the client's [Get] returns for this key and this
    destination, such as its refusal of a destination it cannot load an
    entity into. *)
Theorem Exists_answers ctx kindName id (db : Store) :
  let dest := VPtr (Some (VMap None)) in
  let get := exec.GetByID client_Get ctx kindName id dest db in
  let answer := exec.Exists client_Get ctx kindName id db in
  (fst answer = true -> snd answer = None)
  /\ (fst answer = true <-> exists entity, get = inl entity)
  /\ (forall err, snd answer = Some err <->
        get = inr err /\ is_ErrNoSuchEntity err = false)
  /\ (get = inr ErrNoSuchEntity -> answer = (false, None))
  /\ (ctx = ctx_client true -> names_a_key id = false ->
      answer = (false, Some (fmt_Errorf "invalid ID type: %T" [id])))
  /\ (ctx = ctx_client true -> names_a_key id = true ->
      get = client_Get db (key_of kindName id) dest
      /\ answer = match client_Get db (key_of kindName id) dest with
                  | inl _ => (true, None)
                  | inr err => (false, if is_ErrNoSuchEntity err then None
                                       else Some err)
                  end).
Proof.
  intros dest get answer. subst answer. unfold exec.Exists. fold dest get.
  split; [|split; [|split; [|split; [|split]]]].
  - by destruct get as [e|err]; [|destruct (is_ErrNoSuchEntity err)].
  - destruct get as [e|err]; [by split; eauto|].
    by destruct (is_ErrNoSuchEntity err); split; [|intros [? ?]| |intros [? ?]].
  - intros err'. destruct get as [e|err]; [by split; [|intros [? ?]]|].
    destruct (is_ErrNoSuchEntity err) eqn:E; cbn [snd]; split.
    + done.
    + intros [[= ->] ?]. congruence.
    + by intros [= ->].
    + by intros [[= ->] ?].
  - by intros ->.
  - intros -> Hid. subst get. unfold exec.GetByID. cbn [exec.client_of].
    by destruct id as [ | |[]| | | | | | | | | | | | | | | | | ].
  - intros -> Hid.
    assert (Hget : get = client_Get db (key_of kindName id) dest).
    { subst get. unfold exec.GetByID. cbn [exec.client_of].
      by destruct id as [ | |[]| | | | | | | | | | | | | | | | | ]. }
    split; [exact Hget|]. rewrite Hget.
    destruct (client_Get db (key_of kindName id) dest) as [e|err];
      [reflexivity|]. by destruct (is_ErrNoSuchEntity err).
Qed.

(** X25. With a live client, an operation on one identifier makes one
    call to the client, with the name key of a string or the id key of an
    int64, both without parent: [GetByID] a get into the destination it
    was given, [Create] and [Update]
    (which is [Create]) a put, [Delete] a delete. A nil identifier is a put
    under an incomplete key for [Create] and [Update] and an error for the
    others; every other identifier gives the error "invalid ID type"
    with its type, the client is not called and the store is unchanged. *)
Theorem single_operations_build_one_key kindName id entity (db : Store) :
  exec.Update client_Put (ctx_client true) kindName id entity db
  = exec.Create client_Put (ctx_client true) kindName id entity db
  /\ (names_a_key id = true ->
      (forall dest, exec.GetByID client_Get (ctx_client true) kindName id dest db
                    = client_Get db (key_of kindName id) dest)
      /\ exec.Delete client_Delete (ctx_client true) kindName id db
         = client_Delete db (key_of kindName id))
  /\ (creatable id = true ->
      exec.Create client_Put (ctx_client true) kindName id entity db
      = client_Put db (key_of kindName id) entity)
  /\ (names_a_key id = false ->
      (forall dest, exec.GetByID client_Get (ctx_client true) kindName id dest db
                    = inr (fmt_Errorf "invalid ID type: %T" [id]))
      /\ exec.Delete client_Delete (ctx_client true) kindName id db
         = (db, Some (fmt_Errorf "invalid ID type: %T" [id])))
  /\ (creatable id = false ->
      exec.Create client_Put (ctx_client true) kindName id entity db
      = (db, Some (fmt_Errorf "invalid ID type: %T" [id])))
  /\ key_of kindName Nil = IncompleteKey kindName None.
Proof.
  unfold exec.Update, exec.Create, exec.GetByID, exec.Delete.
  cbn [exec.client_of].
  repeat split;
    by destruct id as [ | |[]| | | | | | | | | | | | | | | | | ].
Qed.

(** X26. With a live client, [Count] counts the keys of the keys-only
    query with the given conditions, in their order, and no limit, and
    gives 0 with the error of a failing query; [FindAll] returns the error
    of [GetAll] on the new query of the kind, which is the query that a
    builder without conditions builds, so that of [FindWhere] with an
    empty map; [Transaction] returns the error of [RunInTransaction] and
    leaves the store as that call leaves it. *)
Theorem Count_FindAll_and_Transaction_pass_through
    (h : heap) kindName fs fn (db : Store) :
  let b := fresh (dom h) in
  let h' := <[b := filters_builder kindName fs 0 false]> h in
  exec.Count DecodeCursor GetAll (ctx_client true) kindName fs db h
  = Some (counted (GetAll db (builder.Build_of DecodeCursor
                                (filters_builder kindName fs 0 true))),
          <[fresh (dom h') := filters_builder kindName fs 0 true]> h')
  /\ exec.FindAll GetAll (ctx_client true) kindName db
     = snd (GetAll db (builder.Build_of DecodeCursor
                         (map_builder kindName [] 0 false)))
  /\ (exec.Transaction client_RunInTransaction (ctx_client true) fn db
      = client_RunInTransaction db fn).
Proof.
  intros b h'. split; [|split; [|reflexivity]].
  - unfold exec.Count. cbn [exec.client_of].
    unfold bind at 1. unfold builder.New, alloc. fold b.
    unfold bind at 1. unfold builder.Kind.
    erewrite builderFacts.assign_ret_ok by apply lookup_insert_eq.
    rewrite insert_insert_eq.
    unfold bind at 1.
    erewrite execFacts.add_filters_ok by apply lookup_insert_eq.
    rewrite insert_insert_eq.
    change (on_params _ (set_kind kindName _))
      with (filters_builder kindName fs 0 false). fold h'.
    erewrite builderFacts.Count_ok by apply lookup_insert_eq.
    unfold counted. by destruct (GetAll _ _) as [keys [err|]].
  - unfold exec.FindAll. cbn [exec.client_of].
    by rewrite buildFacts.Build_of_closed.
Qed.

End Operations.

(** A context without a client, and one with a value of another type. *)
Lemma no_client_no_effect_witness :
  exec.Exists fixtures.list_Get ctx_empty "users" (VInt W64 3)
    fixtures.five_keys
  = (false, Some (errors_New "database is not initialized"))
  /\ exec.DeleteMulti fixtures.list_DeleteMulti (ctx_other (VString "client"))
       "users" [VInt W64 1; Nil] fixtures.five_keys
     = (fixtures.five_keys, Some (errors_New "database is not initialized"))
  /\ exec.BulkDelete fixtures.no_cursor fixtures.list_GetAll
       fixtures.list_DeleteMulti (ctx_client false) "users" [] fixtures.five_keys ∅
     = Some ((fixtures.five_keys,
              (0, Some (errors_New "database is not initialized"))), ∅).
Proof.
  split; [|split].
  - assert (H : ctx_empty <> ctx_client true) by discriminate.
    destruct (no_client_no_effect (TxFn := list Key -> list Key * option error)
                fixtures.no_cursor fixtures.list_GetAll fixtures.list_PutMulti
                fixtures.list_Get fixtures.list_GetMulti fixtures.list_Put
                fixtures.list_Delete fixtures.list_DeleteMulti fixtures.list_Run
                fixtures.list_RunInTransaction ctx_empty "users" ∅
                fixtures.five_keys H)
      as (_ & _ & _ & _ & _ & _ & _ & _ & HE & _).
    exact (HE (VInt W64 3)).
  - assert (H : ctx_other (VString "client") <> ctx_client true) by discriminate.
    destruct (no_client_no_effect (TxFn := list Key -> list Key * option error)
                fixtures.no_cursor fixtures.list_GetAll fixtures.list_PutMulti
                fixtures.list_Get fixtures.list_GetMulti fixtures.list_Put
                fixtures.list_Delete fixtures.list_DeleteMulti fixtures.list_Run
                fixtures.list_RunInTransaction (ctx_other (VString "client"))
                "users" ∅ fixtures.five_keys H)
      as (_ & _ & _ & _ & _ & _ & _ & HD & _).
    exact (HD [VInt W64 1; Nil]).
  - assert (H : ctx_client false <> ctx_client true) by discriminate.
    destruct (no_client_no_effect (TxFn := list Key -> list Key * option error)
                fixtures.no_cursor fixtures.list_GetAll fixtures.list_PutMulti
                fixtures.list_Get fixtures.list_GetMulti fixtures.list_Put
                fixtures.list_Delete fixtures.list_DeleteMulti fixtures.list_Run
                fixtures.list_RunInTransaction (ctx_client false)
                "users" ∅ fixtures.five_keys H)
      as (_ & _ & _ & _ & _ & _ & _ & _ & _ & _ & _ & _ & _ & _ & _ & HB).
    exact (HB []).
Defined.

(** Deleting the users 2 and "ann" sends the id key and the name key;
    creating three users with an id, a name and no id sends an id key, a
    name key and an incomplete key. *)
Lemma multi_operations_send_the_keys_in_order_witness :
  exec.DeleteMulti fixtures.list_DeleteMulti (ctx_client true) "users"
    [VInt W64 2; VString "ann"] fixtures.five_keys
  = fixtures.list_DeleteMulti fixtures.five_keys
      [IDKey "users" 2 None; NameKey "users" "ann" None]
  /\ exec.CreateMulti fixtures.list_PutMulti (ctx_client true) "users"
       [VInt W64 9; VString "bob"; Nil] (VSlice (Some fixtures.five_users)) []
     = ([IDKey "users" 9 None; NameKey "users" "bob" None;
         IncompleteKey "users" None], None).
Proof.
  split.
  - destruct (multi_operations_send_the_keys_in_order fixtures.list_PutMulti
                fixtures.list_GetMulti fixtures.list_DeleteMulti "users"
                [VInt W64 2; VString "ann"] Nil fixtures.five_keys)
      as [H _].
    exact (proj2 (H eq_refl)).
  - destruct (multi_operations_send_the_keys_in_order fixtures.list_PutMulti
                fixtures.list_GetMulti fixtures.list_DeleteMulti "users"
                [VInt W64 9; VString "bob"; Nil]
                (VSlice (Some fixtures.five_users)) [])
      as [_ H].
    exact (proj1 (H eq_refl eq_refl)).
Defined.

(** An int (not an int64) at index 1 stops [GetMulti]; a nil at index 1
    stops [DeleteMulti]; a bool at index 2 stops [CreateMulti], after a nil
    that it accepts. *)
Lemma multi_operations_stop_at_the_first_bad_identifier_witness :
  exec.GetMulti fixtures.list_GetMulti (ctx_client true) "users"
    [VInt W64 1; VInt Wnative 2; VInt W64 3] fixtures.five_keys
  = inr (fmt_Errorf "invalid ID type at index %d: %T"
           [VInt Wnative 1; VInt Wnative 2])
  /\ exec.DeleteMulti fixtures.list_DeleteMulti (ctx_client true) "users"
       [VInt W64 1; Nil] fixtures.five_keys
     = (fixtures.five_keys,
        Some (fmt_Errorf "invalid ID type at index %d: %T" [VInt Wnative 1; Nil]))
  /\ exec.CreateMulti fixtures.list_PutMulti (ctx_client true) "users"
       [VInt W64 1; Nil; VBool true] (VSlice (Some fixtures.five_users))
       fixtures.five_keys
     = (fixtures.five_keys,
        Some (fmt_Errorf "invalid ID type at index %d: %T"
                [VInt Wnative 2; VBool true])).
Proof.
  split; [|split].
  - destruct (multi_operations_stop_at_the_first_bad_identifier
                fixtures.list_PutMulti fixtures.list_GetMulti
                fixtures.list_DeleteMulti "users"
                [VInt W64 1] (VInt Wnative 2) [VInt W64 3] Nil fixtures.five_keys)
      as [H _].
    exact (proj1 (H eq_refl eq_refl)).
  - destruct (multi_operations_stop_at_the_first_bad_identifier
                fixtures.list_PutMulti fixtures.list_GetMulti
                fixtures.list_DeleteMulti "users"
                [VInt W64 1] Nil [] Nil fixtures.five_keys)
      as [H _].
    exact (proj2 (H eq_refl eq_refl)).
  - destruct (multi_operations_stop_at_the_first_bad_identifier
                fixtures.list_PutMulti fixtures.list_GetMulti
                fixtures.list_DeleteMulti "users"
                [VInt W64 1; Nil] (VBool true) []
                (VSlice (Some fixtures.five_users)) fixtures.five_keys)
      as [_ H].
    exact (H eq_refl eq_refl).
Defined.

(** On the store of five users, whose client loads entities into
    pointers to structs only: for user 3, who is there, the client refuses
    the map destination and [Exists] answers false with that error; for
    user 9, who is not, it answers false without error; and a nil
    identifier is an error. *)
Lemma Exists_answers_witness :
  exec.Exists fixtures.list_Get (ctx_client true) "users" (VInt W64 3)
    fixtures.five_keys = (false, Some ErrInvalidEntityType)
  /\ exec.Exists fixtures.list_Get (ctx_client true) "users" (VInt W64 9)
       fixtures.five_keys = (false, None)
  /\ exec.Exists fixtures.list_Get (ctx_client true) "users" Nil
       fixtures.five_keys
     = (false, Some (fmt_Errorf "invalid ID type: %T" [Nil])).
Proof.
  split; [|split].
  - destruct (Exists_answers fixtures.list_Get (ctx_client true) "users"
                (VInt W64 3) fixtures.five_keys) as (_ & _ & _ & _ & _ & H).
    destruct (H eq_refl eq_refl) as [_ ->]. reflexivity.
  - destruct (Exists_answers fixtures.list_Get (ctx_client true) "users"
                (VInt W64 9) fixtures.five_keys) as (_ & _ & _ & H & _).
    exact (H eq_refl).
  - destruct (Exists_answers fixtures.list_Get (ctx_client true) "users"
                Nil fixtures.five_keys) as (_ & _ & _ & _ & H & _).
    exact (H eq_refl eq_refl).
Defined.

(** Deleting user 3 removes its key; creating without an identifier
    appends an incomplete key; an int identifier (not an int64) is
    refused. *)
Lemma single_operations_build_one_key_witness :
  exec.Delete fixtures.list_Delete (ctx_client true) "users" (VInt W64 3)
    fixtures.five_keys
  = (List.map (fun i => IDKey "users" i None) [1; 2; 4; 5], None)
  /\ exec.Create fixtures.list_Put (ctx_client true) "users" Nil
       (VMap (Some [])) []
     = ([IncompleteKey "users" None], None)
  /\ exec.GetByID fixtures.list_Get (ctx_client true) "users" (VInt Wnative 3)
       (VPtr (Some (VStruct "User" []))) fixtures.five_keys
     = inr (fmt_Errorf "invalid ID type: %T" [VInt Wnative 3]).
Proof.
  split; [|split].
  - destruct (single_operations_build_one_key fixtures.list_Get
                fixtures.list_Put fixtures.list_Delete "users" (VInt W64 3)
                Nil fixtures.five_keys) as (_ & H & _).
    rewrite (proj2 (H eq_refl)). reflexivity.
  - destruct (single_operations_build_one_key fixtures.list_Get
                fixtures.list_Put fixtures.list_Delete "users" Nil
                (VMap (Some [])) []) as (_ & _ & H & _).
    rewrite (H eq_refl). reflexivity.
  - destruct (single_operations_build_one_key fixtures.list_Get
                fixtures.list_Put fixtures.list_Delete "users" (VInt Wnative 3)
                Nil fixtures.five_keys) as (_ & _ & _ & H & _).
    exact (proj1 (H eq_refl) (VPtr (Some (VStruct "User" [])))).
Defined.

End execMore.

(** * Package helper and the repository's count *)

Module helperFacts.

Import spec.

Section Client.
Context {CursorT Store : Type}.
Variable DecodeCursor : string -> CursorT + error.
Variable GetAll : Store -> Query CursorT -> list Key * option error.
Variable PutMulti : Store -> list Key -> value -> Store * option error.
Variable client_DeleteMulti : Store -> list Key -> Store * option error.
Variable ToLower : string -> string.

Lemma BulkCreate_loop_agrees fuel kindName v batchSize total : forall i db,
  helper.BulkCreate_loop PutMulti fuel kindName v batchSize total i db
  = exec.BulkCreate_loop PutMulti fuel (ctx_client true) kindName v batchSize
      total i db.
Proof.
  induction fuel as [|fuel IH]; intros i db; [reflexivity|].
  cbn [helper.BulkCreate_loop exec.BulkCreate_loop].
  destruct (i <? total); [|reflexivity].
  destruct (Slice v i _) as [batch|]; [|reflexivity].
  change (helper.CreateMulti PutMulti kindName ?ids batch db)
    with (exec.CreateMulti PutMulti (ctx_client true) kindName ids batch db).
  destruct (exec.CreateMulti _ _ _ _ _ _) as [db' [err|]]; [reflexivity|].
  apply IH.
Qed.

(** X17. The methods of [Helper], which holds its client, compute what the
    methods of [Exec] compute under a context that holds a live client:
    [CreateMulti], [Paginate], [BulkCreate] (for every number of loop
    iterations granted) and [BulkDelete] return the same values and leave
    the same store and the same builders. *)
Theorem Helper_agrees_with_Exec_under_a_live_client
    (h : heap) kindName ids entities m page pageSize batchSize (db : Store) :
  helper.CreateMulti PutMulti kindName ids entities db
  = exec.CreateMulti PutMulti (ctx_client true) kindName ids entities db
  /\ helper.Paginate DecodeCursor GetAll kindName m page pageSize db h
     = exec.Paginate DecodeCursor GetAll (ctx_client true) kindName m page
         pageSize db h
  /\ (forall fuel,
        helper.BulkCreate PutMulti fuel kindName entities batchSize db
        = exec.BulkCreate PutMulti fuel (ctx_client true) kindName entities
            batchSize db)
  /\ helper.BulkDelete DecodeCursor GetAll client_DeleteMulti kindName m db h
     = exec.BulkDelete DecodeCursor GetAll client_DeleteMulti (ctx_client true)
         kindName m db h.
Proof.
  split; [reflexivity|]. split; [reflexivity|]. split; [|reflexivity].
  intros fuel. unfold helper.BulkCreate, exec.BulkCreate.
  destruct (Kind_of entities); try reflexivity. apply BulkCreate_loop_agrees.
Qed.

(** X18. [BulkCreate] looks at the entities before anything else and never
    looks for the client itself: entities that are not a slice give the
    error "entities must be a slice", and a slice without elements (nil or
    empty) gives nil, in both cases without a call to the client, for every
    batch size, and also under a context without client. Under such a
    context a slice with elements gives "database is not initialized",
    from the first [CreateMulti], for every batch size from 0 on. *)
Theorem BulkCreate_without_entities fuel ctx kindName entities batchSize (db : Store) :
  (Kind_of entities <> reflect.Slice ->
   exec.BulkCreate PutMulti fuel ctx kindName entities batchSize db
   = (db, Returns (Some (fmt_Errorf "entities must be a slice" []))))
  /\ (Kind_of entities = reflect.Slice -> Len entities = 0 -> (0 < fuel)%nat ->
      exec.BulkCreate PutMulti fuel ctx kindName entities batchSize db
      = (db, Returns None))
  /\ (Kind_of entities = reflect.Slice -> 0 < Len entities -> (0 < fuel)%nat ->
      ctx <> ctx_client true -> 0 <= batchSize <= GoInt.max_int ->
      exec.BulkCreate PutMulti fuel ctx kindName entities batchSize db
      = (db, Returns (Some (errors_New "database is not initialized")))).
Proof.
  split; [|split].
  - intros H. unfold exec.BulkCreate. by destruct (Kind_of entities).
  - intros H H0 Hf. unfold exec.BulkCreate. rewrite H, H0.
    destruct fuel as [|fuel]; [lia|]. reflexivity.
  - intros H H0 Hf Hctx Hb. unfold exec.BulkCreate. rewrite H.
    destruct fuel as [|fuel]; [lia|]. cbn [exec.BulkCreate_loop].
    rewrite (proj2 (Z.ltb_lt _ _) H0).
    unfold GoInt.add. rewrite Z.add_0_l, GoIntFacts.wrap_id
      by (unfold GoInt.in_range, GoInt.min_int, GoInt.max_int in *; lia).
    destruct entities as [ | |[]|[]| | | | | | | |o| | | | | | | | ];
      try discriminate H.
    unfold Slice.
    assert (HL : Len (VSlice o) = Z.of_nat (length (default [] o)))
      by (by destruct o).
    rewrite HL in *.
    set (end_ := if batchSize >? _ then _ else _).
    assert (Hend : 0 <= end_ <= Z.of_nat (length (default [] o))).
    { subst end_. destruct (Z.gtb_spec batchSize (Z.of_nat (length (default [] o)))); lia. }
    replace ((0 <? 0) || (end_ <? 0) || (end_ >? Z.of_nat (length (default [] o))))
      with false.
    2:{ symmetry. rewrite !orb_false_iff. repeat split.
        - apply Z.ltb_ge; lia.
        - rewrite Z.gtb_ltb. apply Z.ltb_ge; lia. }
    unfold exec.CreateMulti.
    by rewrite (execMore.client_of_missing _ Hctx).
Qed.

(** X19. [Count] of a repository counts the keys that the store returns
    for the keys-only query of the repository's kind with the conditions it
    was given and no limit, on the repository's own client; a failing query
    gives 0 and the error. A slice of conditions is used as it is; a map
    gives one condition per entry, as [FromMap] reads it, reserved names
    such as "limit" included; any other value is read by [FromStruct], and
    a panic there is [Count]'s. Two builders are allocated, the second
    being the copy that [Builder.Count] queries with. *)
Theorem repository_Count_counts_the_keys_of_the_conditions
    (h : heap) (r : repository.BaseRepository Store) fs m v :
  let k := repository.kind r in
  let b := fresh (dom h) in
  let h' := <[b := filters_builder k fs 0 false]> h in
  repository.Count DecodeCursor GetAll ToLower r (repository.CountFilters fs) h
  = Some (counted (GetAll (repository.client r)
                     (builder.Build_of DecodeCursor (filters_builder k fs 0 true))),
          <[fresh (dom h') := filters_builder k fs 0 true]> h')
  /\ repository.Count DecodeCursor GetAll ToLower r (repository.CountMap m) h
     = repository.Count DecodeCursor GetAll ToLower r
         (repository.CountFilters
            (List.map (fun e => condition_of (fst e) (snd e)) m)) h
  /\ repository.Count DecodeCursor GetAll ToLower r (repository.CountOther v) h
     = match filter.FromStruct ToLower filter.NewFilter v with
       | Some fb =>
           repository.Count DecodeCursor GetAll ToLower r
             (repository.CountFilters (filter.Build fb)) h
       | None => None
       end.
Proof.
  intros k b h'.
  assert (Hk : (do b0 <- builder.New; builder.Kind b0 k) h
               = Some (b, <[b := filters_builder k [] 0 false]> h)).
  { unfold bind at 1. unfold builder.New, alloc. fold b. unfold builder.Kind.
    erewrite builderFacts.assign_ret_ok by apply lookup_insert_eq.
    by rewrite insert_insert_eq. }
  assert (Hbind : forall {A B C} (m1 : M A) (f : A -> M B) (g : B -> M C) x,
             (do a <- m1; do y <- f a; g y) x
             = (do y <- (do a <- m1; f a); g y) x).
  { intros A B C m1 f g x. unfold bind. by destruct (m1 x) as [[a x']|]. }
  split; [|split].
  - unfold repository.Count. fold k. rewrite Hbind.
    unfold bind at 1. rewrite Hk.
    unfold bind at 1.
    erewrite execFacts.add_filters_ok by apply lookup_insert_eq.
    rewrite insert_insert_eq.
    change (on_params _ (filters_builder k [] 0 false))
      with (filters_builder k fs 0 false). fold h'.
    erewrite builderFacts.Count_ok by apply lookup_insert_eq.
    unfold counted. by destruct (GetAll _ _) as [keys [err|]].
  - unfold repository.Count, filter.Build.
    by rewrite filterFacts.FromMap_conditions.
  - unfold repository.Count. fold k.
    destruct (filter.FromStruct ToLower filter.NewFilter v) as [fb|];
      [reflexivity|].
    rewrite Hbind. unfold bind at 1. by rewrite Hk.
Qed.

End Client.

(** A string instead of a slice; a nil slice under an empty context, with
    batch size 0; five users under an empty context. *)
Lemma BulkCreate_without_entities_witness :
  exec.BulkCreate fixtures.list_PutMulti 0 (ctx_client true) "users"
    (VString "ann") 2 []
  = ([], Returns (Some (fmt_Errorf "entities must be a slice" [])))
  /\ exec.BulkCreate fixtures.list_PutMulti 1 ctx_empty "users"
       (VSlice None) 0 []
     = ([], Returns None)
  /\ exec.BulkCreate fixtures.list_PutMulti 1 ctx_empty "users"
       (VSlice (Some fixtures.five_users)) 2 []
     = ([], Returns (Some (errors_New "database is not initialized"))).
Proof.
  split; [|split].
  - destruct (BulkCreate_without_entities fixtures.list_PutMulti 0
                (ctx_client true) "users" (VString "ann") 2 []) as (H & _).
    apply H. discriminate.
  - destruct (BulkCreate_without_entities fixtures.list_PutMulti 1
                ctx_empty "users" (VSlice None) 0 []) as (_ & H & _).
    apply H; [reflexivity|reflexivity|lia].
  - destruct (BulkCreate_without_entities fixtures.list_PutMulti 1
                ctx_empty "users" (VSlice (Some fixtures.five_users)) 2 [])
      as (_ & _ & H).
    apply H; [reflexivity|reflexivity|lia|discriminate|].
    unfold GoInt.max_int. lia.
Defined.

End helperFacts.

(** * The mock client of package testutil *)

Module mockFacts.

Import spec.

Lemma Get_loaded m key :
  testutil.Get m key = loaded (stored m (Key_Kind key) (testutil.id_of key)).
Proof.
  unfold testutil.Get, loaded, stored.
  destruct (testutil.entities m !! Key_Kind key) as [ke|]; [|reflexivity].
  destruct (ke !! testutil.id_of key) as [s|]; [|reflexivity].
  by destruct s.
Qed.

Lemma stored_Put m key e kindName id :
  stored (fst (testutil.Put m key e)) kindName id
  = if String.eqb (Key_Kind key) kindName && String.eqb (testutil.id_of key) id
    then Some e else stored m kindName id.
Proof.
  unfold stored, testutil.Put. cbn [fst testutil.entities].
  destruct (String.eqb_spec (Key_Kind key) kindName) as [<-|Hk].
  - rewrite lookup_insert_eq. cbn [andb].
    destruct (String.eqb_spec (testutil.id_of key) id) as [<-|Hi].
    + by rewrite lookup_insert_eq.
    + rewrite lookup_insert_ne by done.
      destruct (testutil.entities m !! Key_Kind key) as [ke|] eqn:E.
      * by rewrite E.
      * by rewrite lookup_insert_eq.
  - cbn [andb]. rewrite lookup_insert_ne by done.
    destruct (testutil.entities m !! Key_Kind key) as [ke|] eqn:E;
      [reflexivity|]. by rewrite lookup_insert_ne by done.
Qed.

Lemma stored_Delete m key kindName id :
  stored (fst (testutil.Delete m key)) kindName id
  = if String.eqb (Key_Kind key) kindName && String.eqb (testutil.id_of key) id
    then None else stored m kindName id.
Proof.
  unfold stored, testutil.Delete.
  destruct (testutil.entities m !! Key_Kind key) as [ke|] eqn:E;
    cbn [fst testutil.entities].
  - destruct (String.eqb_spec (Key_Kind key) kindName) as [<-|Hk]; cbn [andb].
    + rewrite lookup_insert_eq, E.
      destruct (String.eqb_spec (testutil.id_of key) id) as [<-|Hi].
      * by rewrite lookup_delete_eq.
      * by rewrite lookup_delete_ne.
    + by rewrite lookup_insert_ne.
  - destruct (String.eqb_spec (Key_Kind key) kindName) as [<-|Hk]; cbn [andb];
      [|reflexivity].
    rewrite E. by destruct (String.eqb _ _).
Qed.

(** X20. In the mock, [Put] always succeeds, and a [Get] after it reads, in
    the slot of the key that was put (same kind, same id), the entity that
    was put, replacing what the slot held, and in every other slot what it
    read before. An entity that is a map is loaded as it is; on any other
    entity the type assertion of [Get] panics. *)
Theorem mock_Get_after_Put m key e key' :
  snd (testutil.Put m key e) = None
  /\ testutil.Get (fst (testutil.Put m key e)) key'
     = if same_slot key key' then loaded (Some e) else testutil.Get m key'.
Proof.
  split; [reflexivity|].
  rewrite !Get_loaded, stored_Put. unfold same_slot.
  by destruct (_ && _).
Qed.

(** X21. In the mock, [Delete] always succeeds, also for a key that is not
    there; a [Get] after it finds no entity in the slot of the deleted key
    and reads in every other slot what it read before; and deleting twice
    is deleting once. *)
Theorem mock_Get_after_Delete m key key' :
  snd (testutil.Delete m key) = None
  /\ testutil.Get (fst (testutil.Delete m key)) key'
     = (if same_slot key key' then Some (inr ErrNoSuchEntity)
        else testutil.Get m key')
  /\ fst (testutil.Delete (fst (testutil.Delete m key)) key)
     = fst (testutil.Delete m key).
Proof.
  split; [|split].
  - unfold testutil.Delete. by destruct (_ !! _).
  - rewrite !Get_loaded, stored_Delete. unfold same_slot.
    by destruct (_ && _).
  - unfold testutil.Delete.
    destruct (testutil.entities m !! Key_Kind key) as [ke|] eqn:E;
      cbn [fst testutil.entities].
    + rewrite lookup_insert_eq. cbn [fst]. f_equal.
      by rewrite insert_insert_eq, delete_delete_eq.
    + by rewrite E.
Qed.

(** X22. [Count] of a kind is the number of slots of that kind that hold
    an entity: an empty or a cleared mock counts 0 for every kind, a [Put]
    adds one to the count of the key's kind when its slot was empty and
    leaves it when the slot was taken, a [Delete] takes one off when the
    slot was taken, and the counts of the other kinds do not change. After
    [Clear] no key is found. *)
Theorem mock_Count_follows_the_slots m key e kindName :
  let taken := stored m (Key_Kind key) (testutil.id_of key) in
  testutil.Count testutil.NewMockClient kindName = 0
  /\ testutil.Count (testutil.Clear m) kindName = 0
  /\ testutil.Get (testutil.Clear m) key = Some (inr ErrNoSuchEntity)
  /\ testutil.Count (fst (testutil.Put m key e)) kindName
     = (if String.eqb (Key_Kind key) kindName
        then match taken with
             | Some _ => testutil.Count m kindName
             | None => testutil.Count m kindName + 1
             end
        else testutil.Count m kindName)
  /\ testutil.Count (fst (testutil.Delete m key)) kindName
     = (if String.eqb (Key_Kind key) kindName
        then match taken with
             | Some _ => testutil.Count m kindName - 1
             | None => testutil.Count m kindName
             end
        else testutil.Count m kindName).
Proof.
  intros taken. subst taken. unfold stored.
  split; [reflexivity|]. split; [reflexivity|]. split; [reflexivity|]. split.
  - unfold testutil.Count, testutil.Put. cbn [fst testutil.entities].
    destruct (String.eqb_spec (Key_Kind key) kindName) as [<-|Hk].
    + rewrite lookup_insert_eq, map_size_insert.
      destruct (testutil.entities m !! Key_Kind key) as [ke|] eqn:E.
      * rewrite E. unfold default, from_option, id.
        destruct (ke !! testutil.id_of key); lia.
      * rewrite lookup_insert_eq. unfold default, from_option, id.
        rewrite lookup_empty, map_size_empty. reflexivity.
    + rewrite lookup_insert_ne by done.
      destruct (testutil.entities m !! Key_Kind key) as [ke|] eqn:E;
        [reflexivity|]. by rewrite lookup_insert_ne by done.
  - unfold testutil.Count, testutil.Delete.
    destruct (testutil.entities m !! Key_Kind key) as [ke|] eqn:E;
      cbn [fst testutil.entities].
    + destruct (String.eqb_spec (Key_Kind key) kindName) as [<-|Hk].
      * rewrite lookup_insert_eq, E, map_size_delete.
        destruct (ke !! testutil.id_of key) as [x|] eqn:Ex; unfold id; [|lia].
        assert (size ke <> 0%nat)
          by (intros H0; apply map_size_empty_inv in H0; subst ke;
              by rewrite lookup_empty in Ex).
        lia.
      * by rewrite lookup_insert_ne.
    + destruct (String.eqb_spec (Key_Kind key) kindName) as [<-|Hk];
        [by rewrite E|reflexivity].
Qed.

Lemma Sprintf_d_inj n n' :
  testutil.Sprintf_d n = testutil.Sprintf_d n' -> n = n'.
Proof.
  unfold testutil.Sprintf_d. intros H.
  assert (Hi : Z.to_int n = Z.to_int n').
  { apply (f_equal DecimalString.NilEmpty.int_of_string) in H.
    rewrite !DecimalString.NilEmpty.isi in H. congruence. }
  rewrite <- (DecimalZ.of_to n), <- (DecimalZ.of_to n'). by rewrite Hi.
Qed.

Lemma Sprintf_d_nonempty n : String.eqb (testutil.Sprintf_d n) "" = false.
Proof.
  apply String.eqb_neq. unfold testutil.Sprintf_d. intros H.
  apply (f_equal DecimalString.NilEmpty.int_of_string) in H.
  rewrite DecimalString.NilEmpty.isi in H. cbn in H.
  injection H as H.
  assert (Hn : n = 0)
    by (rewrite <- (DecimalZ.of_to n), H; reflexivity).
  subst n. discriminate H.
Qed.

(** X23. The mock files a key under its kind and one string: the name, and
    when the name is empty the id in decimal; the parent is not looked at.
    So two id keys of one kind share a slot exactly when their ids are
    equal, but an id key shares its slot with the name key whose name is
    the decimal of its id, and an incomplete key, a name key with the empty
    name, the id key 0 and the name key "0" all share one slot: an entity
    put under one of them is the one found, replaced or deleted under the
    others. *)
Theorem mock_keys_that_share_a_slot kindName n n' parent parent' :
  (same_slot (IDKey kindName n parent) (IDKey kindName n' parent') = true
   <-> n = n')
  /\ same_slot (IDKey kindName n parent)
       (NameKey kindName (testutil.Sprintf_d n) parent') = true
  /\ same_slot (IncompleteKey kindName parent) (IDKey kindName 0 parent') = true
  /\ same_slot (NameKey kindName "" parent) (NameKey kindName "0" parent') = true
  /\ (forall m e,
        testutil.Get (fst (testutil.Put m (IDKey kindName n parent) e))
          (NameKey kindName (testutil.Sprintf_d n) parent')
        = loaded (Some e))
  /\ (forall m e,
        testutil.Get
          (fst (testutil.Delete
                  (fst (testutil.Put m (IncompleteKey kindName parent) e))
                  (NameKey kindName "0" parent')))
          (IncompleteKey kindName parent)
        = Some (inr ErrNoSuchEntity)).
Proof.
  assert (H2 : same_slot (IDKey kindName n parent)
                 (NameKey kindName (testutil.Sprintf_d n) parent') = true).
  { unfold same_slot, testutil.id_of. cbn [Key_Kind Key_Name Key_ID].
    rewrite Sprintf_d_nonempty. cbn [String.eqb].
    by rewrite !String.eqb_refl. }
  split; [|split; [exact H2|split; [|split; [|split]]]].
  - unfold same_slot, testutil.id_of. cbn [Key_Kind Key_Name Key_ID String.eqb].
    rewrite String.eqb_refl. cbn [andb]. rewrite String.eqb_eq.
    split; [apply Sprintf_d_inj|by intros ->].
  - unfold same_slot. cbn [Key_Kind]. by rewrite String.eqb_refl.
  - unfold same_slot. cbn [Key_Kind]. by rewrite String.eqb_refl.
  - intros m e. rewrite Get_loaded, stored_Put.
    unfold same_slot in H2. by rewrite H2.
  - intros m e. rewrite Get_loaded, stored_Delete.
    cbn [Key_Kind]. by rewrite String.eqb_refl.
Qed.

End mockFacts.
